(** * CharacterTyper: a shallow embedding of [helper/typing.py]

    The typing engine turns a string into a sequence of synthetic key
    events, with mode dependent pauses and a randomised typo-then-correct
    detour.  This file embeds

    - the two input backends ([_windows_send_input], [_x11_send_input]),
      with what they hand to the operating system and whether they raise,
    - the worker ([_simulate_typo], [_simulate_typing]) as a program over
      the four things it does to the outside world: inject a character,
      sleep, poll the stop event, and draw a random number,
    - the control surface ([type_text], [stop_typing], [wait_until_done],
      the setters, [press_enter]) as transitions of an engine with a pool
      of worker threads,

    and proves the properties of the specification against them.

    Conventions.
    - A Python [str] is a list of code points ([Z]); [ord] of a one
      character string is the code point itself, [chr] checks the range.
    - Numbers handed to the engine (delays, error rate) are rationals:
      every finite float and every int is one, and Python compares them
      exactly.  NaN and the infinities are outside the model.
    - The argument of [time.sleep] is recorded symbolically ([delay]): which
      draw it comes from and which factors were multiplied in, in the order
      the code multiplies them.  No rounding behaviour is assumed: the
      value of a delay is never computed, and [time.sleep] is taken to
      raise, or to return, only where the operands settle it however the
      floating point operations round ([sleep_raises]).
    - The [random] module is a tape of raw draws; each primitive maps the
      next raw draw into its range, so every outcome the library can
      produce is produced by some tape.
    - The configuration fields are read from a record that stays the same
      during one run of the worker; the stop event is the only field
      another thread changes while the worker runs, and the worker sees it
      through an oracle indexed by the number of events it has logged. *)

From Stdlib Require Import String Ascii ZArith QArith Qminmax List Bool Lia Lqa.
Import ListNotations.

Set Implicit Arguments.
Open Scope Z_scope.

(** ** Python values *)

(** [class TypingMode(Enum)] *)
Inductive TypingMode : Type := INSTANT | HUMAN_LIKE | MACHINE_GUN.

(** The exceptions the modelled code can raise. *)
Inductive PyExn : Type :=
| ValueError | IndexError | RuntimeError | AttributeError | OverflowError.

(** A [str] as its code points. *)
Definition str : Type := list Z.

(** Code points of an ASCII literal. *)
Fixpoint codes (s : string) : str :=
  match s with
  | EmptyString => []
  | String a s' => Z.of_nat (nat_of_ascii a) :: codes s'
  end.

Definition NEWLINE : Z := 10.      (* "\n" *)
Definition BACKSPACE : Z := 8.     (* "\x08" *)

(** [chr(n)]: [ValueError] outside [range(0x110000)]. *)
Definition chr (n : Z) : PyExn + Z :=
  if (0 <=? n) && (n <=? 1114111) then inr n else inl ValueError.

(** [c in s] for a one character string [c]. *)
Definition char_in (c : Z) (s : str) : bool := existsb (Z.eqb c) s.

(** [char == last_char], where [last_char] starts as [None]. *)
Definition eq_last (c : Z) (last_char : option Z) : bool :=
  match last_char with
  | Some l => c =? l
  | None => false
  end.

(** [a < b] on numbers. *)
Definition Qltb (a b : Q) : bool :=
  match a ?= b with
  | Lt => true
  | _ => false
  end%Q.

(** The builtins [min(a, b)] and [max(a, b)]: the first argument is kept
    unless the second is strictly smaller (resp. strictly larger). *)
Definition py_min (a b : Q) : Q := if Qltb b a then b else a.
Definition py_max (a b : Q) : Q := if Qltb a b then b else a.

(** ** Sleep arguments *)

Inductive delay : Type :=
| Fixed (q : Q)                  (* a stored number, or a literal *)
| Uniform (a b u : Q)            (* random.uniform(a, b), from the draw u of random() *)
| Scale (d : delay) (k : Q).     (* d *= k *)

(** [time.sleep(d)] raises [ValueError] when [d] is negative, and
    [OverflowError] when [d] is longer than the timer of the build can
    hold; every build accepts 2^32 - 1 milliseconds.  [d] is a float,
    computed with rounding from operands of which the model only has the
    exact values.  A stored number or a literal is what it is.  A draw
    [a + (b - a) * random()] from two bounds that are not negative is not
    negative however the three operations round, and stays so when it is
    multiplied by a factor that is not negative. *)
Fixpoint never_negative (d : delay) : bool :=
  match d with
  | Fixed q => negb (Qltb q 0)
  | Uniform a b _ => negb (Qltb a 0) && negb (Qltb b 0)
  | Scale d' k => never_negative d' && negb (Qltb k 0)
  end.

Definition SLEEP_MAX : Q := 4294967.     (* seconds: 2^32 - 1 milliseconds, rounded down *)

(** A number the float of a delay that is never negative cannot exceed,
    however the operations round: a draw stays below three times its
    larger bound, and a rounded product below twice the exact one. *)
Fixpoint at_most (d : delay) : Q :=
  match d with
  | Fixed q => q
  | Uniform a b _ => 3 * py_max a b
  | Scale d' k => 2 * (at_most d' * k)
  end%Q.

(** Whether [time.sleep(d)] raises: [Some false] when [d] can be neither
    negative nor too long, [Some true] for a stored number or a literal
    below zero, and [None] in the remaining cases, where what happens
    depends on the rounding or on the build: with the bounds [-1] and
    [2 ** -52] the exact value of a draw can be below zero while the
    float computed for it is [0.0]. *)
Definition sleep_raises (d : delay) : option bool :=
  if never_negative d && negb (Qltb SLEEP_MAX (at_most d)) then Some false
  else match d with
       | Fixed q => if Qltb q 0 then Some true else None
       | _ => None
       end.

(** The draw a delay starts from. *)
Fixpoint base_draw (d : delay) : delay :=
  match d with
  | Scale d' _ => base_draw d'
  | _ => d
  end.

(** The factors multiplied into a delay, first one first. *)
Fixpoint factors (d : delay) : list Q :=
  match d with
  | Scale d' k => factors d' ++ [k]
  | _ => []
  end.

(** ** The worker's effects *)

(** What the worker asks of the world. *)
Inductive Call : Type :=
| SendInput (c : Z)       (* self._send_input(c) *)
| TimeSleep (d : delay)   (* time.sleep(d) *)
| StopIsSet               (* self._stop_event.is_set() *)
| RawDraw.                (* one draw of the random module *)

Definition Reply (c : Call) : Type :=
  match c with
  | SendInput _ | TimeSleep _ => unit
  | StopIsSet => bool
  | RawDraw => Z
  end.

(** A program: returns, raises, or makes a call and goes on with the reply. *)
Inductive Prog (A : Type) : Type :=
| Ret (a : A)
| Raise (e : PyExn)
| Vis (c : Call) (k : Reply c -> Prog A).

Arguments Ret {A} a.
Arguments Raise {A} e.
Arguments Vis {A} c k.

Fixpoint bind {A B : Type} (m : Prog A) (f : A -> Prog B) : Prog B :=
  match m with
  | Ret a => f a
  | Raise e => Raise e
  | Vis c k => Vis c (fun r => bind (k r) f)
  end.

Declare Scope prog_scope.
Delimit Scope prog_scope with prog.
Notation "x <- m ;; k" := (bind m (fun x => k))
  (at level 61, m at next level, right associativity) : prog_scope.
Notation "m ;;; k" := (bind m (fun _ => k))
  (at level 61, right associativity) : prog_scope.
Open Scope prog_scope.

Definition send_input (c : Z) : Prog unit := Vis (SendInput c) (fun _ => Ret tt).
Definition sleep (d : delay) : Prog unit := Vis (TimeSleep d) (fun _ => Ret tt).
Definition stop_is_set : Prog bool := Vis StopIsSet (fun b => Ret b).
Definition raw_draw : Prog Z := Vis RawDraw (fun z => Ret z).

(** [for x in xs: body(x)] *)
Fixpoint for_each {X : Type} (xs : list X) (body : X -> Prog unit) : Prog unit :=
  match xs with
  | [] => Ret tt
  | x :: xs' => body x ;;; for_each xs' body
  end.

(** [[f(x) for x in xs]], built by appending as the code does. *)
Fixpoint collect {X Y : Type} (xs : list X) (f : X -> Prog Y) : Prog (list Y) :=
  match xs with
  | [] => Ret []
  | x :: xs' => y <- f x ;; ys <- collect xs' f ;; Ret (y :: ys)
  end.

(** ** The [random] module *)

Definition TWO53 : Z := 9007199254740992.

(** [random.random()]: a multiple of 2^-53 in [0, 1). *)
Definition unit_draw (raw : Z) : Q := Qmake (raw mod TWO53) 9007199254740992.

Definition random : Prog Q := raw <- raw_draw ;; Ret (unit_draw raw).

(** [random.uniform(a, b)] *)
Definition uniform (a b : Q) : Prog delay :=
  raw <- raw_draw ;; Ret (Uniform a b (unit_draw raw)).

(** [random.randint(a, b)]: [ValueError] on an empty range. *)
Definition randint (a b : Z) : Prog Z :=
  if b <? a then Raise ValueError
  else raw <- raw_draw ;; Ret (a + raw mod (b - a + 1)).

(** [random.choice(seq)]: [IndexError] on an empty sequence. *)
Definition choice (l : list Z) : Prog Z :=
  match l with
  | [] => Raise IndexError
  | x :: _ => raw <- raw_draw ;; Ret (nth (Z.to_nat (raw mod Z.of_nat (length l))) l x)
  end.

(** ** The input backends *)

(** [class KEYBDINPUT(ctypes.Structure)]; [dwExtraInfo] is always [None]. *)
Record KEYBDINPUT : Type := {
  wVk : Z;
  wScan : Z;
  dwFlags : Z;
  time : Z
}.

(** A ctypes integer field keeps the low bits of what is assigned to it. *)
Definition WORD (n : Z) : Z := n mod 2 ^ 16.
Definition DWORD (n : Z) : Z := n mod 2 ^ 32.

(** The display object [Xlib.display.Display()] returns, as far as the
    backend uses it.  [get_input_focus], [sync], [screen],
    [create_resource_object] and [keysym_to_keycode] are methods of
    python-xlib's [Display].  [keysym], [_key_press_event] and
    [_key_release_event] are looked up on the object when the backend
    runs; python-xlib's [Display] has none of the three, and the lookup of
    an attribute the object does not have raises [AttributeError]. *)
Record Display : Type := {
  keysym : option (Z -> Z);      (* self._display.keysym, when there is one *)
  keysym_to_keycode : Z -> Z;    (* self._display.keysym_to_keycode(keysym) *)
  _key_press_event : bool;       (* hasattr(self._display, "_key_press_event") *)
  _key_release_event : bool      (* hasattr(self._display, "_key_release_event") *)
}.

(** What reaches the operating system. *)
Inductive OsEvent : Type :=
| User32SendInput (input_type : Z) (ki : KEYBDINPUT)
| OsSleep (seconds : Q)
| XGetInputFocus
| XSync
| XKeyPress (detail : Z)
| XKeyRelease (detail : Z).

Definition KEYEVENTF_UNICODE : Z := 4.
Definition KEYEVENTF_KEYUP : Z := 2.
Definition VK_RETURN : Z := 13.       (* 0x0D *)
Definition XK_Return : Z := 65293.    (* 0xFF0D *)

Definition _windows_send_input (char : Z) : list OsEvent :=
  let input_keyboard_const := 1 in
  let ki :=
    if char =? NEWLINE
    then {| wVk := WORD VK_RETURN; wScan := WORD 0; dwFlags := DWORD 0; time := DWORD 0 |}
    else {| wVk := WORD 0; wScan := WORD char; dwFlags := DWORD KEYEVENTF_UNICODE;
            time := DWORD 0 |} in
  let ki_up :=
    {| wVk := wVk ki; wScan := wScan ki;
       dwFlags := DWORD (Z.lor (dwFlags ki) KEYEVENTF_KEYUP); time := time ki |} in
  [ User32SendInput input_keyboard_const ki;
    OsSleep (1 # 100);
    User32SendInput input_keyboard_const ki_up ].

(** What reached the operating system, and the exception the call ended
    with, if it did not return.  The callee of a call is evaluated before
    its arguments: [self._display._key_press_event] is looked up after the
    focus was queried and the display synchronised, and before
    [keysym_to_keycode] is called. *)
Definition _x11_send_input (display : Display) (char : Z)
  : list OsEvent * option PyExn :=
  let keysym :=
    if char =? NEWLINE then Some XK_Return
    else
      match keysym display with
      | Some lookup =>
          let keysym := lookup char in
          Some (if keysym =? 0 then char else keysym)
      | None => None
      end in
  match keysym with
  | None => ([], Some AttributeError)
  | Some keysym =>
      if negb (_key_press_event display) then
        ([XGetInputFocus; XSync], Some AttributeError)
      else if negb (_key_release_event display) then
        ([ XGetInputFocus;
           XSync;
           XKeyPress (keysym_to_keycode display keysym);
           OsSleep (1 # 100) ], Some AttributeError)
      else
        ([ XGetInputFocus;
           XSync;
           XKeyPress (keysym_to_keycode display keysym);
           OsSleep (1 # 100);
           XKeyRelease (keysym_to_keycode display keysym);
           XSync ], None)
  end.

(** The method bound to [self._send_input] by [__init__]. *)
Inductive Backend : Type :=
| WindowsBackend
| X11Backend (display : Display).

(** [self._send_input(char)]: what reaches the operating system, and the
    exception the call raises, if any. *)
Definition backend_send (b : Backend) (char : Z) : list OsEvent * option PyExn :=
  match b with
  | WindowsBackend => (_windows_send_input char, None)
  | X11Backend display => _x11_send_input display char
  end.

(** ** The typer's fields *)

Record CharacterTyper : Type := {
  _typing_delay : Q * Q;
  _error_rate : Q;
  _mode : TypingMode;
  _send_input : Backend
}.

(** [__init__]: the defaults, and the backend for the host ([Xlib] is
    [None] when its import failed). *)
Definition __init__ (platform_system_is_windows : bool) (Xlib : option Display)
  : PyExn + CharacterTyper :=
  let make b :=
    {| _typing_delay := (5 # 100, 2 # 10);
       _error_rate := 5 # 1000;
       _mode := HUMAN_LIKE;
       _send_input := b |} in
  if platform_system_is_windows then inr (make WindowsBackend)
  else match Xlib with
       | Some display => inr (make (X11Backend display))
       | None => inl RuntimeError
       end.

Definition set_typing_speed (self : CharacterTyper) (min_delay max_delay : Q)
  : CharacterTyper :=
  {| _typing_delay := (min_delay, max_delay);
     _error_rate := _error_rate self;
     _mode := _mode self;
     _send_input := _send_input self |}.

Definition set_error_rate (self : CharacterTyper) (error_rate : Q) : CharacterTyper :=
  {| _typing_delay := _typing_delay self;
     _error_rate := py_max 0 (py_min 1 error_rate);
     _mode := _mode self;
     _send_input := _send_input self |}.

Definition set_typing_mode (self : CharacterTyper) (mode : TypingMode) : CharacterTyper :=
  {| _typing_delay := _typing_delay self;
     _error_rate := _error_rate self;
     _mode := mode;
     _send_input := _send_input self |}.


Definition TypingMode_eqb (a b : TypingMode) : bool :=
  match a, b with
  | INSTANT, INSTANT | HUMAN_LIKE, HUMAN_LIKE | MACHINE_GUN, MACHINE_GUN => true
  | _, _ => false
  end.

(** ** The worker *)

(** [text[k]] for a non-negative index. *)
Definition getitem (text : str) (k : nat) : Prog Z :=
  match nth_error text k with
  | Some c => Ret c
  | None => Raise IndexError
  end.

Definition of_sum {A : Type} (r : PyExn + A) : Prog A :=
  match r with
  | inl e => Raise e
  | inr a => Ret a
  end.

(** [range(n)] *)
Definition range (n : Z) : list nat := seq 0 (Z.to_nat n).

Definition TYPO_OFFSETS : list Z := [-2; -1; 1; 2].

Section Worker.

(** [str.isalpha] of a one character string, from the interpreter's
    Unicode tables. *)
Variable isalpha : Z -> bool.
Variable self : CharacterTyper.

(** [self._send_input(char)] in the worker: the character is handed to
    the backend, and the call raises what the backend raises. *)
Definition call_send_input (char : Z) : Prog unit :=
  send_input char ;;;
  match snd (backend_send (_send_input self) char) with
  | Some e => Raise e
  | None => Ret tt
  end.

(** One entry of [typo_chars]. *)
Definition typo_char_at (text : str) (i j : nat) : Prog Z :=
  is_letter <- (if (i + j <? length text)%nat
                then c <- getitem text (i + j) ;; Ret (isalpha c)
                else Ret false) ;;
  if is_letter : bool then
    c <- getitem text (i + j) ;;
    offset <- choice TYPO_OFFSETS ;;
    of_sum (chr (c + offset))
  else
    getitem text (i + j).

Definition _simulate_typo (text : str) (i : nat) : Prog Z :=
  typo_length <- randint 1 (Z.min 3 (Z.of_nat (length text) - Z.of_nat i)) ;;
  typo_chars <- collect (range typo_length) (typo_char_at text i) ;;
  for_each typo_chars (fun typo_char =>
    call_send_input typo_char ;;;
    d <- uniform (fst (_typing_delay self)) (snd (_typing_delay self)) ;;
    sleep d) ;;;
  (d <- uniform (1 # 10) (3 # 10) ;; sleep d) ;;;
  for_each typo_chars (fun _ =>
    call_send_input BACKSPACE ;;;
    d <- uniform (5 # 100) (15 # 100) ;;
    sleep d) ;;;
  for_each (range typo_length) (fun j =>
    if (i + j <? length text)%nat then
      c <- getitem text (i + j) ;;
      call_send_input c ;;;
      d <- uniform (fst (_typing_delay self)) (snd (_typing_delay self)) ;;
      sleep d
    else Ret tt) ;;;
  Ret typo_length.

(** The pause after a character that was sent directly. *)
Definition pause_after (char : Z) (last_char : option Z) : Prog unit :=
  (if TypingMode_eqb (_mode self) INSTANT then Ret tt else Ret tt) ;;;
  (if TypingMode_eqb (_mode self) HUMAN_LIKE then
     d <- uniform (fst (_typing_delay self)) (snd (_typing_delay self)) ;;
     let d := if char_in char (codes ",;:") then Scale d (15 # 10)
              else if char_in char (codes ".!?") then Scale d 2
              else d in
     let d := if eq_last char last_char then Scale d (8 # 10) else d in
     sleep d
   else Ret tt) ;;;
  (if TypingMode_eqb (_mode self) MACHINE_GUN then
     sleep (Fixed (fst (_typing_delay self)))
   else Ret tt).

(** The [while i < len(text)] loop; [fuel] bounds the number of
    iterations, and [len(text) - i] of it is always enough (see
    [typing_loop_fuel]). *)
Fixpoint typing_loop (fuel : nat) (text : str) (last_char : option Z) (i : nat)
  : Prog unit :=
  match fuel with
  | O => Ret tt
  | S fuel' =>
    if (i <? length text)%nat then
      char <- getitem text i ;;
      stopped <- stop_is_set ;;
      if stopped : bool then Ret tt
      else
        r <- random ;;
        if Qltb r (_error_rate self) && isalpha char then
          n <- _simulate_typo text i ;;
          typing_loop fuel' text last_char (i + Z.to_nat n)
        else
          call_send_input char ;;;
          pause_after char last_char ;;;
          typing_loop fuel' text (Some char) (i + 1)
    else Ret tt
  end.

Definition _simulate_typing (text : str) : Prog unit :=
  typing_loop (length text) text None 0.

End Worker.

(** ** Running a program *)

(** What the worker leaves behind: the polls of the stop event (with what
    they read), the characters handed to the backend, the sleeps that
    were slept. *)
Inductive event : Type :=
| Poll (b : bool)
| Send (c : Z)
| Sleep (d : delay).

(** How a run ends.  [Unsettled]: the run came to a [time.sleep] of which
    the model does not say whether it raises ([sleep_raises] is [None]);
    nothing is said about what follows. *)
Inductive outcome (A : Type) : Type :=
| Returned (a : A)
| Raised (e : PyExn)
| Unsettled.

Arguments Returned {A} a.
Arguments Raised {A} e.
Arguments Unsettled {A}.

Record Run (A : Type) : Type := {
  result : outcome A;     (* how the program ended *)
  drawn : nat;            (* raw draws consumed *)
  emitted : list event    (* events, oldest first *)
}.

Section Run.

(** The raw draws, in the order they are consumed. *)
Variable tape : nat -> Z.

(** [stop n]: the stop event is set when the worker has logged [n] events. *)
Variable stop : nat -> bool.

Definition after {A : Type} (e : list event) (draws : nat) (r : Run A) : Run A :=
  {| result := result r; drawn := draws + drawn r; emitted := e ++ emitted r |}.

(** [run m pos now]: run [m] from draw [pos] of the tape, [now] events
    having been logged before. *)
Fixpoint run {A : Type} (m : Prog A) (pos now : nat) : Run A :=
  match m with
  | Ret a => {| result := Returned a; drawn := 0; emitted := [] |}
  | Raise e => {| result := Raised e; drawn := 0; emitted := [] |}
  | Vis c k =>
    match c return (Reply c -> Prog A) -> Run A with
    | SendInput ch => fun k => after [Send ch] 0 (run (k tt) pos (S now))
    | TimeSleep d => fun k =>
        match sleep_raises d with
        | Some false => after [Sleep d] 0 (run (k tt) pos (S now))
        | Some true => {| result := Raised ValueError; drawn := 0; emitted := [] |}
        | None => {| result := Unsettled; drawn := 0; emitted := [] |}
        end
    | StopIsSet => fun k =>
        let b := stop now in after [Poll b] 0 (run (k b) pos (S now))
    | RawDraw => fun k => after [] 1 (run (k (tape pos)) (S pos) now)
    end k
  end.

End Run.

(** The characters handed to the backend, in order. *)
Fixpoint sends (t : list event) : list Z :=
  match t with
  | [] => []
  | Send c :: t' => c :: sends t'
  | _ :: t' => sends t'
  end.

(** The sleeps, in order. *)
Fixpoint sleeps (t : list event) : list delay :=
  match t with
  | [] => []
  | Sleep d :: t' => d :: sleeps t'
  | _ :: t' => sleeps t'
  end.

(** ** The engine: one typer, its stop event, its threads, one caller *)

(** A thread is what remains of its program; it is alive until the
    program has returned or raised. *)
Definition is_alive (t : Prog unit) : bool :=
  match t with
  | Vis _ _ => true
  | _ => false
  end.

(** Where the caller of the control operations is.  [type_text],
    [stop_typing] and [wait_until_done] can block in [join]; the caller
    makes no other call until the one in progress has returned. *)
Inductive Caller : Type :=
| Idle
| InTypeText (text : str)
| InStopTyping
| InWaitUntilDone.

Record Engine : Type := {
  typer : CharacterTyper;
  _stop_event : bool;
  _typing_thread : option nat;         (* index into [threads] *)
  threads : list (Prog unit);          (* every thread started, oldest first *)
  caller : Caller;
  rng : nat;                           (* draws consumed so far *)
  log : list (nat * event)             (* who did what, oldest first *)
}.

Definition engine_of (self : CharacterTyper) : Engine :=
  {| typer := self; _stop_event := false; _typing_thread := None;
     threads := []; caller := Idle; rng := 0; log := [] |}.

(** [self._typing_thread and self._typing_thread.is_alive()] *)
Definition typing_thread_alive (e : Engine) : bool :=
  match _typing_thread e with
  | Some tid =>
      match nth_error (threads e) tid with
      | Some t => is_alive t
      | None => false
      end
  | None => false
  end.

Fixpoint set_nth {X : Type} (n : nat) (x : X) (l : list X) : list X :=
  match l, n with
  | [], _ => []
  | _ :: l', O => x :: l'
  | y :: l', S n' => y :: set_nth n' x l'
  end.

Inductive Action : Type :=
| CallTypeText (text : str)     (* type_text(text) is entered *)
| ReturnTypeText                (* ... its join is over: clear, start, return *)
| CallStopTyping                (* stop_typing() is entered: the event is set *)
| ReturnStopTyping              (* ... its join is over *)
| CallWaitUntilDone
| ReturnWaitUntilDone
| WorkerStep (tid : nat)        (* thread [tid] makes its next call *)
| SleepRaises (tid : nat) (exn : PyExn).
                                (* ... a [time.sleep] that is not settled, and it raises *)

Section Engine.

Variable isalpha : Z -> bool.
Variable tape : nat -> Z.

Definition with_caller (c : Caller) (e : Engine) : Engine :=
  {| typer := typer e; _stop_event := _stop_event e;
     _typing_thread := _typing_thread e; threads := threads e;
     caller := c; rng := rng e; log := log e |}.

(** The second half of [type_text]: clear the event, start the thread. *)
Definition start_typing (text : str) (e : Engine) : Engine :=
  {| typer := typer e;
     _stop_event := false;
     _typing_thread := Some (length (threads e));
     threads := threads e ++ [_simulate_typing isalpha (typer e) text];
     caller := Idle;
     rng := rng e;
     log := log e |}.

(** Thread [tid] goes on as [t], having drawn [draws] numbers and logged
    [evs]. *)
Definition continue (tid : nat) (e : Engine) (t : Prog unit) (draws : nat)
           (evs : list event) : Engine :=
  {| typer := typer e; _stop_event := _stop_event e;
     _typing_thread := _typing_thread e;
     threads := set_nth tid t (threads e);
     caller := caller e;
     rng := rng e + draws;
     log := log e ++ map (pair tid) evs |}.

(** The next call of thread [tid], answered by the world.  A
    [time.sleep] that raises ends the thread; one that is not settled
    returns here, and raises in [sleep_raises_step]. *)
Definition worker_step (tid : nat) (e : Engine) : option Engine :=
  match nth_error (threads e) tid with
  | Some (Vis c k) =>
      Some
        (match c return (Reply c -> Prog unit) -> Engine with
         | SendInput ch => fun k => continue tid e (k tt) 0%nat [Send ch]
         | TimeSleep d => fun k =>
             match sleep_raises d with
             | Some true => continue tid e (Raise ValueError) 0%nat []
             | _ => continue tid e (k tt) 0%nat [Sleep d]
             end
         | StopIsSet => fun k =>
             continue tid e (k (_stop_event e)) 0%nat [Poll (_stop_event e)]
         | RawDraw => fun k => continue tid e (k (tape (rng e))) 1%nat []
         end k)
  | _ => None
  end.

(** The next call of thread [tid] is a [time.sleep] that is not settled,
    and it raises [ValueError] or [OverflowError]. *)
Definition sleep_raises_step (tid : nat) (exn : PyExn) (e : Engine) : option Engine :=
  match nth_error (threads e) tid with
  | Some (Vis (TimeSleep d) _) =>
      match sleep_raises d, exn with
      | None, (ValueError | OverflowError) =>
          Some (continue tid e (Raise exn) 0%nat [])
      | _, _ => None
      end
  | _ => None
  end.

(** [perform a e]: the engine after [a], or [None] when [a] cannot
    happen in [e] (the caller is elsewhere, a join still blocks, the
    thread is not alive). *)
Definition perform (a : Action) (e : Engine) : option Engine :=
  match a, caller e with
  | CallTypeText text, Idle => Some (with_caller (InTypeText text) e)
  | ReturnTypeText, InTypeText text =>
      if typing_thread_alive e then None else Some (start_typing text e)
  | CallStopTyping, Idle =>
      Some {| typer := typer e; _stop_event := true;
              _typing_thread := _typing_thread e; threads := threads e;
              caller := InStopTyping; rng := rng e; log := log e |}
  | ReturnStopTyping, InStopTyping =>
      if typing_thread_alive e then None else Some (with_caller Idle e)
  | CallWaitUntilDone, Idle => Some (with_caller InWaitUntilDone e)
  | ReturnWaitUntilDone, InWaitUntilDone =>
      if typing_thread_alive e then None else Some (with_caller Idle e)
  | WorkerStep tid, _ => worker_step tid e
  | SleepRaises tid exn, _ => sleep_raises_step tid exn e
  | _, _ => None
  end.

Fixpoint perform_all (acts : list Action) (e : Engine) : option Engine :=
  match acts with
  | [] => Some e
  | a :: acts' =>
      match perform a e with
      | Some e' => perform_all acts' e'
      | None => None
      end
  end.

(** The engines that some schedule of the caller and the threads leads
    to, from a freshly made typer. *)
Definition reachable (self : CharacterTyper) (e : Engine) : Prop :=
  exists acts, perform_all acts (engine_of self) = Some e.

End Engine.

(** The threads of [e] that are alive. *)
Definition alive_threads (e : Engine) : list (Prog unit) :=
  filter is_alive (threads e).

(** The thread ids of the log, oldest entry first. *)
Definition log_owners (e : Engine) : list nat := map fst (log e).

(** The injections of thread [tid], in order. *)
Definition injections_of (tid : nat) (e : Engine) : list Z :=
  sends (map snd (filter (fun entry => Nat.eqb (fst entry) tid) (log e))).

Unset Implicit Arguments.

(** * The vocabulary of the properties *)

(** ** Runs *)

Section Returns.

Variable tape : nat -> Z.
Variable stop : nat -> bool.

(** [m] returns [a] after [k] draws, having emitted [evs]. *)
Definition returns {A : Type} (m : Prog A) (pos now : nat)
           (a : A) (k : nat) (evs : list event) : Prop :=
  run tape stop m pos now = {| result := Returned a; drawn := k; emitted := evs |}.

End Returns.

(** The typing delay is in range: a pair of numbers between 0 and
    100000 (seconds).  Then no sleep of the worker raises: none is
    negative, and the longest, with the factors of the HUMAN_LIKE mode
    and the rounding, stays below [SLEEP_MAX]. *)
Definition DELAY_MAX : Q := 100000.

Definition delays_in_range (self : CharacterTyper) : Prop :=
  ((0 <= fst (_typing_delay self))%Q /\ (fst (_typing_delay self) <= DELAY_MAX)%Q)
  /\ ((0 <= snd (_typing_delay self))%Q /\ (snd (_typing_delay self) <= DELAY_MAX)%Q).

(** The backend returns for every character: the Windows backend, or an
    X11 backend whose display has the attributes it looks up. *)
Definition backend_returns (self : CharacterTyper) : Prop :=
  forall char, snd (backend_send (_send_input self) char) = None.

(** [random.choice] on the literal list of the typo offsets. *)
Definition pick_offset (raw : Z) : Z :=
  nth (Z.to_nat (raw mod 4)) TYPO_OFFSETS (-2).

(** ** The typo detour *)

(** The [n] source characters from the cursor [i] on. *)
Definition window (text : str) (i n : nat) : str := firstn n (skipn i text).

(** Characters sent one after the other, each followed by its sleep. *)
Fixpoint keystrokes (cs : list Z) (ds : list delay) : list event :=
  match cs, ds with
  | c :: cs', d :: ds' => Send c :: Sleep d :: keystrokes cs' ds'
  | _, _ => []
  end.

(** The letters of [text] are code points whose neighbours at distance
    two are code points too.  This holds of every text when [isalpha] is
    [str.isalpha]: the first letter is ["A"], and the last two code
    points are not letters. *)
Definition letters_in_range (isalpha : Z -> bool) (text : str) : Prop :=
  forall c, In c text -> isalpha c = true -> 65 <= c <= 1114109.

Section DetourEvents.

Variable isalpha : Z -> bool.
Variable self : CharacterTyper.
Variable tape : nat -> Z.

Let lo : Q := fst (_typing_delay self).
Let hi : Q := snd (_typing_delay self).

(** [k] successive draws of [random.uniform(a, b)], from draw [pos] on. *)
Definition uniforms (a b : Q) (pos k : nat) : list delay :=
  map (fun p => Uniform a b (unit_draw (tape p))) (seq pos k).

(** The typo characters for a window, the offsets drawn from [pos] on:
    only letters consume a draw. *)
Fixpoint garble (w : str) (pos : nat) : str :=
  match w with
  | [] => []
  | c :: w' =>
      if isalpha c then (c + pick_offset (tape pos)) :: garble w' (S pos)
      else c :: garble w' pos
  end.

Fixpoint letters (w : str) : nat :=
  match w with
  | [] => O
  | c :: w' => if isalpha c then S (letters w') else letters w'
  end.

(** The length drawn for the window at cursor [i]. *)
Definition typo_length_at (text : str) (i pos : nat) : Z :=
  1 + tape pos mod Z.min 3 (Z.of_nat (length text) - Z.of_nat i).

(** Everything the detour emits, for the draws on the tape. *)
Definition detour_events (text : str) (i pos : nat) : list event :=
  let n := Z.to_nat (typo_length_at text i pos) in
  let w := window text i n in
  let p := (pos + 1 + letters w)%nat in
  keystrokes (garble w (S pos)) (uniforms lo hi p n)
  ++ [Sleep (Uniform (1 # 10) (3 # 10) (unit_draw (tape (p + n))))]
  ++ keystrokes (repeat BACKSPACE n) (uniforms (5 # 100) (15 # 100) (p + n + 1) n)
  ++ keystrokes w (uniforms lo hi (p + n + 1 + n) n).

Definition detour_draws (text : str) (i pos : nat) : nat :=
  let n := Z.to_nat (typo_length_at text i pos) in
  (1 + letters (window text i n) + n + 1 + n + n)%nat.

End DetourEvents.

(** The text of the focused application after it received the characters
    [keys]: the backspace character removes the last character, if there
    is one, and any other character is appended.  This is the reading of
    ["\x08"] the detour itself relies on to take its typos back.  The
    characters an application receives are those the backend's key events
    carry ([received], below), not the code points handed to the
    backend. *)
Fixpoint type_into (buffer : str) (keys : str) : str :=
  match keys with
  | [] => buffer
  | k :: keys' =>
      if k =? BACKSPACE then type_into (removelast buffer) keys'
      else type_into (buffer ++ [k]) keys'
  end.

(** A slip of the finger: a letter moves by one of the offsets, anything
    else stays. *)
Definition slip (isalpha : Z -> bool) (c t : Z) : Prop :=
  if isalpha c then In (t - c) TYPO_OFFSETS else t = c.

(** ** The iterations of the typing loop *)

Section Pauses.

Variable isalpha : Z -> bool.
Variable self : CharacterTyper.
Variable tape : nat -> Z.

Let lo : Q := fst (_typing_delay self).
Let hi : Q := snd (_typing_delay self).

(** The HUMAN_LIKE delay after [char], from the draw [u]. *)
Definition human_delay (char : Z) (last_char : option Z) (u : Q) : delay :=
  let d := Uniform lo hi u in
  let d := if char_in char (codes ",;:") then Scale d (15 # 10)
           else if char_in char (codes ".!?") then Scale d 2
           else d in
  if eq_last char last_char then Scale d (8 # 10) else d.

(** What follows a directly sent character, by mode. *)
Definition pause_events (char : Z) (last_char : option Z) (pos : nat) : list event :=
  match _mode self with
  | INSTANT => []
  | HUMAN_LIKE => [Sleep (human_delay char last_char (unit_draw (tape pos)))]
  | MACHINE_GUN => [Sleep (Fixed lo)]
  end.

Definition pause_draws : nat :=
  match _mode self with
  | HUMAN_LIKE => 1
  | _ => 0
  end.

(** The test that sends the loop into the detour. *)
Definition takes_detour (char : Z) (pos : nat) : bool :=
  Qltb (unit_draw (tape pos)) (_error_rate self) && isalpha char.

End Pauses.

(** What one pass through the body of the loop did, with the cursor it
    started from. *)
Inductive iteration : Type :=
| Direct (i : nat) (char : Z) (last_char : option Z) (pause : list event)
| Detour (i : nat) (typo_length : nat) (evs : list event)
| Halt (i : nat).

Definition iteration_events (it : iteration) : list event :=
  match it with
  | Direct _ char _ pause => Poll false :: Send char :: pause
  | Detour _ _ evs => Poll false :: evs
  | Halt _ => [Poll true]
  end.

Definition itinerary_events (its : list iteration) : list event :=
  flat_map iteration_events its.

Definition is_detour (it : iteration) : bool :=
  match it with
  | Detour _ _ _ => true
  | _ => false
  end.

Section StepsRelation.

Variable isalpha : Z -> bool.
Variable self : CharacterTyper.
Variable tape : nat -> Z.
Variable stop : nat -> bool.

(** [loop_steps text last_char i pos now its k]: from cursor [i], with
    [last_char], draw [pos] and [now] events logged, the loop makes the
    iterations [its], consumes [k] draws and ends. *)
Inductive loop_steps (text : str)
  : option Z -> nat -> nat -> nat -> list iteration -> nat -> Prop :=
| steps_exit last_char i pos now :
    (length text <= i)%nat ->
    loop_steps text last_char i pos now [] 0
| steps_halt last_char i pos now :
    (i < length text)%nat ->
    stop now = true ->
    loop_steps text last_char i pos now [Halt i] 0
| steps_direct last_char i pos now its k :
    let char := nth i text 0 in
    let pause := pause_events self tape char last_char (S pos) in
    (i < length text)%nat ->
    stop now = false ->
    takes_detour isalpha self tape char pos = false ->
    loop_steps text (Some char) (i + 1)
               (pos + (1 + pause_draws self)) (now + (2 + length pause)) its k ->
    loop_steps text last_char i pos now
               (Direct i char last_char pause :: its) (1 + pause_draws self + k)
| steps_detour last_char i pos now its k :
    let n := Z.to_nat (typo_length_at tape text i (S pos)) in
    let evs := detour_events isalpha self tape text i (S pos) in
    let draws := detour_draws isalpha tape text i (S pos) in
    (i < length text)%nat ->
    stop now = false ->
    takes_detour isalpha self tape (nth i text 0) pos = true ->
    loop_steps text last_char (i + n) (pos + (1 + draws)) (now + (1 + length evs)) its k ->
    loop_steps text last_char i pos now (Detour i n evs :: its) (1 + draws + k).

End StepsRelation.


(** Every iteration polls the stop event once, before anything else; a
    detour then makes its three injections per character of the window
    without another poll. *)
Definition polls_once (it : iteration) : Prop :=
  match it with
  | Direct _ _ _ pause => (forall b, ~ In (Poll b) pause) /\ sends pause = []
  | Detour _ n evs =>
      (forall b, ~ In (Poll b) evs)
      /\ length (sends evs) = (3 * n)%nat
      /\ (1 <= n <= 3)%nat
  | Halt _ => True
  end.

(** The pause of a directly sent character is [p]. *)
Definition pauses_with (p : list event) (it : iteration) : Prop :=
  match it with
  | Direct _ _ _ pause => pause = p
  | _ => True
  end.

(** The stop event was polled since the last injection, before each
    injection ([checked]: it was polled since the last one before the
    trace). *)
Fixpoint checked_before_each_send (checked : bool) (evs : list event) : bool :=
  match evs with
  | [] => true
  | Poll _ :: evs' => checked_before_each_send true evs'
  | Send _ :: evs' => checked && checked_before_each_send false evs'
  | Sleep _ :: evs' => checked_before_each_send checked evs'
  end.

(** ** The engine *)

(** A list of thread ids in which no id comes before a smaller one. *)
Definition in_call_order (owners : list nat) : Prop :=
  forall p q a b,
    (p < q)%nat -> nth_error owners p = Some a -> nth_error owners q = Some b ->
    (a <= b)%nat.

(** What every reachable engine satisfies: a thread that is alive is the
    one [_typing_thread] names, and it is the last one started; the log
    names started threads only, in the order they were started. *)
Record well_formed (e : Engine) : Prop := {
  wf_alive : forall tid t,
    nth_error (threads e) tid = Some t -> is_alive t = true ->
    _typing_thread e = Some tid /\ S tid = length (threads e);
  wf_owners : forall tid, In tid (log_owners e) -> (tid < length (threads e))%nat;
  wf_order : in_call_order (log_owners e)
}.

(** ** Key events *)

(** The key events of a backend run: presses and releases. *)
Definition is_key_down (e : OsEvent) : bool :=
  match e with
  | User32SendInput _ ki => negb (Z.testbit (dwFlags ki) 1)
  | XKeyPress _ => true
  | _ => false
  end.

Definition is_key_up (e : OsEvent) : bool :=
  match e with
  | User32SendInput _ ki => Z.testbit (dwFlags ki) 1
  | XKeyRelease _ => true
  | _ => false
  end.

(** The character a key event carries to the focused application.  A
    press of the Windows backend carries Enter for the virtual key 0x0D
    and, for a unicode event, the 16-bit unit in its scan field; a release
    carries nothing.  What an X11 key code stands for is decided by the
    keyboard mapping of the server, which is not modelled. *)
Definition key_char (e : OsEvent) : list Z :=
  match e with
  | User32SendInput _ ki =>
      if Z.testbit (dwFlags ki) 1 then []
      else if wVk ki =? VK_RETURN then [NEWLINE]
      else [wScan ki]
  | _ => []
  end.

(** What the focused application receives when the characters [chars] are
    handed to the backend of [self], one after the other. *)
Definition received (self : CharacterTyper) (chars : str) : str :=
  flat_map key_char
           (flat_map (fun char => fst (backend_send (_send_input self) char)) chars).

(** Every character of [text] fits the 16-bit scan field, and so do the
    neighbours at distance two of its letters.  This holds of every text
    of the Basic Multilingual Plane when [isalpha] is [str.isalpha], whose
    last letter there is U+FFDC. *)
Definition fits_scan_code (isalpha : Z -> bool) (text : str) : Prop :=
  forall c, In c text -> 0 <= c < 65536 /\ (isalpha c = true -> c + 2 < 65536).

(** ** Concrete inputs for the examples *)

(** [str.isalpha] on ASCII. *)
Definition ascii_isalpha (c : Z) : bool :=
  ((65 <=? c) && (c <=? 90)) || ((97 <=? c) && (c <=? 122)).

(** A tape that starts with the given draws and goes on with zeros. *)
Definition tape_of (draws : list Z) : nat -> Z := fun n => nth n draws 0.

(** The stop event is never set. *)
Definition never_set : nat -> bool := fun _ => false.

(** The stop event is set once [t] events have been logged. *)
Definition set_from (t : nat) : nat -> bool := fun now => (t <=? now)%nat.

(** A raw draw for which [random.random()] is 0.5. *)
Definition HALF : Z := 4503599627370496.

(** The typer [__init__] makes on Windows. *)
Definition fresh_typer : CharacterTyper :=
  {| _typing_delay := (5 # 100, 2 # 10); _error_rate := 5 # 1000;
     _mode := HUMAN_LIKE; _send_input := WindowsBackend |}.

(** A display with the attributes of python-xlib's [Display] (its
    [keysym_to_keycode] is never reached), and the typer [__init__] makes
    with it on a host that is not Windows. *)
Definition xlib_display : Display :=
  {| keysym := None; keysym_to_keycode := fun keysym => keysym;
     _key_press_event := false; _key_release_event := false |}.

Definition x11_typer : CharacterTyper :=
  {| _typing_delay := (5 # 100, 2 # 10); _error_rate := 5 # 1000;
     _mode := HUMAN_LIKE; _send_input := X11Backend xlib_display |}.

Definition instant_typer : CharacterTyper :=
  set_typing_mode (set_error_rate fresh_typer 1) INSTANT.

Definition half_typer : CharacterTyper := set_error_rate fresh_typer (1 # 2).

(** Draws for a three letter text: the first letter is sent directly
    ([random()] is 0.5), the second goes through a detour of one
    character with offset +1, the third is sent directly. *)
Definition detour_in_the_middle : nat -> Z :=
  tape_of [HALF; 0; 0; 0; 2; 0; 0; 0; 0; HALF; 0].

(** The detour over ["b\x08"] of the text ["ab\x08"], cursor 1, with a
    window of two characters and the offset +1. *)
Definition backspace_window_run : Run Z :=
  run (tape_of [1; 2]) never_set
      (_simulate_typo ascii_isalpha fresh_typer [97; 98; 8] 1) 0 0.

(** ["a"] typed through a detour, the stop event being set once two
    events are logged: the poll and the typo. *)
Definition stopped_in_detour_run : Run unit :=
  run (tape_of []) (set_from 2)
      (_simulate_typing ascii_isalpha (set_error_rate fresh_typer 1) [97]) 0 0.

(** [type_text("hi")], then [type_text("y")] while the first thread has
    sent one letter only: the second call waits for the first thread to
    finish, and then starts its own. *)
Definition back_to_back : list Action :=
  [ CallTypeText [104; 105]; ReturnTypeText;
    WorkerStep 0; WorkerStep 0; WorkerStep 0;
    CallTypeText [121];
    WorkerStep 0; WorkerStep 0; WorkerStep 0; WorkerStep 0;
    WorkerStep 0; WorkerStep 0; WorkerStep 0;
    ReturnTypeText;
    WorkerStep 1; WorkerStep 1; WorkerStep 1 ].

(** ** Runs without detours *)

(** The events of a run that sends every character of [chars] directly and
    is never stopped, the draws taken from [pos] on. *)
Fixpoint direct_events (self : CharacterTyper) (tape : nat -> Z)
         (chars : str) (last_char : option Z) (pos : nat) : list event :=
  match chars with
  | [] => []
  | c :: rest =>
      Poll false :: Send c :: pause_events self tape c last_char (S pos)
      ++ direct_events self tape rest (Some c) (pos + (1 + pause_draws self))
  end.

(** ** Key presses and releases *)

(** The key events of what reaches the operating system: [true] for a
    press, [false] for a release. *)
Definition key_moves (evs : list OsEvent) : list bool :=
  map is_key_down (filter (fun e => is_key_down e || is_key_up e) evs).

(** The key an event presses or releases: virtual key and scan code on
    Windows, key code on X11. *)
Definition key_of (e : OsEvent) : option (Z * Z) :=
  match e with
  | User32SendInput _ ki => Some (wVk ki, wScan ki)
  | XKeyPress detail | XKeyRelease detail => Some (detail, 0)
  | _ => None
  end.

(** A thread that has ended the way a run ended. *)
Definition ended (r : outcome unit) : option (Prog unit) :=
  match r with
  | Returned a => Some (Ret a)
  | Raised e => Some (Raise e)
  | Unsettled => None
  end.

(** * AutoTyper: the hotkey front end of [main.py]

    [main.py] binds six hotkeys to the methods of one [AutoTyper], which
    picks lines from word lists and hands them to its [CharacterTyper].
    The module below embeds the object, its constructor, the four cyclers
    and [write_pack] with its five content modes.

    Conventions.
    - A handler runs to its end before the next one starts.
    - What the front end does to the outside world is recorded as a trace;
      the outside world answers through a [World]: the content of the
      files, the draws of the [random] module, the order in which a [set]
      is iterated, and the interpreter's Unicode tables.  The answers may
      change with time, which is counted in recorded events.
    - A file either does not exist or can be read as UTF-8 text.
    - [self._used_lines] is only ever tested for membership, added to and
      discarded from, so it is modelled by its membership test.
    - Of [main] only the key bindings are used, and of
      [toggle_terminal_visibility] only that it assigns no attribute but
      [_terminal_visible]: what else they do is decided by [win32gui] and
      by the [keyboard] package. *)

Module Main.

(** The exceptions of the front end: those of the typer's module, and the
    one that [%] raises. *)
Inductive Exn : Type :=
| Py (e : PyExn)
| ZeroDivisionError.

(** How a call ends: with a value, with an exception, or not at all. *)
Inductive Result (A : Type) : Type :=
| Done (a : A)
| Thrown (e : Exn)
| Hangs.

Arguments Done {A} a.
Arguments Thrown {A} e.
Arguments Hangs {A}.

(** What the front end does to the outside world. *)
Inductive UiEvent : Type :=
| Print (line : str)                 (* print(line) *)
| OpenFile (path : str)              (* open(path, "r", encoding="utf-8") *)
| KeyboardPress (key : str)          (* keyboard.press(key) *)
| KeyboardRelease (key : str)        (* keyboard.release(key) *)
| Sleep (seconds : Q)                (* time.sleep(seconds) *)
| TypeText (text : str)              (* self._typer.type_text(text) *)
| WaitUntilDone                      (* self._typer.wait_until_done() *)
| PressEnter                         (* self._typer.press_enter() *)
| SetConsoleTitleW (title : str).    (* ctypes.windll.kernel32.SetConsoleTitleW(title) *)

(** The answers of the outside world. *)
Record World : Type := {
  isspace : Z -> bool;               (* str.isspace of one character *)
  upper : str -> str;                (* str.upper *)
  lower : str -> str;                (* str.lower *)
  host_is_windows : bool;            (* platform.system() == "Windows" *)
  host_Xlib : option Display;        (* the Xlib module, when it could be imported *)
  tape : nat -> Z;                   (* the raw draws, in the order they are consumed *)
  files : nat -> str -> option (list str);
                                     (* the lines of a file as iteration yields them,
                                        [None] when the file does not exist *)
  set_order : nat -> list str -> list str
                                     (* the order in which a set with these elements
                                        is iterated *)
}.

(** ** Strings *)

Fixpoint str_eqb (a b : str) : bool :=
  match a, b with
  | [], [] => true
  | x :: a', y :: b' => (x =? y) && str_eqb a' b'
  | _, _ => false
  end.

(** The truth value of a [str]. *)
Definition nonempty (s : str) : bool :=
  match s with
  | [] => false
  | _ :: _ => true
  end.

(** The truth value of an [Optional[str]]. *)
Definition truthy (line : option str) : bool :=
  match line with
  | Some s => nonempty s
  | None => false
  end.

(** [sep.join(parts)] *)
Fixpoint join (sep : str) (parts : list str) : str :=
  match parts with
  | [] => []
  | [p] => p
  | p :: rest => p ++ sep ++ join sep rest
  end.

(** [s.replace(a, b)] for one character strings [a] and [b]. *)
Definition replace (a b : Z) (s : str) : str :=
  map (fun c => if c =? a then b else c) s.

Fixpoint lstrip (isspace : Z -> bool) (s : str) : str :=
  match s with
  | [] => []
  | c :: s' => if isspace c then lstrip isspace s' else s
  end.

(** [s.strip()] *)
Definition strip (isspace : Z -> bool) (s : str) : str :=
  rev (lstrip isspace (rev (lstrip isspace s))).

(** [TypingMode.name] *)
Definition name (m : TypingMode) : str :=
  match m with
  | INSTANT => codes "INSTANT"
  | HUMAN_LIKE => codes "HUMAN_LIKE"
  | MACHINE_GUN => codes "MACHINE_GUN"
  end.

(** ** Sets of strings *)

(** A set through its membership test. *)
Definition add (line : str) (s : str -> bool) : str -> bool :=
  fun x => str_eqb x line || s x.

Definition discard (line : str) (s : str -> bool) : str -> bool :=
  fun x => negb (str_eqb x line) && s x.

(** [s.update(lines)] *)
Definition update (lines : list str) (s : str -> bool) : str -> bool :=
  fold_left (fun acc line => add line acc) lines s.

(** A local set whose elements are listed: its elements, without repeats. *)
Definition mem (line : str) (s : list str) : bool := existsb (str_eqb line) s.

Definition set_add (line : str) (s : list str) : list str :=
  if mem line s then s else s ++ [line].

(** ** The object *)

Record AutoTyper : Type := {
  _wordlist_path : str;
  _filler_path : str;
  _short_path : str;
  _symbols : list str;
  _used_lines : str -> bool;
  _modes : list str;
  _mode_index : Z;
  _mode : str;
  _case_mode : str;
  _is_typing : bool;
  _speed_presets : list (Q * Q);
  _speed_index : Z;
  _typing_modes : list TypingMode;
  _typing_mode_index : Z;
  _terminal_visible : bool;
  _typer : CharacterTyper
}.

(** Assignments to one attribute. *)
Definition with_used_lines (u : str -> bool) (a : AutoTyper) : AutoTyper :=
  {| _wordlist_path := _wordlist_path a; _filler_path := _filler_path a;
     _short_path := _short_path a; _symbols := _symbols a;
     _used_lines := u;
     _modes := _modes a; _mode_index := _mode_index a; _mode := _mode a;
     _case_mode := _case_mode a; _is_typing := _is_typing a;
     _speed_presets := _speed_presets a; _speed_index := _speed_index a;
     _typing_modes := _typing_modes a; _typing_mode_index := _typing_mode_index a;
     _terminal_visible := _terminal_visible a; _typer := _typer a |}.

Definition with_mode_index (i : Z) (a : AutoTyper) : AutoTyper :=
  {| _wordlist_path := _wordlist_path a; _filler_path := _filler_path a;
     _short_path := _short_path a; _symbols := _symbols a;
     _used_lines := _used_lines a;
     _modes := _modes a; _mode_index := i; _mode := _mode a;
     _case_mode := _case_mode a; _is_typing := _is_typing a;
     _speed_presets := _speed_presets a; _speed_index := _speed_index a;
     _typing_modes := _typing_modes a; _typing_mode_index := _typing_mode_index a;
     _terminal_visible := _terminal_visible a; _typer := _typer a |}.

Definition with_mode (m : str) (a : AutoTyper) : AutoTyper :=
  {| _wordlist_path := _wordlist_path a; _filler_path := _filler_path a;
     _short_path := _short_path a; _symbols := _symbols a;
     _used_lines := _used_lines a;
     _modes := _modes a; _mode_index := _mode_index a; _mode := m;
     _case_mode := _case_mode a; _is_typing := _is_typing a;
     _speed_presets := _speed_presets a; _speed_index := _speed_index a;
     _typing_modes := _typing_modes a; _typing_mode_index := _typing_mode_index a;
     _terminal_visible := _terminal_visible a; _typer := _typer a |}.

Definition with_case_mode (m : str) (a : AutoTyper) : AutoTyper :=
  {| _wordlist_path := _wordlist_path a; _filler_path := _filler_path a;
     _short_path := _short_path a; _symbols := _symbols a;
     _used_lines := _used_lines a;
     _modes := _modes a; _mode_index := _mode_index a; _mode := _mode a;
     _case_mode := m; _is_typing := _is_typing a;
     _speed_presets := _speed_presets a; _speed_index := _speed_index a;
     _typing_modes := _typing_modes a; _typing_mode_index := _typing_mode_index a;
     _terminal_visible := _terminal_visible a; _typer := _typer a |}.

Definition with_is_typing (b : bool) (a : AutoTyper) : AutoTyper :=
  {| _wordlist_path := _wordlist_path a; _filler_path := _filler_path a;
     _short_path := _short_path a; _symbols := _symbols a;
     _used_lines := _used_lines a;
     _modes := _modes a; _mode_index := _mode_index a; _mode := _mode a;
     _case_mode := _case_mode a; _is_typing := b;
     _speed_presets := _speed_presets a; _speed_index := _speed_index a;
     _typing_modes := _typing_modes a; _typing_mode_index := _typing_mode_index a;
     _terminal_visible := _terminal_visible a; _typer := _typer a |}.

Definition with_speed_index (i : Z) (a : AutoTyper) : AutoTyper :=
  {| _wordlist_path := _wordlist_path a; _filler_path := _filler_path a;
     _short_path := _short_path a; _symbols := _symbols a;
     _used_lines := _used_lines a;
     _modes := _modes a; _mode_index := _mode_index a; _mode := _mode a;
     _case_mode := _case_mode a; _is_typing := _is_typing a;
     _speed_presets := _speed_presets a; _speed_index := i;
     _typing_modes := _typing_modes a; _typing_mode_index := _typing_mode_index a;
     _terminal_visible := _terminal_visible a; _typer := _typer a |}.

Definition with_typing_mode_index (i : Z) (a : AutoTyper) : AutoTyper :=
  {| _wordlist_path := _wordlist_path a; _filler_path := _filler_path a;
     _short_path := _short_path a; _symbols := _symbols a;
     _used_lines := _used_lines a;
     _modes := _modes a; _mode_index := _mode_index a; _mode := _mode a;
     _case_mode := _case_mode a; _is_typing := _is_typing a;
     _speed_presets := _speed_presets a; _speed_index := _speed_index a;
     _typing_modes := _typing_modes a; _typing_mode_index := i;
     _terminal_visible := _terminal_visible a; _typer := _typer a |}.

Definition with_terminal_visible (b : bool) (a : AutoTyper) : AutoTyper :=
  {| _wordlist_path := _wordlist_path a; _filler_path := _filler_path a;
     _short_path := _short_path a; _symbols := _symbols a;
     _used_lines := _used_lines a;
     _modes := _modes a; _mode_index := _mode_index a; _mode := _mode a;
     _case_mode := _case_mode a; _is_typing := _is_typing a;
     _speed_presets := _speed_presets a; _speed_index := _speed_index a;
     _typing_modes := _typing_modes a; _typing_mode_index := _typing_mode_index a;
     _terminal_visible := b; _typer := _typer a |}.

Definition with_typer (t : CharacterTyper) (a : AutoTyper) : AutoTyper :=
  {| _wordlist_path := _wordlist_path a; _filler_path := _filler_path a;
     _short_path := _short_path a; _symbols := _symbols a;
     _used_lines := _used_lines a;
     _modes := _modes a; _mode_index := _mode_index a; _mode := _mode a;
     _case_mode := _case_mode a; _is_typing := _is_typing a;
     _speed_presets := _speed_presets a; _speed_index := _speed_index a;
     _typing_modes := _typing_modes a; _typing_mode_index := _typing_mode_index a;
     _terminal_visible := _terminal_visible a; _typer := t |}.

(** ** The monad of the methods *)

(** What a method works on: the object, the number of draws consumed, and
    the trace so far (oldest event first). *)
Record State : Type := {
  this : AutoTyper;
  draws : nat;
  trace : list UiEvent
}.

Definition M (A : Type) : Type := State -> Result A * State.

Definition ret {A : Type} (a : A) : M A := fun s => (Done a, s).

Definition raise {A : Type} (e : Exn) : M A := fun s => (Thrown e, s).

(** A loop that is still running when the model stops following it. *)
Definition hang {A : Type} : M A := fun s => (Hangs, s).

Definition bind {A B : Type} (m : M A) (f : A -> M B) : M B :=
  fun s =>
    match m s with
    | (Done a, s') => f a s'
    | (Thrown e, s') => (Thrown e, s')
    | (Hangs, s') => (Hangs, s')
    end.

(** [try: body finally: cleanup] *)
Definition finally {A : Type} (body : M A) (cleanup : M unit) : M A :=
  fun s =>
    match body s with
    | (Hangs, s') => (Hangs, s')
    | (r, s') =>
        match cleanup s' with
        | (Done _, s'') => (r, s'')
        | (Thrown e, s'') => (Thrown e, s'')
        | (Hangs, s'') => (Hangs, s'')
        end
    end.

Declare Scope ui_scope.
Delimit Scope ui_scope with ui.
Notation "x <- m ;; k" := (bind m (fun x => k))
  (at level 61, m at next level, right associativity) : ui_scope.
Notation "m ;;; k" := (bind m (fun _ => k))
  (at level 61, right associativity) : ui_scope.
Local Open Scope ui_scope.

Definition get_self : M AutoTyper := fun s => (Done (this s), s).

(** [self.attribute = value] *)
Definition assign (f : AutoTyper -> AutoTyper) : M unit :=
  fun s => (Done tt, {| this := f (this s); draws := draws s; trace := trace s |}).

Definition emit (e : UiEvent) : M unit :=
  fun s => (Done tt, {| this := this s; draws := draws s; trace := trace s ++ [e] |}).

(** The time: how many events have been recorded. *)
Definition now : M nat := fun s => (Done (length (trace s)), s).

Definition print (line : str) : M unit := emit (Print line).

(** [a % b] *)
Definition py_mod (a b : Z) : M Z :=
  if b =? 0 then raise ZeroDivisionError else ret (a mod b).

(** [l[i]]: a negative index counts from the end. *)
Definition lookup {X : Type} (l : list X) (i : Z) : option X :=
  let j := if i <? 0 then i + Z.of_nat (length l) else i in
  if j <? 0 then None else nth_error l (Z.to_nat j).

Definition index {X : Type} (l : list X) (i : Z) : M X :=
  match lookup l i with
  | Some x => ret x
  | None => raise (Py IndexError)
  end.

(** [l.index(x)]: the first position of [x], [ValueError] when there is none. *)
Fixpoint position (x : str) (l : list str) : option Z :=
  match l with
  | [] => None
  | y :: l' => if str_eqb y x then Some 0
               else match position x l' with
                    | Some k => Some (k + 1)
                    | None => None
                    end
  end.

Definition index_of (l : list str) (x : str) : M Z :=
  match position x l with
  | Some k => ret k
  | None => raise (Py ValueError)
  end.

(** [for x in xs: body(x)] *)
Fixpoint for_each {X : Type} (xs : list X) (body : X -> M unit) : M unit :=
  match xs with
  | [] => ret tt
  | x :: xs' => body x ;;; for_each xs' body
  end.

Section Methods.

Variable w : World.

Definition draw : M Z :=
  fun s => (Done (tape w (draws s)),
            {| this := this s; draws := S (draws s); trace := trace s |}).

(** [random.randint(a, b)] *)
Definition random_randint (a b : Z) : M Z :=
  if b <? a then raise (Py ValueError)
  else raw <- draw ;; ret (a + raw mod (b - a + 1)).

(** [random.choice(seq)] *)
Definition random_choice {X : Type} (l : list X) : M X :=
  match l with
  | [] => raise (Py IndexError)
  | x :: _ => raw <- draw ;; ret (nth (Z.to_nat (raw mod Z.of_nat (length l))) l x)
  end.

(** [list(s)], or an iteration over [s], for a set [s] with the given
    elements. *)
Definition iterate (elements : list str) : M (list str) :=
  n <- now ;; ret (set_order w n elements).

(** [__init__], with [_initialize_typer], which reads four attributes of
    the object under construction. *)
Definition _initialize_typer (_speed_presets : list (Q * Q)) (_speed_index : Z)
           (_typing_modes : list TypingMode) (_typing_mode_index : Z)
  : Exn + CharacterTyper * list UiEvent :=
  match __init__ (host_is_windows w) (host_Xlib w) with
  | inl e => inl (Py e)
  | inr typer =>
      match lookup _speed_presets _speed_index with
      | None => inl (Py IndexError)
      | Some (min_delay, max_delay) =>
          let typer := set_typing_speed typer min_delay max_delay in
          match lookup _typing_modes _typing_mode_index with
          | None => inl (Py IndexError)
          | Some mode =>
              let typer := set_typing_mode typer mode in
              (* [ctypes.windll] is an attribute of [ctypes] on Windows only *)
              if host_is_windows w
              then inr (typer, [SetConsoleTitleW (codes "kamo x vatos")])
              else inl (Py AttributeError)
          end
      end
  end.

Definition MODES : list str :=
  [codes "normal"; codes "ladder"; codes "paragraph"; codes "beef"; codes "demon"].

Definition SPEED_PRESETS : list (Q * Q) :=
  [(3 # 100, 1 # 10); (7 # 100, 2 # 10); (15 # 100, 25 # 100); (2 # 10, 5 # 10)].

Definition new (wordlist filler short : str) : Exn + State :=
  match lookup MODES 0 with
  | None => inl (Py IndexError)
  | Some mode =>
      match _initialize_typer SPEED_PRESETS 0 [INSTANT; HUMAN_LIKE; MACHINE_GUN] 1 with
      | inl e => inl e
      | inr (typer, events) =>
          inr {| this :=
                   {| _wordlist_path := wordlist;
                      _filler_path := filler;
                      _short_path := short;
                      _symbols := [codes "- "; codes "# "];
                      _used_lines := fun _ => false;
                      _modes := MODES;
                      _mode_index := 0;
                      _mode := mode;
                      _case_mode := codes "lower";
                      _is_typing := false;
                      _speed_presets := SPEED_PRESETS;
                      _speed_index := 0;
                      _typing_modes := [INSTANT; HUMAN_LIKE; MACHINE_GUN];
                      _typing_mode_index := 1;
                      _terminal_visible := true;
                      _typer := typer |};
                 draws := 0;
                 trace := events |}
      end
  end.

(** [_get_random_line] *)
Definition _get_random_line (path : str) : M (option str) :=
  n <- now ;;
  emit (OpenFile path) ;;;
  match files w n path with
  | Some f =>
      let lines :=
        map (strip (isspace w))
            (filter (fun line => nonempty (strip (isspace w) line)) f) in
      match lines with
      | _ :: _ => line <- random_choice lines ;; ret (Some line)
      | [] => ret None
      end
  | None =>
      print (codes "File not found: '" ++ path ++ codes "'") ;;;
      ret None
  end.

(** [_handle_typing] *)
Definition _handle_typing (text : str) (transform : option (str -> str))
           (hold_shift : bool) : M unit :=
  emit (Sleep (5 # 100)) ;;;
  let text := match transform with
              | Some f => f text
              | None => text
              end in
  self <- get_self ;;
  let text := if str_eqb (_case_mode self) (codes "upper") then upper w text
              else if str_eqb (_case_mode self) (codes "lower") then lower w text
              else text in
  (if hold_shift then emit (KeyboardPress (codes "shift")) else ret tt) ;;;
  emit (TypeText text) ;;;
  emit WaitUntilDone ;;;
  emit PressEnter ;;;
  (if hold_shift then emit (KeyboardRelease (codes "shift")) else ret tt).

Definition ALL_TYPES : list str := [codes "short"; codes "middle"; codes "long"].

(** [f"__demon_{t}__"] *)
Definition marker (t : str) : str := codes "__demon_" ++ t ++ codes "__".

(** [_get_allowed_demon_types] *)
Definition _get_allowed_demon_types : M (list str) :=
  let all_types := ALL_TYPES in
  self <- get_self ;;
  let used_types := filter (fun t => _used_lines self (marker t)) all_types in
  remaining <- iterate (filter (fun t => negb (mem t used_types)) all_types) ;;
  match remaining with
  | [] =>
      ts <- iterate all_types ;;
      for_each ts (fun t =>
        assign (fun a => with_used_lines (discard (marker t) (_used_lines a)) a)) ;;;
      iterate all_types
  | _ :: _ => ret remaining
  end.

(** [toggle_case_mode] *)
Definition toggle_case_mode : M unit :=
  let case_modes := [codes "upper"; codes "lower"] in
  self <- get_self ;;
  current_index <- (if mem (_case_mode self) case_modes
                    then index_of case_modes (_case_mode self)
                    else ret 0) ;;
  i <- py_mod (current_index + 1) (Z.of_nat (length case_modes)) ;;
  m <- index case_modes i ;;
  assign (with_case_mode m) ;;;
  self <- get_self ;;
  print (codes "Case mode set to: " ++ _case_mode self).

(** [cycle_mode] *)
Definition cycle_mode : M unit :=
  self <- get_self ;;
  i <- py_mod (_mode_index self + 1) (Z.of_nat (length (_modes self))) ;;
  assign (with_mode_index i) ;;;
  self <- get_self ;;
  m <- index (_modes self) (_mode_index self) ;;
  assign (with_mode m) ;;;
  self <- get_self ;;
  print (codes "Content mode set to: " ++ _mode self).

(** [cycle_typing_mode] *)
Definition cycle_typing_mode : M unit :=
  self <- get_self ;;
  i <- py_mod (_typing_mode_index self + 1) (Z.of_nat (length (_typing_modes self))) ;;
  assign (with_typing_mode_index i) ;;;
  self <- get_self ;;
  m <- index (_typing_modes self) (_typing_mode_index self) ;;
  assign (fun a => with_typer (set_typing_mode (_typer a) m) a) ;;;
  self <- get_self ;;
  m <- index (_typing_modes self) (_typing_mode_index self) ;;
  print (codes "Typing style set to: " ++ name m).

(** [cycle_typing_speed] *)
Definition cycle_typing_speed : M unit :=
  self <- get_self ;;
  i <- py_mod (_speed_index self + 1) (Z.of_nat (length (_speed_presets self))) ;;
  assign (with_speed_index i) ;;;
  self <- get_self ;;
  preset <- index (_speed_presets self) (_speed_index self) ;;
  let (min_delay, max_delay) := preset : Q * Q in
  assign (fun a => with_typer (set_typing_speed (_typer a) min_delay max_delay) a) ;;;
  let speed_names := [codes "Fast"; codes "Medium"; codes "Slow"; codes "Very slow"] in
  self <- get_self ;;
  speed_name <- index speed_names (_speed_index self) ;;
  print (codes "Typing speed set to: " ++ speed_name).

(** [_handle_normal_mode]; [write_pack] is [self.write_pack]. *)
Definition _handle_normal_mode (write_pack : M unit) : M unit :=
  self <- get_self ;;
  choice <- random_randint 1 13 ;;
  let source := if choice =? 1 then _filler_path self else _wordlist_path self in
  line <- _get_random_line source ;;
  self <- get_self ;;
  match line with
  | Some l =>
      if negb (nonempty l) || _used_lines self l then write_pack
      else
        l <- (if choice =? 2
              then symbol <- random_choice (_symbols self) ;; ret (symbol ++ l)
              else ret l) ;;
        assign (fun a => with_used_lines (add l (_used_lines a)) a) ;;;
        _handle_typing l None false
  | None => write_pack
  end.

(** [_handle_ladder_mode] *)
Definition _handle_ladder_mode (write_pack : M unit) : M unit :=
  self <- get_self ;;
  line <- _get_random_line (_wordlist_path self) ;;
  self <- get_self ;;
  match line with
  | Some l =>
      if negb (nonempty l) || _used_lines self l then write_pack
      else
        assign (fun a => with_used_lines (add l (_used_lines a)) a) ;;;
        _handle_typing (replace 32 10 l) None true
  | None => write_pack
  end.

(** The [for _ in range(30)] loop of [_handle_paragraph_mode]. *)
Fixpoint paragraph_lines (n : nat) (lines : list str) : M (list str) :=
  match n with
  | O => ret lines
  | S n' =>
      self <- get_self ;;
      line <- _get_random_line (_wordlist_path self) ;;
      match line with
      | Some l => if nonempty l then paragraph_lines n' (lines ++ [l])
                  else paragraph_lines n' lines
      | None => paragraph_lines n' lines
      end
  end.

(** [_handle_paragraph_mode] *)
Definition _handle_paragraph_mode : M unit :=
  lines <- paragraph_lines 30 [] ;;
  let paragraph := join (codes " ") lines in
  (match lines with
   | [] => ret tt
   | _ :: _ =>
       last_line <- index lines (-1) ;;
       assign (fun a => with_used_lines (add last_line (_used_lines a)) a)
   end) ;;;
  _handle_typing paragraph None false.

(** The [while] loop of [_handle_beef_mode]; [fuel] bounds the number of
    its iterations. *)
Fixpoint beef_lines (fuel : nat) (line1 line2 : option str) : M (str * str) :=
  let again :=
    match fuel with
    | O => hang
    | S fuel' =>
        self <- get_self ;;
        line1 <- _get_random_line (_wordlist_path self) ;;
        self <- get_self ;;
        line2 <- _get_random_line (_wordlist_path self) ;;
        beef_lines fuel' line1 line2
    end in
  match line1, line2 with
  | Some l1, Some l2 =>
      if negb (nonempty l1) || negb (nonempty l2) || str_eqb l1 l2 then again
      else ret (l1, l2)
  | _, _ => again
  end.

(** [_handle_beef_mode] *)
Definition _handle_beef_mode (fuel : nat) : M unit :=
  self <- get_self ;;
  line1 <- _get_random_line (_wordlist_path self) ;;
  self <- get_self ;;
  line2 <- _get_random_line (_wordlist_path self) ;;
  lines <- beef_lines fuel line1 line2 ;;
  let (line1, line2) := lines : str * str in
  let combined := line1 ++ codes " and " ++ line2 in
  assign (fun a => with_used_lines (add line1 (_used_lines a)) a) ;;;
  assign (fun a => with_used_lines (add line2 (_used_lines a)) a) ;;;
  _handle_typing combined None false.

(** The [for _ in range(30)] loops of [_handle_demon_mode]: the first line
    drawn from [path] that is not used yet. *)
Fixpoint first_unused (n : nat) (path : AutoTyper -> str) : M (option str) :=
  match n with
  | O => ret None
  | S n' =>
      self <- get_self ;;
      line <- _get_random_line (path self) ;;
      self <- get_self ;;
      match line with
      | Some l =>
          if nonempty l && negb (_used_lines self l) then
            assign (fun a => with_used_lines (add l (_used_lines a)) a) ;;;
            ret (Some l)
          else first_unused n' path
      | None => first_unused n' path
      end
  end.

(** The [while len(lines) < 4 and attempts < 100] loop; [left] is
    [100 - attempts]. *)
Fixpoint long_lines (left : nat) (lines : list str) : M (list str) :=
  match left with
  | O => ret lines
  | S left' =>
      if (length lines <? 4)%nat then
        self <- get_self ;;
        line <- _get_random_line (_wordlist_path self) ;;
        self <- get_self ;;
        match line with
        | Some l =>
            if nonempty l && negb (_used_lines self l)
            then long_lines left' (set_add l lines)
            else long_lines left' lines
        | None => long_lines left' lines
        end
      else ret lines
  end.

(** [_handle_demon_mode] *)
Definition _handle_demon_mode : M unit :=
  allowed <- _get_allowed_demon_types ;;
  selected <- random_choice allowed ;;
  assign (fun a => with_used_lines (add (marker selected) (_used_lines a)) a) ;;;
  parts <-
    (if str_eqb selected (codes "short") then
       short <- first_unused 30 _short_path ;;
       ret [short; None; None]
     else if str_eqb selected (codes "middle") then
       middle <- first_unused 30 _wordlist_path ;;
       ret [None; middle; None]
     else if str_eqb selected (codes "long") then
       lines <- long_lines 100 [] ;;
       if (length lines =? 4)%nat then
         ordered <- iterate lines ;;
         assign (fun a => with_used_lines (update lines (_used_lines a)) a) ;;;
         ret [None; None; Some (join (codes " and ") ordered)]
       else ret [None; None; None]
     else ret [None; None; None]) ;;
  let parts := flat_map (fun p => match p with
                                  | Some s => if nonempty s then [s] else []
                                  | None => []
                                  end) parts in
  match parts with
  | [] => ret tt
  | _ :: _ => _handle_typing (join (codes " ") parts) None false
  end.

(** [write_pack]; [fuel] bounds the depth of the calls of [write_pack]
    within [write_pack], and the loop of the beef mode. *)
Fixpoint write_pack (fuel : nat) : M unit :=
  match fuel with
  | O => hang
  | S fuel' =>
      self <- get_self ;;
      if _is_typing self then ret tt
      else
        assign (with_is_typing true) ;;;
        finally
          (emit (KeyboardRelease (codes "tab")) ;;;
           emit (Sleep (5 # 100)) ;;;
           self <- get_self ;;
           if str_eqb (_mode self) (codes "normal") then
             _handle_normal_mode (write_pack fuel')
           else if str_eqb (_mode self) (codes "ladder") then
             _handle_ladder_mode (write_pack fuel')
           else if str_eqb (_mode self) (codes "paragraph") then
             _handle_paragraph_mode
           else if str_eqb (_mode self) (codes "beef") then
             _handle_beef_mode fuel'
           else if str_eqb (_mode self) (codes "demon") then
             _handle_demon_mode
           else ret tt)
          (assign (with_is_typing false))
  end.

(** ** The hotkeys *)

(** The keys [main] binds, F10 apart. *)
Inductive Hotkey : Type := Tab | CapsLock | Shift | Ctrl | Alt.

Definition on_press_key (fuel : nat) (key : Hotkey) : M unit :=
  match key with
  | Tab => write_pack fuel
  | CapsLock => toggle_case_mode
  | Shift => cycle_mode
  | Ctrl => cycle_typing_speed
  | Alt => cycle_typing_mode
  end.

End Methods.

End Main.

(** ** The vocabulary of the front end's properties *)

(** What a method leaves of the state it started in. *)
Definition stable {A : Type} (R : Main.State -> Main.State -> Prop) (m : Main.M A) : Prop :=
  forall s, R s (snd (m s)).

(** The attributes that only the cyclers assign: the object with
    [_used_lines] and [_is_typing] blanked. *)
Definition settings (a : Main.AutoTyper) : Main.AutoTyper :=
  Main.with_used_lines (fun _ => false) (Main.with_is_typing false a).

(** Calls of the typer and of the [keyboard] package, the events another
    program can see. *)
Definition is_call (e : Main.UiEvent) : bool :=
  match e with
  | Main.TypeText _ | Main.WaitUntilDone | Main.PressEnter
  | Main.KeyboardPress _ | Main.KeyboardRelease _ => true
  | _ => false
  end.

Definition calls (t : list Main.UiEvent) : list Main.UiEvent := filter is_call t.

Definition is_open (e : Main.UiEvent) : bool :=
  match e with
  | Main.OpenFile _ => true
  | _ => false
  end.

(** The calls of one [_handle_typing(text, hold_shift=...)]. *)
Definition typing_calls (hold_shift : bool) (text : str) : list Main.UiEvent :=
  (if hold_shift then [Main.KeyboardPress (codes "shift")] else [])
  ++ [Main.TypeText text; Main.WaitUntilDone; Main.PressEnter]
  ++ (if hold_shift then [Main.KeyboardRelease (codes "shift")] else []).

(** A method that makes no call and assigns nothing but [_used_lines]. *)
Definition quiet (s s' : Main.State) : Prop :=
  settings (Main.this s') = settings (Main.this s) /\
  Main._is_typing (Main.this s') = Main._is_typing (Main.this s) /\
  exists evs, Main.trace s' = Main.trace s ++ evs /\ calls evs = [].

(** A method that types at most one text, as the last thing it does. *)
Definition types_once (s s' : Main.State) : Prop :=
  settings (Main.this s') = settings (Main.this s) /\
  Main._is_typing (Main.this s') = Main._is_typing (Main.this s) /\
  exists evs, Main.trace s' = Main.trace s ++ evs /\
    (calls evs = [] \/ exists hold_shift text, calls evs = typing_calls hold_shift text).

(** What holds of a method that is called while [_is_typing] is set. *)
Definition guarded (R : Main.State -> Main.State -> Prop) (s s' : Main.State) : Prop :=
  Main._is_typing (Main.this s) = true -> R s s'.

(** The body of the [try] of [write_pack]. *)
Definition pack_body (w : Main.World) (fuel : nat) : Main.M unit :=
  Main.bind (Main.emit (Main.KeyboardRelease (codes "tab"))) (fun _ =>
  Main.bind (Main.emit (Main.Sleep (5 # 100))) (fun _ =>
  Main.bind Main.get_self (fun self =>
    if Main.str_eqb (Main._mode self) (codes "normal") then
      Main._handle_normal_mode w (Main.write_pack w fuel)
    else if Main.str_eqb (Main._mode self) (codes "ladder") then
      Main._handle_ladder_mode w (Main.write_pack w fuel)
    else if Main.str_eqb (Main._mode self) (codes "paragraph") then
      Main._handle_paragraph_mode w
    else if Main.str_eqb (Main._mode self) (codes "beef") then
      Main._handle_beef_mode w fuel
    else if Main.str_eqb (Main._mode self) (codes "demon") then
      Main._handle_demon_mode w
    else Main.ret tt))).

(** What one press of Tab may do. *)
Definition one_pack (s s' : Main.State) : Prop :=
  settings (Main.this s') = settings (Main.this s) /\
  exists evs, Main.trace s' = Main.trace s ++ evs /\
    (calls evs = [] \/
     calls evs = [Main.KeyboardRelease (codes "tab")] \/
     exists hold_shift text,
       calls evs = Main.KeyboardRelease (codes "tab") :: typing_calls hold_shift text).

(** The object between two key presses. *)
Definition consistent (a : Main.AutoTyper) : Prop :=
  Main._symbols a = [codes "- "; codes "# "] /\
  Main._modes a = Main.MODES /\
  Main._speed_presets a = Main.SPEED_PRESETS /\
  Main._typing_modes a = [INSTANT; HUMAN_LIKE; MACHINE_GUN] /\
  (0 <= Main._mode_index a < 5) /\
  (0 <= Main._speed_index a < 4) /\
  (0 <= Main._typing_mode_index a < 3) /\
  Main.lookup Main.MODES (Main._mode_index a) = Some (Main._mode a) /\
  Main.lookup Main.SPEED_PRESETS (Main._speed_index a)
    = Some (_typing_delay (Main._typer a)) /\
  Main.lookup [INSTANT; HUMAN_LIKE; MACHINE_GUN] (Main._typing_mode_index a)
    = Some (_mode (Main._typer a)) /\
  _error_rate (Main._typer a) = 5 # 1000 /\
  (Main._case_mode a = codes "upper" \/ Main._case_mode a = codes "lower") /\
  Main._is_typing a = false.

(** The states the program can be in between two key presses: after the
    constructor, after a handler that came back, and after F10, which
    assigns [_terminal_visible] and nothing else. *)
Inductive ui_reachable (w : Main.World) : Main.State -> Prop :=
| reach_new wordlist filler short s :
    Main.new w wordlist filler short = inr s ->
    ui_reachable w s
| reach_key s fuel key :
    ui_reachable w s ->
    fst (Main.on_press_key w fuel key s) <> Main.Hangs ->
    ui_reachable w (snd (Main.on_press_key w fuel key s))
| reach_f10 s visible events :
    ui_reachable w s ->
    ui_reachable w {| Main.this := Main.with_terminal_visible visible (Main.this s);
                   Main.draws := Main.draws s;
                   Main.trace := Main.trace s ++ events |}.

(** [n] presses of one key in a row. *)
Fixpoint presses (w : Main.World) (fuel : nat) (key : Main.Hotkey) (n : nat)
  : Main.M unit :=
  match n with
  | O => Main.ret tt
  | S n' => Main.bind (Main.on_press_key w fuel key) (fun _ => presses w fuel key n')
  end.

(** After how many presses a key has gone round. *)
Definition period (key : Main.Hotkey) : nat :=
  match key with
  | Main.Tab => 1
  | Main.CapsLock => 2
  | Main.Shift => 5
  | Main.Ctrl => 4
  | Main.Alt => 3
  end.

(** The lines of a file that [_get_random_line] chooses from. *)
Definition candidates (w : Main.World) (n : nat) (path : str) : list str :=
  match Main.files w n path with
  | Some f =>
      map (Main.strip (Main.isspace w))
          (filter (fun line => Main.nonempty (Main.strip (Main.isspace w) line)) f)
  | None => []
  end.

(** [text] after the change of case of [_handle_typing]. *)
Definition cased (w : Main.World) (a : Main.AutoTyper) (text : str) : str :=
  if Main.str_eqb (Main._case_mode a) (codes "upper") then Main.upper w text
  else if Main.str_eqb (Main._case_mode a) (codes "lower") then Main.lower w text
  else text.

(** The line [_get_random_line] draws in a state, and what it records. *)
Definition drawn_line (w : Main.World) (path : str) (s : Main.State) : option str :=
  match candidates w (length (Main.trace s)) path with
  | [] => None
  | x :: rest =>
      Some (nth (Z.to_nat (Main.tape w (Main.draws s) mod Z.of_nat (length (x :: rest))))
                (x :: rest) x)
  end.

Definition after_draw (w : Main.World) (path : str) (s : Main.State) : Main.State :=
  {| Main.this := Main.this s;
     Main.draws := match candidates w (length (Main.trace s)) path with
                   | [] => Main.draws s
                   | _ :: _ => S (Main.draws s)
                   end;
     Main.trace := Main.trace s ++
       Main.OpenFile path ::
       match Main.files w (length (Main.trace s)) path with
       | Some _ => []
       | None => [Main.Print (codes "File not found: '" ++ path ++ codes "'")]
       end |}.

(** The events after those of a state. *)
Definition since (s s' : Main.State) : list Main.UiEvent :=
  skipn (length (Main.trace s)) (Main.trace s').

(** The position a key has gone to in its round. *)
Definition position_of (key : Main.Hotkey) (a : Main.AutoTyper) : Z :=
  match key with
  | Main.Tab => 0
  | Main.CapsLock => if Main.str_eqb (Main._case_mode a) (codes "upper") then 0 else 1
  | Main.Shift => Main._mode_index a
  | Main.Ctrl => Main._speed_index a
  | Main.Alt => Main._typing_mode_index a
  end.

(** The state in which the handler of the mode starts: [_is_typing] is
    set, Tab released, and the first sleep over. *)
Definition started (s : Main.State) : Main.State :=
  {| Main.this := Main.with_is_typing true (Main.this s);
     Main.draws := Main.draws s;
     Main.trace := Main.trace s
                   ++ [Main.KeyboardRelease (codes "tab"); Main.Sleep (5 # 100)] |}.

(** A set is iterated in some order, but it is the same set. *)
Definition same_elements (w : Main.World) : Prop :=
  forall n l x, In x (Main.set_order w n l) <-> In x l.

(** A method that comes back with a value and discards no used line. *)
Definition adds_lines {A : Type} (m : Main.M A) : Prop :=
  forall s, exists a s',
    m s = (Main.Done a, s') /\
    forall x, Main._used_lines (Main.this s) x = true ->
              Main._used_lines (Main.this s') x = true.

(** ** Concrete inputs of the front end *)

Definition ascii_isspace (c : Z) : bool := (c =? 32) || ((9 <=? c) && (c <=? 13)).

Definition ascii_upper (text : str) : str :=
  map (fun c => if (97 <=? c) && (c <=? 122) then c - 32 else c) text.

Definition ascii_lower (text : str) : str :=
  map (fun c => if (65 <=? c) && (c <=? 90) then c + 32 else c) text.

(** A Windows host on which [assets/gid.txt] has the given lines and no
    other file exists; sets are iterated in the order of their listing. *)
Definition host (lines : list str) (tape : nat -> Z) : Main.World :=
  {| Main.isspace := ascii_isspace;
     Main.upper := ascii_upper;
     Main.lower := ascii_lower;
     Main.host_is_windows := true;
     Main.host_Xlib := None;
     Main.tape := tape;
     Main.files := fun _ path =>
       if Main.str_eqb path (codes "assets/gid.txt") then Some lines else None;
     Main.set_order := fun _ l => l |}.

(** The object after [AutoTyper()] and some presses of Shift. *)
Definition object_in (mode_index : Z) (mode : str) : Main.AutoTyper :=
  {| Main._wordlist_path := codes "assets/gid.txt";
     Main._filler_path := codes "assets/filler.txt";
     Main._short_path := codes "assets/shortwords.txt";
     Main._symbols := [codes "- "; codes "# "];
     Main._used_lines := fun _ => false;
     Main._modes := Main.MODES;
     Main._mode_index := mode_index;
     Main._mode := mode;
     Main._case_mode := codes "lower";
     Main._is_typing := false;
     Main._speed_presets := Main.SPEED_PRESETS;
     Main._speed_index := 0;
     Main._typing_modes := [INSTANT; HUMAN_LIKE; MACHINE_GUN];
     Main._typing_mode_index := 1;
     Main._terminal_visible := true;
     Main._typer := {| _typing_delay := (3 # 100, 1 # 10);
                       _error_rate := 5 # 1000;
                       _mode := HUMAN_LIKE;
                       _send_input := WindowsBackend |} |}.

Definition state_in (mode_index : Z) (mode : str) : Main.State :=
  {| Main.this := object_in mode_index mode;
     Main.draws := 0;
     Main.trace := [Main.SetConsoleTitleW (codes "kamo x vatos")] |}.

Definition two_lines : list str :=
  [codes "Hello there" ++ [NEWLINE]; [NEWLINE]; codes "  General Kenobi " ++ [NEWLINE]].

Definition one_line : list str := [codes "Hello there" ++ [NEWLINE]; [NEWLINE]].

Definition zero_tape : nat -> Z := fun _ => 0.

(** The state after [AutoTyper()] and one press of Ctrl. *)
Definition after_ctrl : Main.State :=
  snd (Main.on_press_key (host two_lines zero_tape) 1 Main.Ctrl (state_in 0 (codes "normal"))).

Definition one_tape : nat -> Z := fun _ => 1.

(** * Properties *)

(** ** Running binds, primitives and loops *)

Section RunFacts.

Variable tape : nat -> Z.
Variable stop : nat -> bool.

Lemma after_after {A : Type} e1 k1 e2 k2 (r : Run A) :
  after e1 k1 (after e2 k2 r) = after (e1 ++ e2) (k1 + k2) r.
Proof.
  unfold after; simpl. now rewrite app_assoc, Nat.add_assoc.
Qed.

Lemma after_nil {A : Type} (r : Run A) : after [] 0 r = r.
Proof. now destruct r. Qed.

(** The run of a bind is the run of its first part, followed, when
    that returns, by the run of the rest where the first part stopped. *)
Lemma run_bind {A B : Type} (m : Prog A) (f : A -> Prog B) :
  forall pos now,
    run tape stop (bind m f) pos now =
    let r := run tape stop m pos now in
    match result r with
    | Returned a =>
        after (emitted r) (drawn r)
              (run tape stop (f a) (pos + drawn r) (now + length (emitted r)))
    | Raised e => {| result := Raised e; drawn := drawn r; emitted := emitted r |}
    | Unsettled => {| result := Unsettled; drawn := drawn r; emitted := emitted r |}
    end.
Proof.
  induction m as [a | e | c k IH]; intros pos now; simpl.
  - now rewrite !Nat.add_0_r, after_nil.
  - reflexivity.
  - destruct c as [ch | d | |]; simpl in *;
      try (destruct (sleep_raises d) as [[|] |]; [reflexivity | | reflexivity]);
      rewrite IH; clear IH;
      match goal with
      | |- context [result (run tape stop ?p ?x ?y)] =>
          destruct (run tape stop p x y) as [[? | ? |] ? ?]; simpl
      end;
      unfold after; simpl; repeat f_equal; lia.
Qed.

Lemma returns_bind {A B : Type} (m : Prog A) (f : A -> Prog B)
      pos now a k1 e1 b k2 e2 :
  returns tape stop m pos now a k1 e1 ->
  returns tape stop (f a) (pos + k1) (now + length e1) b k2 e2 ->
  returns tape stop (bind m f) pos now b (k1 + k2) (e1 ++ e2).
Proof.
  unfold returns; intros Hm Hf. rewrite run_bind, Hm; simpl. now rewrite Hf.
Qed.

Lemma returns_ret {A : Type} (a : A) pos now : returns tape stop (Ret a) pos now a 0 [].
Proof. reflexivity. Qed.

Lemma returns_send c pos now : returns tape stop (send_input c) pos now tt 0 [Send c].
Proof. reflexivity. Qed.

Lemma returns_call_send_input self c pos now :
  backend_returns self ->
  returns tape stop (call_send_input self c) pos now tt 0 [Send c].
Proof.
  intros Hsend. unfold returns, call_send_input. simpl. now rewrite (Hsend c).
Qed.

Lemma Qltb_ge a b : (b <= a)%Q -> Qltb a b = false.
Proof.
  unfold Qltb. intros H. destruct (a ?= b)%Q eqn:Hc; try reflexivity.
  apply Qlt_alt in Hc. exfalso. exact (Qlt_irrefl a (Qlt_le_trans _ _ _ Hc H)).
Qed.

Lemma sleep_returns d :
  never_negative d = true -> (at_most d <= SLEEP_MAX)%Q ->
  sleep_raises d = Some false.
Proof.
  intros Hd Hmax. unfold sleep_raises. now rewrite Hd, (Qltb_ge _ _ Hmax).
Qed.

(** A sleep of a draw between two bounds in range returns. *)
Lemma sleep_returns_uniform a b u :
  (0 <= a)%Q /\ (a <= DELAY_MAX)%Q -> (0 <= b)%Q /\ (b <= DELAY_MAX)%Q ->
  sleep_raises (Uniform a b u) = Some false.
Proof.
  intros [Ha Ha'] [Hb Hb']. apply sleep_returns.
  - simpl. now rewrite !Qltb_ge.
  - unfold at_most, py_max, SLEEP_MAX, DELAY_MAX in *.
    destruct (Qltb a b); lra.
Qed.

(** A sleep that is settled to return returns. *)
Lemma returns_sleep d pos now :
  sleep_raises d = Some false -> returns tape stop (sleep d) pos now tt 0 [Sleep d].
Proof.
  intros Hd. unfold returns, sleep. simpl. now rewrite Hd.
Qed.

Lemma returns_poll pos now :
  returns tape stop stop_is_set pos now (stop now) 0 [Poll (stop now)].
Proof. reflexivity. Qed.

Lemma returns_random pos now :
  returns tape stop random pos now (unit_draw (tape pos)) 1 [].
Proof. reflexivity. Qed.

Lemma returns_uniform a b pos now :
  returns tape stop (uniform a b) pos now (Uniform a b (unit_draw (tape pos))) 1 [].
Proof. reflexivity. Qed.

Lemma returns_randint a b pos now :
  a <= b ->
  returns tape stop (randint a b) pos now (a + tape pos mod (b - a + 1)) 1 [].
Proof.
  intros Hab. unfold randint.
  destruct (Z.ltb_spec b a); [lia | reflexivity].
Qed.

Lemma randint_range a b raw : a <= b -> a <= a + raw mod (b - a + 1) <= b.
Proof.
  intros Hab. pose proof (Z.mod_pos_bound raw (b - a + 1)). lia.
Qed.

Lemma returns_choice_offsets pos now :
  returns tape stop (choice TYPO_OFFSETS) pos now (pick_offset (tape pos)) 1 [].
Proof. reflexivity. Qed.

Lemma pick_offset_In raw : In (pick_offset raw) TYPO_OFFSETS.
Proof.
  unfold pick_offset. apply nth_In. simpl.
  pose proof (Z.mod_pos_bound raw 4). lia.
Qed.

Lemma unit_draw_range raw : (0 <= unit_draw raw)%Q /\ (unit_draw raw < 1)%Q.
Proof.
  unfold unit_draw, TWO53, Qle, Qlt; simpl.
  pose proof (Z.mod_pos_bound raw 9007199254740992). lia.
Qed.

End RunFacts.

(** ** The typo detour *)

Lemma window_cons text i n :
  (i < length text)%nat ->
  window text i (S n) = nth i text 0 :: window text (S i) n.
Proof.
  unfold window. revert i. induction text as [| c text IH]; intros i Hi; simpl in *.
  - lia.
  - destruct i as [| i]; [reflexivity |].
    simpl. apply (IH i). lia.
Qed.

Lemma window_length text i n :
  (i + n <= length text)%nat -> length (window text i n) = n.
Proof.
  intros H. unfold window. rewrite length_firstn, length_skipn. lia.
Qed.

Lemma sends_app t1 t2 : sends (t1 ++ t2) = sends t1 ++ sends t2.
Proof.
  induction t1 as [| [b | c | d] t1 IH]; simpl; try rewrite IH; reflexivity.
Qed.

Lemma sleeps_app t1 t2 : sleeps (t1 ++ t2) = sleeps t1 ++ sleeps t2.
Proof.
  induction t1 as [| [b | c | d] t1 IH]; simpl; try rewrite IH; reflexivity.
Qed.

Lemma sends_keystrokes cs ds :
  length cs = length ds -> sends (keystrokes cs ds) = cs.
Proof.
  revert ds. induction cs as [| c cs IH]; intros [| d ds] H; simpl in *;
    try discriminate; try reflexivity.
  f_equal. apply IH. lia.
Qed.

Lemma sleeps_keystrokes cs ds :
  length cs = length ds -> sleeps (keystrokes cs ds) = ds.
Proof.
  revert ds. induction cs as [| c cs IH]; intros [| d ds] H; simpl in *;
    try discriminate; try reflexivity.
  f_equal. apply IH. lia.
Qed.

Lemma keystrokes_length cs ds :
  length cs = length ds -> length (keystrokes cs ds) = (2 * length cs)%nat.
Proof.
  revert ds. induction cs as [| c cs IH]; intros [| d ds] H; simpl in *;
    try discriminate; try reflexivity.
  rewrite IH; lia.
Qed.

Lemma window_incl text i n c : In c (window text i n) -> In c text.
Proof.
  unfold window. intros H.
  rewrite <- (firstn_skipn i text). apply in_or_app. right.
  rewrite <- (firstn_skipn n (skipn i text)). apply in_or_app. now left.
Qed.

Section Detour.

Variable isalpha : Z -> bool.
Variable self : CharacterTyper.
Variable tape : nat -> Z.
Variable stop : nat -> bool.

Hypothesis Hdelay : delays_in_range self.
Hypothesis Hsend : backend_returns self.

Let lo : Q := fst (_typing_delay self).
Let hi : Q := snd (_typing_delay self).

Lemma uniforms_length a b pos k : length (uniforms tape a b pos k) = k.
Proof. unfold uniforms. now rewrite length_map, length_seq. Qed.

Lemma garble_length w pos : length (garble isalpha tape w pos) = length w.
Proof.
  revert pos. induction w as [| c w IH]; intros pos; simpl; [reflexivity |].
  destruct (isalpha c); simpl; now rewrite IH.
Qed.

Lemma returns_cast {A : Type} (m : Prog A) pos now a k evs a' k' evs' :
  returns tape stop m pos now a k evs -> a = a' -> k = k' -> evs = evs' ->
  returns tape stop m pos now a' k' evs'.
Proof. now intros H -> -> ->. Qed.

Lemma getitem_returns (text : str) k :
  (k < length text)%nat ->
  getitem text k = Ret (nth k text 0).
Proof.
  intros Hk. unfold getitem.
  now rewrite (nth_error_nth' text 0 Hk).
Qed.

Lemma chr_letter c raw :
  65 <= c <= 1114109 -> chr (c + pick_offset raw) = inr (c + pick_offset raw).
Proof.
  intros Hc.
  pose proof (pick_offset_In raw) as Hin. unfold chr.
  simpl in Hin.
  destruct (Z.leb_spec 0 (c + pick_offset raw));
    destruct (Z.leb_spec (c + pick_offset raw) 1114111); simpl; try reflexivity; lia.
Qed.

(** The comprehension loop that builds [typo_chars]. *)
Lemma collect_typo_chars text i :
  letters_in_range isalpha text ->
  forall k j0 pos now,
    (i + j0 + k <= length text)%nat ->
    returns tape stop (collect (seq j0 k) (typo_char_at isalpha text i)) pos now
            (garble isalpha tape (window text (i + j0) k) pos)
            (letters isalpha (window text (i + j0) k)) [].
Proof.
  intros Hok. induction k as [| k IH]; intros j0 pos now Hlen.
  - reflexivity.
  - assert (Hlt : (i + j0 < length text)%nat) by lia.
    rewrite (window_cons _ _ _ Hlt). simpl seq. simpl collect.
    unfold typo_char_at at 1.
    destruct (Nat.ltb_spec (i + j0) (length text)) as [_ | ?]; [| lia].
    rewrite (getitem_returns _ _ Hlt). cbn [bind].
    replace (S (i + j0)) with (i + S j0)%nat by lia.
    simpl garble. simpl letters.
    destruct (isalpha (nth (i + j0) text 0)) eqn:Hc.
    + eapply returns_cast.
      * eapply returns_bind.
        { eapply returns_bind; [apply returns_choice_offsets |].
          rewrite chr_letter by (apply Hok; [now apply nth_In | exact Hc]).
          apply returns_ret. }
        eapply returns_bind; [apply IH; lia | apply returns_ret].
      * simpl. do 2 f_equal. lia.
      * simpl. lia.
      * reflexivity.
    + eapply returns_cast.
      * eapply returns_bind; [apply returns_ret |].
        eapply returns_bind; [apply IH; lia | apply returns_ret].
      * simpl. do 2 f_equal. lia.
      * simpl. lia.
      * reflexivity.
Qed.

(** A loop that sends one character per element and sleeps a uniform
    draw after each. *)
Lemma for_each_keystrokes {X : Type} (g : X -> Z) a b (xs : list X) :
  (0 <= a)%Q /\ (a <= DELAY_MAX)%Q -> (0 <= b)%Q /\ (b <= DELAY_MAX)%Q ->
  forall pos now,
    returns tape stop
            (for_each xs (fun x =>
               call_send_input self (g x) ;;; d <- uniform a b ;; sleep d))
            pos now tt (length xs)
            (keystrokes (map g xs) (uniforms tape a b pos (length xs))).
Proof.
  intros Ha Hb. induction xs as [| x xs IH]; intros pos now.
  - reflexivity.
  - cbn [for_each]. eapply returns_cast.
    + eapply returns_bind.
      { eapply returns_bind; [apply returns_call_send_input; exact Hsend |].
        eapply returns_bind; [apply returns_uniform |].
        apply returns_sleep. now apply sleep_returns_uniform. }
      apply IH.
    + reflexivity.
    + simpl. lia.
    + simpl. rewrite Nat.add_0_r, Nat.add_1_r. reflexivity.
Qed.

(** The loop that types the source characters of the window again. *)
Lemma for_each_retype text i :
  forall k j0 pos now,
    (i + j0 + k <= length text)%nat ->
    returns tape stop
            (for_each (seq j0 k) (fun j =>
               if (i + j <? length text)%nat then
                 c <- getitem text (i + j) ;;
                 call_send_input self c ;;;
                 d <- uniform lo hi ;;
                 sleep d
               else Ret tt))
            pos now tt k
            (keystrokes (window text (i + j0) k) (uniforms tape lo hi pos k)).
Proof.
  induction k as [| k IH]; intros j0 pos now Hlen.
  - reflexivity.
  - assert (Hlt : (i + j0 < length text)%nat) by lia.
    rewrite (window_cons _ _ _ Hlt). simpl seq. cbn [for_each].
    destruct (Nat.ltb_spec (i + j0) (length text)) as [_ | ?]; [| lia].
    rewrite (getitem_returns _ _ Hlt). cbn [bind].
    replace (S (i + j0)) with (i + S j0)%nat by lia.
    eapply returns_cast.
    + eapply returns_bind.
      { eapply returns_bind; [apply returns_call_send_input; exact Hsend |].
        eapply returns_bind; [apply returns_uniform |].
        apply returns_sleep. destruct Hdelay. now apply sleep_returns_uniform. }
      apply IH. lia.
    + reflexivity.
    + simpl. lia.
    + simpl. rewrite Nat.add_0_r, Nat.add_1_r. reflexivity.
Qed.

Lemma typo_length_range text i pos :
  (i < length text)%nat ->
  1 <= typo_length_at tape text i pos <= Z.min 3 (Z.of_nat (length text) - Z.of_nat i).
Proof.
  intros Hi. unfold typo_length_at.
  pose proof (Z.mod_pos_bound (tape pos)
                (Z.min 3 (Z.of_nat (length text) - Z.of_nat i))).
  lia.
Qed.

(** The detour returns the length it drew and emits [detour_events]. *)
Lemma simulate_typo_returns text i pos now :
  letters_in_range isalpha text ->
  (i < length text)%nat ->
  returns tape stop (_simulate_typo isalpha self text i) pos now
          (typo_length_at tape text i pos)
          (detour_draws isalpha tape text i pos)
          (detour_events isalpha self tape text i pos).
Proof.
  intros Hok Hi.
  pose proof (typo_length_range text i pos Hi) as Hn.
  unfold _simulate_typo, detour_events, detour_draws.
  set (n := typo_length_at tape text i pos) in *.
  assert (Hfit : (i + 0 + Z.to_nat n <= length text)%nat) by lia.
  assert (Hw : length (window text i (Z.to_nat n)) = Z.to_nat n)
    by (apply window_length; lia).
  eapply returns_cast.
  - eapply returns_bind.
    { apply returns_randint. lia. }
    replace (Z.min 3 (Z.of_nat (length text) - Z.of_nat i) - 1 + 1)
      with (Z.min 3 (Z.of_nat (length text) - Z.of_nat i)) by lia.
    fold (typo_length_at tape text i pos). fold n.
    eapply returns_bind.
    { unfold range. apply collect_typo_chars; [exact Hok | exact Hfit]. }
    eapply returns_bind.
    { destruct Hdelay. now apply (for_each_keystrokes (fun c => c)). }
    eapply returns_bind.
    { eapply returns_bind; [apply returns_uniform | now apply returns_sleep]. }
    eapply returns_bind.
    { apply (for_each_keystrokes (fun _ => BACKSPACE)); split; discriminate. }
    eapply returns_bind.
    { unfold range. apply for_each_retype. exact Hfit. }
    apply returns_ret.
  - reflexivity.
  - rewrite !garble_length. replace (i + 0)%nat with i by lia.
    rewrite Hw. lia.
  - rewrite !garble_length. replace (i + 0)%nat with i by lia.
    rewrite Hw, map_id, map_const, garble_length, Hw.
    simpl app. rewrite app_nil_r. subst lo hi.
    replace (pos + 1)%nat with (S pos) by lia.
    replace (1 + 0)%nat with 1%nat by lia.
    reflexivity.
Qed.

End Detour.

(** ** What the detour leaves in the focused application *)

Lemma type_into_app buffer k1 k2 :
  type_into buffer (k1 ++ k2) = type_into (type_into buffer k1) k2.
Proof.
  revert buffer. induction k1 as [| k k1 IH]; intros buffer; simpl; [reflexivity |].
  destruct (k =? BACKSPACE); apply IH.
Qed.

Lemma type_into_plain buffer keys :
  ~ In BACKSPACE keys -> type_into buffer keys = buffer ++ keys.
Proof.
  revert buffer. induction keys as [| k keys IH]; intros buffer Hno; simpl.
  - now rewrite app_nil_r.
  - destruct (Z.eqb_spec k BACKSPACE) as [-> | _].
    + exfalso. apply Hno. now left.
    + rewrite IH by (intros H; apply Hno; now right).
      now rewrite <- app_assoc.
Qed.

Lemma removelast_n_app (buffer extra : str) :
  type_into (buffer ++ extra) (repeat BACKSPACE (length extra)) = buffer.
Proof.
  revert buffer. induction extra as [| x extra IH] using rev_ind; intros buffer; simpl.
  - now rewrite app_nil_r.
  - rewrite length_app, Nat.add_comm. simpl.
    rewrite app_assoc, removelast_last. apply IH.
Qed.

Section DetourFacts.

Variable isalpha : Z -> bool.
Variable self : CharacterTyper.
Variable tape : nat -> Z.

Lemma garble_slip w pos : Forall2 (slip isalpha) w (garble isalpha tape w pos).
Proof.
  revert pos. induction w as [| c w IH]; intros pos; simpl; [constructor |].
  destruct (isalpha c) eqn:Hc; constructor; try apply IH; unfold slip; rewrite Hc.
  - replace (c + pick_offset (tape pos) - c) with (pick_offset (tape pos)) by lia.
    apply pick_offset_In.
  - reflexivity.
Qed.

Lemma garble_no_backspace w pos :
  letters_in_range isalpha w ->
  ~ In BACKSPACE w -> ~ In BACKSPACE (garble isalpha tape w pos).
Proof.
  revert pos. induction w as [| c w IH]; intros pos Hrange Hno; simpl; [tauto |].
  assert (Hc : c <> BACKSPACE) by (intros ->; apply Hno; now left).
  assert (Hw : ~ In BACKSPACE w) by (intros H; apply Hno; now right).
  assert (Hrange' : letters_in_range isalpha w)
    by (intros x Hx; apply Hrange; now right).
  destruct (isalpha c) eqn:Hal; simpl; intros [Heq | Hin].
  - apply Hrange in Hal; [| now left].
    pose proof (pick_offset_In (tape pos)) as Ho.
    unfold BACKSPACE in Heq. simpl in Ho. lia.
  - exact (IH _ Hrange' Hw Hin).
  - congruence.
  - exact (IH _ Hrange' Hw Hin).
Qed.

Lemma keystrokes_no_poll cs ds b : ~ In (Poll b) (keystrokes cs ds).
Proof.
  revert ds. induction cs as [| c cs IH]; intros [| d ds]; simpl; try tauto.
  intros [H | [H | H]]; try discriminate. exact (IH _ H).
Qed.

(** The characters of the detour, in the order they are handed to the
    backend: the typo characters, one backspace for each, the source
    characters. *)
Lemma sends_detour_events text i pos :
  (i < length text)%nat ->
  let n := Z.to_nat (typo_length_at tape text i pos) in
  let w := window text i n in
  sends (detour_events isalpha self tape text i pos)
  = garble isalpha tape w (S pos) ++ repeat BACKSPACE n ++ w.
Proof.
  intros Hi n w. unfold detour_events. fold n. fold w.
  pose proof (typo_length_range tape text i pos Hi) as Hn.
  assert (Hw : length w = n) by (apply window_length; lia).
  rewrite !sends_app. simpl sends at 2.
  rewrite !sends_keystrokes; rewrite ?uniforms_length, ?garble_length, ?repeat_length;
    auto.
Qed.

(** The detour never polls the stop event. *)
Lemma detour_events_no_poll text i pos b :
  ~ In (Poll b) (detour_events isalpha self tape text i pos).
Proof.
  unfold detour_events. rewrite !in_app_iff. simpl.
  intros [H | [[H | []] | [H | H]]]; try discriminate;
    exact (keystrokes_no_poll _ _ _ H).
Qed.

(** The sleeps of the detour: a draw from the typing delay after each
    typo character, the pause, a draw from 0.05 to 0.15 after each
    backspace, a draw from the typing delay after each source character. *)
Lemma sleeps_detour_events text i pos :
  (i < length text)%nat ->
  let n := Z.to_nat (typo_length_at tape text i pos) in
  let p := (pos + 1 + letters isalpha (window text i n))%nat in
  let lo := fst (_typing_delay self) in
  let hi := snd (_typing_delay self) in
  sleeps (detour_events isalpha self tape text i pos)
  = uniforms tape lo hi p n
    ++ [Uniform (1 # 10) (3 # 10) (unit_draw (tape (p + n)%nat))]
    ++ uniforms tape (5 # 100) (15 # 100) (p + n + 1) n
    ++ uniforms tape lo hi (p + n + 1 + n) n.
Proof.
  intros Hi n p lo hi. unfold detour_events. fold n.
  pose proof (typo_length_range tape text i pos Hi) as Hn.
  assert (Hw : length (window text i n) = n) by (apply window_length; lia).
  rewrite !sleeps_app. simpl sleeps at 2.
  rewrite !sleeps_keystrokes; rewrite ?uniforms_length, ?garble_length, ?repeat_length;
    auto.
Qed.

(** In an application without backspaces in the window, the detour
    leaves the window's characters and nothing else. *)
Lemma detour_net_effect text i pos buffer :
  letters_in_range isalpha text ->
  (i < length text)%nat ->
  let w := window text i (Z.to_nat (typo_length_at tape text i pos)) in
  ~ In BACKSPACE w ->
  type_into buffer (sends (detour_events isalpha self tape text i pos)) = buffer ++ w.
Proof.
  intros Hrange Hi w Hno.
  rewrite (sends_detour_events text i pos Hi). fold w.
  pose proof (typo_length_range tape text i pos Hi) as Hn.
  assert (Hw : length w = Z.to_nat (typo_length_at tape text i pos))
    by (apply window_length; lia).
  rewrite !type_into_app.
  rewrite (type_into_plain buffer)
    by (apply garble_no_backspace;
        [intros c Hc; apply Hrange; exact (window_incl _ _ _ _ Hc) | assumption]).
  rewrite <- Hw, <- (garble_length isalpha tape w (S pos)).
  rewrite removelast_n_app. now apply type_into_plain.
Qed.

End DetourFacts.

(** ** One iteration of the typing loop *)

Lemma human_delay_returns self char last_char u :
  delays_in_range self ->
  sleep_raises (human_delay self char last_char u) = Some false.
Proof.
  intros [[Hlo Hlo'] [Hhi Hhi']]. apply sleep_returns.
  - unfold human_delay.
    destruct (char_in char (codes ",;:")), (char_in char (codes ".!?")),
      (eq_last char last_char); simpl; rewrite !Qltb_ge by assumption; reflexivity.
  - unfold human_delay.
    set (lo := fst (_typing_delay self)) in *.
    set (hi := snd (_typing_delay self)) in *.
    unfold SLEEP_MAX, DELAY_MAX in *.
    destruct (char_in char (codes ",;:")), (char_in char (codes ".!?")),
      (eq_last char last_char); cbn [at_most]; unfold py_max;
      destruct (Qltb lo hi); lra.
Qed.

Section Loop.

Variable isalpha : Z -> bool.
Variable self : CharacterTyper.
Variable tape : nat -> Z.
Variable stop : nat -> bool.

Hypothesis Hsend : backend_returns self.

Let lo : Q := fst (_typing_delay self).
Let hi : Q := snd (_typing_delay self).

(** The pause returns: in INSTANT mode there is no sleep, and in the
    other modes the sleep returns when the typing delay is in range. *)
Lemma pause_after_returns char last_char pos now :
  _mode self = INSTANT \/ delays_in_range self ->
  returns tape stop (pause_after self char last_char) pos now tt
          (pause_draws self) (pause_events self tape char last_char pos).
Proof.
  intros Hpause. unfold pause_after, pause_events, pause_draws.
  destruct (_mode self) eqn:Hmode; cbn [TypingMode_eqb].
  - reflexivity.
  - assert (Hd : delays_in_range self)
      by (destruct Hpause; [discriminate | assumption]).
    eapply returns_cast.
    + eapply returns_bind; [apply returns_ret |].
      eapply returns_bind; [| apply returns_ret].
      eapply returns_bind; [apply returns_uniform |].
      apply returns_sleep.
      apply (human_delay_returns self char last_char _ Hd).
    + reflexivity.
    + reflexivity.
    + simpl. now rewrite Nat.add_0_r.
  - assert (Hd : delays_in_range self)
      by (destruct Hpause; [discriminate | assumption]).
    eapply returns_cast.
    + eapply returns_bind; [apply returns_ret |].
      eapply returns_bind; [apply returns_ret |].
      apply returns_sleep. destruct Hd as [[Hlo Hlo'] _].
      apply sleep_returns; [simpl; now rewrite Qltb_ge |].
      unfold at_most, SLEEP_MAX, DELAY_MAX in *. lra.
    + reflexivity.
    + reflexivity.
    + reflexivity.
Qed.

Lemma typing_loop_exit fuel text last_char i pos now :
  (length text <= i)%nat ->
  run tape stop (typing_loop isalpha self fuel text last_char i) pos now
  = {| result := Returned tt; drawn := 0; emitted := [] |}.
Proof.
  intros Hi. destruct fuel as [| fuel]; simpl; [reflexivity |].
  destruct (Nat.ltb_spec i (length text)); [lia | reflexivity].
Qed.

Lemma typing_loop_stopped fuel text last_char i pos now :
  (i < length text)%nat ->
  stop now = true ->
  run tape stop (typing_loop isalpha self (S fuel) text last_char i) pos now
  = {| result := Returned tt; drawn := 0; emitted := [Poll true] |}.
Proof.
  intros Hi Hstop. cbn [typing_loop].
  destruct (Nat.ltb_spec i (length text)); [| lia].
  rewrite (getitem_returns _ _ Hi). cbn [bind].
  rewrite run_bind. rewrite (returns_poll tape stop pos now). simpl.
  rewrite Hstop. reflexivity.
Qed.

(** A character sent directly: the poll, the character, its pause, and
    the loop goes on one character further with [last_char] updated. *)
Lemma typing_loop_direct fuel text last_char i pos now :
  _mode self = INSTANT \/ delays_in_range self ->
  (i < length text)%nat ->
  stop now = false ->
  takes_detour isalpha self tape (nth i text 0) pos = false ->
  run tape stop (typing_loop isalpha self (S fuel) text last_char i) pos now
  = after (Poll false :: Send (nth i text 0)
             :: pause_events self tape (nth i text 0) last_char (S pos))
          (1 + pause_draws self)
          (run tape stop
               (typing_loop isalpha self fuel text (Some (nth i text 0)) (i + 1))
               (pos + (1 + pause_draws self))
               (now + (2 + length (pause_events self tape (nth i text 0) last_char (S pos))))).
Proof.
  intros Hpause Hi Hstop Hdirect. cbn [typing_loop].
  destruct (Nat.ltb_spec i (length text)); [| lia].
  rewrite (getitem_returns _ _ Hi). cbn [bind].
  rewrite run_bind, (returns_poll tape stop pos now). simpl result. cbv iota beta.
  rewrite Hstop. cbn [drawn emitted length].
  rewrite run_bind, (returns_random tape stop). simpl result. cbv iota beta.
  fold (takes_detour isalpha self tape (nth i text 0) (pos + 0)).
  rewrite Nat.add_0_r, Hdirect. cbn [drawn emitted length].
  rewrite run_bind, (returns_call_send_input tape stop self _ _ _ Hsend).
  simpl result. cbv iota beta.
  cbn [drawn emitted length].
  rewrite run_bind.
  rewrite (pause_after_returns (nth i text 0) last_char (pos + 1 + 0) (now + 1 + 0 + 1)
                               Hpause).
  simpl result. cbv iota beta. cbn [drawn emitted].
  rewrite !after_after.
  replace (pos + 1 + 0)%nat with (S pos) by lia.
  f_equal; simpl; try lia; try reflexivity; f_equal; lia.
Qed.

(** A detour: the poll, the detour's events, and the loop goes on past
    the window with [last_char] as it was. *)
Lemma typing_loop_detour fuel text last_char i pos now :
  delays_in_range self ->
  letters_in_range isalpha text ->
  (i < length text)%nat ->
  stop now = false ->
  takes_detour isalpha self tape (nth i text 0) pos = true ->
  run tape stop (typing_loop isalpha self (S fuel) text last_char i) pos now
  = after (Poll false :: detour_events isalpha self tape text i (S pos))
          (1 + detour_draws isalpha tape text i (S pos))
          (run tape stop
               (typing_loop isalpha self fuel text last_char
                            (i + Z.to_nat (typo_length_at tape text i (S pos))))
               (pos + (1 + detour_draws isalpha tape text i (S pos)))
               (now + (1 + length (detour_events isalpha self tape text i (S pos))))).
Proof.
  intros Hdelay Hok Hi Hstop Hdetour. cbn [typing_loop].
  destruct (Nat.ltb_spec i (length text)); [| lia].
  rewrite (getitem_returns _ _ Hi). cbn [bind].
  rewrite run_bind, (returns_poll tape stop pos now). simpl result. cbv iota beta.
  rewrite Hstop. cbn [drawn emitted length].
  rewrite run_bind, (returns_random tape stop). simpl result. cbv iota beta.
  fold (takes_detour isalpha self tape (nth i text 0) (pos + 0)).
  rewrite Nat.add_0_r, Hdetour. cbn [drawn emitted length].
  rewrite run_bind.
  rewrite (simulate_typo_returns isalpha self tape stop Hdelay Hsend
             text i (pos + 1) (now + 1 + 0) Hok Hi).
  simpl result. cbv iota beta. cbn [drawn emitted].
  rewrite !after_after.
  replace (pos + 1)%nat with (S pos) by lia.
  f_equal; simpl; try lia; try reflexivity; f_equal; lia.
Qed.

End Loop.

(** ** The iterations of a run *)

Section Itinerary.

Variable isalpha : Z -> bool.
Variable self : CharacterTyper.
Variable tape : nat -> Z.
Variable stop : nat -> bool.

Hypothesis Hdelay : delays_in_range self.
Hypothesis Hsend : backend_returns self.

(** With a typing delay in range and a backend that returns,
    the loop returns, and its events are those of a sequence of
    iterations; [len(text) - i] units of fuel are enough. *)
Lemma typing_loop_steps text :
  letters_in_range isalpha text ->
  forall fuel last_char i pos now,
    (length text - i <= fuel)%nat ->
    exists its k,
      run tape stop (typing_loop isalpha self fuel text last_char i) pos now
      = {| result := Returned tt; drawn := k; emitted := itinerary_events its |}
      /\ loop_steps isalpha self tape stop text last_char i pos now its k.
Proof.
  intros Hok. induction fuel as [| fuel IH]; intros last_char i pos now Hfuel.
  - exists [], 0%nat. split; [| constructor; lia].
    apply typing_loop_exit. lia.
  - destruct (Nat.lt_ge_cases i (length text)) as [Hi | Hi].
    2: { exists [], 0%nat. split; [| constructor; lia].
         apply typing_loop_exit. lia. }
    destruct (stop now) eqn:Hstop.
    { exists [Halt i], 0%nat. split; [| now constructor].
      now apply typing_loop_stopped. }
    destruct (takes_detour isalpha self tape (nth i text 0) pos) eqn:Hd.
    + pose proof (typo_length_range tape text i (S pos) Hi) as Hn.
      destruct (IH last_char
                   (i + Z.to_nat (typo_length_at tape text i (S pos)))%nat
                   (pos + (1 + detour_draws isalpha tape text i (S pos)))%nat
                   (now + (1 + length (detour_events isalpha self tape text i (S pos))))%nat)
        as (its & k & Hrun & Hsteps); [lia |].
      eexists (Detour i _ _ :: its), _. split.
      * rewrite (typing_loop_detour isalpha self tape stop Hsend
                   fuel text last_char i pos now Hdelay Hok Hi Hstop Hd).
        rewrite Hrun. unfold after. simpl. reflexivity.
      * now apply steps_detour.
    + destruct (IH (Some (nth i text 0)) (i + 1)%nat
                   (pos + (1 + pause_draws self))%nat
                   (now + (2 + length (pause_events self tape (nth i text 0%Z)
                                                    last_char (S pos))))%nat)
        as (its & k & Hrun & Hsteps); [lia |].
      eexists (Direct i _ _ _ :: its), _. split.
      * rewrite (typing_loop_direct isalpha self tape stop Hsend
                   fuel text last_char i pos now (or_intror Hdelay) Hi Hstop Hd).
        rewrite Hrun. unfold after. simpl. reflexivity.
      * now apply steps_direct.
Qed.

(** The worker returns, and its events are those of a sequence of
    iterations from the start of the text. *)
Lemma simulate_typing_steps text pos now :
  letters_in_range isalpha text ->
  exists its k,
    run tape stop (_simulate_typing isalpha self text) pos now
    = {| result := Returned tt; drawn := k; emitted := itinerary_events its |}
    /\ loop_steps isalpha self tape stop text None 0 pos now its k.
Proof.
  intros Hok. unfold _simulate_typing. apply typing_loop_steps; [exact Hok | lia].
Qed.

(** The iterations of a run are determined by where it starts. *)
Lemma loop_steps_deterministic text last_char i pos now its k :
  loop_steps isalpha self tape stop text last_char i pos now its k ->
  forall its' k',
    loop_steps isalpha self tape stop text last_char i pos now its' k' ->
    its = its' /\ k = k'.
Proof.
  induction 1 as [| | ? ? ? ? ? ? char pause Hi Hs Hd Hrest IH
                  | ? ? ? ? ? ? n evs draws Hi Hs Hd Hrest IH];
    intros its' k' H'; inversion H'; subst; try lia; try congruence;
    try (split; reflexivity);
    repeat match goal with x := _ |- _ => subst x end;
    try congruence;
    match goal with
    | Hsub : loop_steps _ _ _ _ _ _ _ _ _ ?a ?b |- _ =>
        destruct (IH a b Hsub) as [-> ->]; split; reflexivity
    end.
Qed.

(** Any amount of fuel from [len(text) - i] on gives the same run: the
    loop never stops for lack of fuel. *)
Lemma typing_loop_fuel text fuel fuel' last_char i pos now :
  letters_in_range isalpha text ->
  (length text - i <= fuel)%nat ->
  (length text - i <= fuel')%nat ->
  run tape stop (typing_loop isalpha self fuel text last_char i) pos now
  = run tape stop (typing_loop isalpha self fuel' text last_char i) pos now.
Proof.
  intros Hok Hfuel Hfuel'.
  destruct (typing_loop_steps text Hok fuel last_char i pos now Hfuel)
    as (its & k & -> & Hsteps).
  destruct (typing_loop_steps text Hok fuel' last_char i pos now Hfuel')
    as (its' & k' & -> & Hsteps').
  destruct (loop_steps_deterministic _ _ _ _ _ _ _ Hsteps _ _ Hsteps') as [-> ->].
  reflexivity.
Qed.

End Itinerary.

(** ** The engine keeps one worker at a time *)

Lemma set_nth_length {X : Type} n (x : X) l : length (set_nth n x l) = length l.
Proof.
  revert n. induction l as [| y l IH]; intros [| n]; simpl; try reflexivity.
  now rewrite IH.
Qed.

Lemma nth_error_set_nth_eq {X : Type} n (x : X) l :
  (n < length l)%nat -> nth_error (set_nth n x l) n = Some x.
Proof.
  revert n. induction l as [| y l IH]; intros [| n] H; simpl in *; try lia.
  - reflexivity.
  - apply IH. lia.
Qed.

Lemma nth_error_set_nth_neq {X : Type} n m (x : X) l :
  n <> m -> nth_error (set_nth n x l) m = nth_error l m.
Proof.
  revert n m. induction l as [| y l IH]; intros [| n] [| m] H; simpl; try reflexivity.
  - congruence.
  - apply IH. congruence.
Qed.

Lemma filter_none {X : Type} (f : X -> bool) l :
  (forall x, In x l -> f x = false) -> filter f l = [].
Proof.
  induction l as [| y l IH]; intros H; simpl; [reflexivity |].
  rewrite (H y) by now left. apply IH. intros x Hx. apply H. now right.
Qed.

Lemma filter_last_only {X : Type} (f : X -> bool) l :
  (forall n x, nth_error l n = Some x -> f x = true -> S n = length l) ->
  (length (filter f l) <= 1)%nat.
Proof.
  induction l as [| x0 l _] using rev_ind; intros H; [simpl; lia |].
  rewrite filter_app, length_app.
  rewrite (filter_none f l).
  - simpl. destruct (f x0); simpl; lia.
  - intros x Hx. destruct (f x) eqn:Hfx; [| reflexivity].
    destruct (In_nth_error _ _ Hx) as [n Hn].
    assert (Hlt : (n < length l)%nat) by (apply nth_error_Some; congruence).
    specialize (H n x). rewrite nth_error_app1 in H by exact Hlt.
    specialize (H Hn Hfx). rewrite length_app in H. simpl in H. lia.
Qed.

Lemma in_call_order_snoc owners tid :
  in_call_order owners ->
  (forall a, In a owners -> (a <= tid)%nat) ->
  in_call_order (owners ++ [tid]).
Proof.
  intros Hord Hmax p q a b Hpq Hp Hq.
  assert (Hqlen : (q < length (owners ++ [tid]))%nat)
    by (apply nth_error_Some; congruence).
  rewrite length_app in Hqlen; simpl in Hqlen.
  rewrite nth_error_app1 in Hp by lia.
  destruct (Nat.eq_dec q (length owners)) as [-> | Hne].
  - rewrite nth_error_app2, Nat.sub_diag in Hq by lia. simpl in Hq.
    injection Hq as <-. apply Hmax. eapply nth_error_In; eauto.
  - rewrite nth_error_app1 in Hq by lia. eauto.
Qed.

Lemma well_formed_no_thread_alive e :
  well_formed e -> typing_thread_alive e = false ->
  forall tid t, nth_error (threads e) tid = Some t -> is_alive t = false.
Proof.
  intros Hwf Hdead tid t Ht.
  destruct (is_alive t) eqn:Halive; [| reflexivity].
  destruct (wf_alive e Hwf tid t Ht Halive) as [Hcur _].
  unfold typing_thread_alive in Hdead. rewrite Hcur, Ht in Hdead. congruence.
Qed.

Section EngineFacts.

Variable isalpha : Z -> bool.
Variable tape : nat -> Z.

Lemma well_formed_engine_of self : well_formed (engine_of self).
Proof.
  constructor; simpl.
  - intros [| tid] t H; discriminate H.
  - intros tid [].
  - intros p q a b _ Hp. destruct p; discriminate Hp.
Qed.

Lemma well_formed_with_caller c e : well_formed e -> well_formed (with_caller c e).
Proof. intros [H1 H2 H3]. constructor; simpl; assumption. Qed.

Lemma well_formed_start_typing text e :
  well_formed e -> typing_thread_alive e = false ->
  well_formed (start_typing isalpha text e).
Proof.
  intros Hwf Hdead. pose proof (well_formed_no_thread_alive e Hwf Hdead) as Hnone.
  destruct Hwf as [H1 H2 H3]. constructor; simpl.
  - intros tid t Ht Halive.
    destruct (Nat.lt_ge_cases tid (length (threads e))) as [Hlt | Hge].
    + rewrite nth_error_app1 in Ht by exact Hlt.
      rewrite (Hnone tid t Ht) in Halive. discriminate.
    + assert (Hlen : (tid < length (threads e ++ [_simulate_typing isalpha (typer e) text]))%nat)
        by (apply nth_error_Some; congruence).
      rewrite length_app in *. simpl in *.
      assert (tid = length (threads e)) by lia. subst tid. split; [reflexivity | lia].
  - intros tid Hin. rewrite length_app. simpl.
    specialize (H2 tid Hin). lia.
  - exact H3.
Qed.

(** A thread that is alive goes on, or ends. *)
Lemma well_formed_continue tid e c k t draws evs :
  well_formed e -> nth_error (threads e) tid = Some (Vis c k) ->
  well_formed (continue tid e t draws evs).
Proof.
  intros Hwf Ht.
  destruct (wf_alive e Hwf tid (Vis c k) Ht eq_refl) as [Hcur Hlast].
  assert (Htid : (tid < length (threads e))%nat) by lia.
  destruct Hwf as [H1 H2 H3]. constructor; simpl.
  - intros tid' t' Ht' Halive. rewrite set_nth_length.
    destruct (Nat.eq_dec tid tid') as [<- | Hne].
    + split; [exact Hcur | exact Hlast].
    + rewrite nth_error_set_nth_neq in Ht' by exact Hne. eauto.
  - intros tid'. unfold log_owners. simpl. rewrite set_nth_length, map_app, in_app_iff.
    intros [Hin | Hin]; [now apply H2 |].
    rewrite map_map in Hin. simpl in Hin. apply in_map_iff in Hin.
    destruct Hin as (_ & <- & _). exact Htid.
  - unfold log_owners in *. simpl. rewrite map_app, map_map. simpl.
    clear - H2 H3 Hlast. induction evs as [| ev evs IH] using rev_ind; simpl.
    + now rewrite app_nil_r.
    + rewrite map_app, app_assoc. simpl. apply in_call_order_snoc; [exact IH |].
      intros a Ha. apply in_app_iff in Ha. destruct Ha as [Ha | Ha].
      * specialize (H2 a Ha). lia.
      * apply in_map_iff in Ha. destruct Ha as (_ & <- & _). lia.
Qed.

Lemma well_formed_worker_step tid e e' :
  well_formed e -> worker_step tape tid e = Some e' -> well_formed e'.
Proof.
  intros Hwf Hstep. unfold worker_step in Hstep.
  destruct (nth_error (threads e) tid) as [[a | x | c k] |] eqn:Ht; try discriminate.
  destruct c as [ch | d | |]; injection Hstep as <-;
    try destruct (sleep_raises d) as [[|] |];
    eapply well_formed_continue; eassumption.
Qed.

Lemma well_formed_sleep_raises_step tid exn e e' :
  well_formed e -> sleep_raises_step tid exn e = Some e' -> well_formed e'.
Proof.
  intros Hwf Hstep. unfold sleep_raises_step in Hstep.
  destruct (nth_error (threads e) tid) as [[a | x | [ch | d | |] k] |] eqn:Ht;
    try discriminate.
  destruct (sleep_raises d); [discriminate |].
  destruct exn; try discriminate; injection Hstep as <-;
    eapply well_formed_continue; eassumption.
Qed.

Lemma well_formed_perform a e e' :
  well_formed e -> perform isalpha tape a e = Some e' -> well_formed e'.
Proof.
  intros Hwf Hp. unfold perform in Hp.
  destruct a; destruct (caller e); try discriminate;
    try (eapply well_formed_worker_step; eassumption);
    try (eapply well_formed_sleep_raises_step; eassumption);
    try (destruct (typing_thread_alive e) eqn:Hdead; try discriminate);
    injection Hp as <-;
    try (now apply well_formed_with_caller);
    try (now apply well_formed_start_typing).
  all: destruct Hwf as [H1 H2 H3]; constructor; simpl; assumption.
Qed.

Lemma well_formed_reachable self e :
  reachable isalpha tape self e -> well_formed e.
Proof.
  intros [acts Hacts]. revert Hacts.
  generalize (well_formed_engine_of self). generalize (engine_of self).
  induction acts as [| a acts IH]; intros e0 Hwf Hacts; simpl in Hacts.
  - now injection Hacts as <-.
  - destruct (perform isalpha tape a e0) as [e1 |] eqn:Hp; [| discriminate].
    eapply IH; [| exact Hacts]. eapply well_formed_perform; eassumption.
Qed.

(** At most one thread is alive. *)
Lemma well_formed_one_alive e :
  well_formed e -> (length (alive_threads e) <= 1)%nat.
Proof.
  intros Hwf. unfold alive_threads. apply filter_last_only.
  intros n t Ht Halive. now destruct (wf_alive e Hwf n t Ht Halive).
Qed.

End EngineFacts.

(** ** What holds of every iteration *)

Lemma Qltb_lt a b : Qltb a b = true <-> (a < b)%Q.
Proof.
  unfold Qltb. rewrite Qlt_alt. destruct (a ?= b)%Q; split; congruence.
Qed.

Lemma sends_skipn_le k evs : (length (sends (skipn k evs)) <= length (sends evs))%nat.
Proof.
  revert k. induction evs as [| e evs IH]; intros [| k]; simpl; try lia.
  specialize (IH k). destruct e; simpl; lia.
Qed.

Section Steps.

Variable isalpha : Z -> bool.
Variable self : CharacterTyper.
Variable tape : nat -> Z.
Variable stop : nat -> bool.

Lemma takes_detour_iff char pos :
  takes_detour isalpha self tape char pos = true
  <-> (unit_draw (tape pos) < _error_rate self)%Q /\ isalpha char = true.
Proof.
  unfold takes_detour. rewrite andb_true_iff, Qltb_lt. reflexivity.
Qed.

Lemma pause_events_no_poll char last_char pos b :
  ~ In (Poll b) (pause_events self tape char last_char pos).
Proof.
  unfold pause_events. destruct (_mode self); simpl; intros H;
    repeat destruct H as [H | H]; try discriminate; exact H.
Qed.

Lemma pause_events_sends char last_char pos :
  sends (pause_events self tape char last_char pos) = [].
Proof. unfold pause_events. destruct (_mode self); reflexivity. Qed.

Lemma detour_sends_length text i pos :
  (i < length text)%nat ->
  length (sends (detour_events isalpha self tape text i pos))
  = (3 * Z.to_nat (typo_length_at tape text i pos))%nat.
Proof.
  intros Hi. rewrite (sends_detour_events isalpha self tape text i pos Hi).
  pose proof (typo_length_range tape text i pos Hi) as Hn.
  rewrite !length_app, garble_length, repeat_length, window_length; lia.
Qed.


Lemma loop_steps_no_letters text last_char i pos now its k :
  (forall c, In c text -> isalpha c = false) ->
  loop_steps isalpha self tape stop text last_char i pos now its k ->
  Forall (fun it => is_detour it = false) its.
Proof.
  intros Hno.
  induction 1 as [| | ? ? ? ? ? ? char pause Hi Hs Hd _ IH
                  | ? ? ? ? ? ? n evs draws Hi Hs Hd _ IH];
    repeat constructor; try exact IH.
  apply takes_detour_iff in Hd. destruct Hd as [_ Hd].
  rewrite Hno in Hd by now apply nth_In. discriminate.
Qed.

Lemma loop_steps_rate_zero text last_char i pos now its k :
  (_error_rate self <= 0)%Q ->
  loop_steps isalpha self tape stop text last_char i pos now its k ->
  Forall (fun it => is_detour it = false) its.
Proof.
  intros Hrate.
  induction 1 as [| | ? ? ? ? ? ? char pause Hi Hs Hd _ IH
                  | ? ? ? ? ? ? n evs draws Hi Hs Hd _ IH];
    repeat constructor; try exact IH.
  apply takes_detour_iff in Hd. destruct Hd as [Hd _].
  destruct (unit_draw_range (tape pos)) as [H0 _].
  exfalso. apply (Qlt_irrefl 0).
  eapply Qle_lt_trans; [exact H0 |]. eapply Qlt_le_trans; eassumption.
Qed.

Lemma loop_steps_polls_once text last_char i pos now its k :
  loop_steps isalpha self tape stop text last_char i pos now its k ->
  Forall polls_once its.
Proof.
  induction 1 as [| | ? ? ? ? ? ? char pause Hi Hs Hd _ IH
                  | ? ? ? ? ? ? n evs draws Hi Hs Hd _ IH].
  - constructor.
  - constructor; [exact I | constructor].
  - constructor; [| exact IH]. split.
    + intros b. apply pause_events_no_poll.
    + apply pause_events_sends.
  - constructor; [| exact IH]. unfold polls_once.
    destruct (typo_length_range tape text i (S pos) Hi) as [Hn1 Hn2].
    split; [| split].
    + intros b. apply detour_events_no_poll.
    + subst evs n. now apply detour_sends_length.
    + subst n. lia.
Qed.

(** Nothing follows the iteration that saw the stop event set. *)
Lemma loop_steps_halt_last text last_char i pos now its k :
  loop_steps isalpha self tape stop text last_char i pos now its k ->
  forall its1 j its2, its = its1 ++ Halt j :: its2 -> its2 = [].
Proof.
  induction 1 as [| | ? ? ? ? ? ? char pause Hi Hs Hd _ IH
                  | ? ? ? ? ? ? n evs draws Hi Hs Hd _ IH];
    intros its1 j its2 Heq.
  - destruct its1; discriminate Heq.
  - destruct its1 as [| x [| y its1]]; try discriminate Heq.
    now injection Heq as _ <-.
  - destruct its1 as [| x its1]; [discriminate Heq |].
    injection Heq as _ Heq. eauto.
  - destruct its1 as [| x its1]; [discriminate Heq |].
    injection Heq as _ Heq. eauto.
Qed.

Lemma loop_steps_pauses text last_char i pos now its k p :
  (forall char last pos', pause_events self tape char last pos' = p) ->
  loop_steps isalpha self tape stop text last_char i pos now its k ->
  Forall (pauses_with p) its.
Proof.
  intros Hp.
  induction 1 as [| | ? ? ? ? ? ? char pause Hi Hs Hd _ IH
                  | ? ? ? ? ? ? n evs draws Hi Hs Hd _ IH];
    repeat constructor; try exact IH.
  subst pause. apply Hp.
Qed.

(** Once the stop event is seen set, the loop sends nothing more. *)
Lemma loop_steps_stopped text last_char i pos now its k :
  stop now = true ->
  loop_steps isalpha self tape stop text last_char i pos now its k ->
  sends (itinerary_events its) = [].
Proof.
  intros Hstop Hsteps. inversion Hsteps; subst; try reflexivity; congruence.
Qed.

(** When the stop event is set from time [t0] on, the injections made
    from then on are those of one iteration at most. *)
Lemma loop_steps_after_stop bound t0 text last_char i pos now its k :
  (forall t, (t0 <= t)%nat -> stop t = true) ->
  loop_steps isalpha self tape stop text last_char i pos now its k ->
  Forall (fun it => (length (sends (iteration_events it)) <= bound)%nat) its ->
  (length (sends (skipn (t0 - now) (itinerary_events its))) <= bound)%nat.
Proof.
  intros Hset.
  induction 1 as [| | ? ? ? ? ? ? char pause Hi Hs Hd Hrest IH
                  | ? ? ? ? ? ? n evs draws Hi Hs Hd Hrest IH];
    intros Hbound.
  - rewrite skipn_nil. simpl. lia.
  - etransitivity; [apply sends_skipn_le |]. simpl. lia.
  - inversion Hbound as [| ? ? Hit Hits]; subst.
    change (itinerary_events (Direct i char last_char pause :: its))
      with ((Poll false :: Send char :: pause) ++ itinerary_events its).
    destruct (Nat.lt_ge_cases (now + (2 + length pause)) t0) as [Hlt | Hge].
    + rewrite skipn_app, skipn_all2 by (simpl length; lia). rewrite app_nil_l.
      replace (t0 - now - length (Poll false :: Send char :: pause))%nat
        with (t0 - (now + (2 + length pause)))%nat by (simpl length; lia).
      now apply IH.
    + etransitivity; [apply sends_skipn_le |].
      rewrite sends_app, (loop_steps_stopped _ _ _ _ _ _ _ (Hset _ Hge) Hrest).
      now rewrite app_nil_r.
  - inversion Hbound as [| ? ? Hit Hits]; subst.
    change (itinerary_events (Detour i n evs :: its))
      with ((Poll false :: evs) ++ itinerary_events its).
    destruct (Nat.lt_ge_cases (now + (1 + length evs)) t0) as [Hlt | Hge].
    + rewrite skipn_app, skipn_all2 by (simpl length; lia). rewrite app_nil_l.
      replace (t0 - now - length (Poll false :: evs))%nat
        with (t0 - (now + (1 + length evs)))%nat by (simpl length; lia).
      now apply IH.
    + etransitivity; [apply sends_skipn_le |].
      rewrite sends_app, (loop_steps_stopped _ _ _ _ _ _ _ (Hset _ Hge) Hrest).
      now rewrite app_nil_r.
Qed.

Lemma polls_once_bound it :
  polls_once it -> (length (sends (iteration_events it)) <= 9)%nat.
Proof.
  destruct it as [i c l pause | i n evs | i]; simpl.
  - intros [_ ->]. simpl. lia.
  - intros (_ & -> & Hn). lia.
  - lia.
Qed.

Lemma direct_bound it :
  polls_once it -> is_detour it = false ->
  (length (sends (iteration_events it)) <= 1)%nat.
Proof.
  destruct it as [i c l pause | i n evs | i]; simpl.
  - intros [_ ->] _. simpl. lia.
  - discriminate.
  - lia.
Qed.

(** In INSTANT mode a run without detours does not look at the typing
    delay: it is the same run for any other delay range, negative
    numbers included. *)
Lemma instant_ignores_delay text last_char i pos now its k :
  backend_returns self ->
  _mode self = INSTANT ->
  loop_steps isalpha self tape stop text last_char i pos now its k ->
  Forall (fun it => is_detour it = false) its ->
  forall min_delay max_delay fuel,
    (length text - i <= fuel)%nat ->
    run tape stop
        (typing_loop isalpha (set_typing_speed self min_delay max_delay)
                     fuel text last_char i) pos now
    = {| result := Returned tt; drawn := k; emitted := itinerary_events its |}.
Proof.
  intros Hsend Hmode.
  induction 1 as [| | ? ? ? ? ? ? char pause Hi Hs Hd Hrest IH
                  | ? ? ? ? ? ? n evs draws Hi Hs Hd Hrest IH];
    intros Hplain min_delay max_delay fuel Hfuel.
  - now apply typing_loop_exit.
  - destruct fuel as [| fuel]; [lia |]. now apply typing_loop_stopped.
  - destruct fuel as [| fuel]; [lia |].
    inversion Hplain as [| ? ? _ Hplain']; subst.
    assert (Hp : forall s, _mode s = INSTANT ->
                           pause_events s tape char last_char (S pos) = []
                           /\ pause_draws s = 0%nat).
    { intros s Hs'. unfold pause_events, pause_draws. now rewrite Hs'. }
    destruct (Hp self Hmode) as [Hp1 Hp2].
    destruct (Hp (set_typing_speed self min_delay max_delay) Hmode) as [Hq1 Hq2].
    rewrite (typing_loop_direct isalpha (set_typing_speed self min_delay max_delay)
               tape stop Hsend fuel text last_char i pos now (or_introl Hmode)
               Hi Hs Hd).
    fold char. rewrite Hq1, Hq2.
    subst pause. rewrite Hp1, Hp2 in IH. rewrite Hp1, Hp2.
    rewrite (IH Hplain' min_delay max_delay fuel) by lia.
    unfold after. simpl. reflexivity.
  - inversion Hplain as [| ? ? Hit _]; subst. discriminate Hit.
Qed.

End Steps.

(** ** What the Windows backend delivers *)

Lemma windows_backend_returns self :
  _send_input self = WindowsBackend -> backend_returns self.
Proof. intros Hwin char. now rewrite Hwin. Qed.

(** A character that fits the scan field arrives as it is. *)
Lemma key_char_windows c :
  0 <= c < 65536 -> flat_map key_char (_windows_send_input c) = [c].
Proof.
  intros Hc. unfold _windows_send_input.
  destruct (Z.eqb_spec c NEWLINE) as [-> | Hne].
  - reflexivity.
  - unfold flat_map, key_char. cbn [wVk wScan dwFlags].
    replace (WORD c) with c
      by (unfold WORD; rewrite Z.mod_small; [reflexivity | change (2 ^ 16) with 65536; lia]).
    reflexivity.
Qed.

Lemma received_windows self cs :
  _send_input self = WindowsBackend ->
  Forall (fun c => 0 <= c < 65536) cs ->
  received self cs = cs.
Proof.
  intros Hwin. unfold received. rewrite Hwin. cbn [backend_send fst].
  induction 1 as [| c cs Hc _ IH]; [reflexivity |].
  cbn [flat_map]. rewrite flat_map_app, IH.
  now rewrite (key_char_windows c Hc).
Qed.

Lemma garble_fits isalpha tape w pos :
  letters_in_range isalpha w -> fits_scan_code isalpha w ->
  Forall (fun c => 0 <= c < 65536) (garble isalpha tape w pos).
Proof.
  revert pos. induction w as [| c w IH]; intros pos Hrange Hfit; simpl; [constructor |].
  assert (Hrange' : letters_in_range isalpha w)
    by (intros x Hx; apply Hrange; now right).
  assert (Hfit' : fits_scan_code isalpha w)
    by (intros x Hx; apply Hfit; now right).
  destruct (Hfit c (or_introl eq_refl)) as [Hc Hup].
  destruct (isalpha c) eqn:Hal; constructor; auto.
  specialize (Hup eq_refl). specialize (Hrange c (or_introl eq_refl) Hal).
  pose proof (pick_offset_In (tape pos)) as Ho. simpl in Ho. lia.
Qed.

Lemma fits_scan_code_window isalpha text i n :
  fits_scan_code isalpha text -> fits_scan_code isalpha (window text i n).
Proof. intros Hfit c Hc. apply Hfit. exact (window_incl _ _ _ _ Hc). Qed.

Lemma letters_in_range_window isalpha text i n :
  letters_in_range isalpha text -> letters_in_range isalpha (window text i n).
Proof. intros Hok c Hc. apply Hok. exact (window_incl _ _ _ _ Hc). Qed.

(** The characters of a detour over a window that fits the scan field
    fit it too. *)
Lemma detour_sends_fit isalpha self tape text i pos :
  (i < length text)%nat ->
  let w := window text i (Z.to_nat (typo_length_at tape text i pos)) in
  letters_in_range isalpha w -> fits_scan_code isalpha w ->
  Forall (fun c => 0 <= c < 65536)
         (sends (detour_events isalpha self tape text i pos)).
Proof.
  intros Hi w Hrange Hfit.
  rewrite (sends_detour_events isalpha self tape text i pos Hi). fold w.
  apply Forall_app. split; [now apply garble_fits |].
  apply Forall_app. split.
  - apply Forall_forall. intros c Hc. apply repeat_spec in Hc. subst c.
    unfold BACKSPACE. lia.
  - apply Forall_forall. intros c Hc. now apply Hfit.
Qed.

(** * The claims *)

Lemma ascii_fits_scan_code text :
  Forall (fun c => 0 <= c < 128) text -> fits_scan_code ascii_isalpha text.
Proof.
  intros Hall c Hc. rewrite Forall_forall in Hall. specialize (Hall c Hc). lia.
Qed.

Lemma ascii_letters_in_range text : letters_in_range ascii_isalpha text.
Proof.
  intros c _ Hc. unfold ascii_isalpha in Hc.
  apply orb_true_iff in Hc. destruct Hc as [Hc | Hc];
    apply andb_true_iff in Hc; destruct Hc as [H1 H2];
    apply Z.leb_le in H1; apply Z.leb_le in H2; lia.
Qed.

(** ** Configuration *)

Lemma py_max_Qmax a b : py_max a b = Qmax a b.
Proof.
  unfold py_max, Qltb, Qmax, GenericMinMax.gmax.
  destruct (a ?= b)%Q; reflexivity.
Qed.

Lemma py_min_Qmin a b : py_min a b = Qmin a b.
Proof.
  unfold py_min, Qltb, Qmin, GenericMinMax.gmin.
  rewrite <- (Qcompare_antisym a b).
  destruct (a ?= b)%Q; reflexivity.
Qed.

(** C7. For every number [x], the error rate read after
    [set_error_rate(x)] is [max(0, min(1, x))]: it lies between 0 and 1,
    and the call returns for every [x] (nothing raises). *)
Theorem set_error_rate_clamps (self : CharacterTyper) (x : Q) :
  _error_rate (set_error_rate self x) = Qmax 0 (Qmin 1 x)
  /\ (0 <= _error_rate (set_error_rate self x) <= 1)%Q.
Proof.
  simpl. rewrite py_max_Qmax, py_min_Qmin. split; [reflexivity |].
  split.
  - apply Q.le_max_l.
  - apply Q.max_lub; [discriminate | apply Q.le_min_l].
Qed.

(** C10. [set_typing_speed(min_delay, max_delay)] stores the pair as
    given, whatever the two numbers are (negative, or the first above the
    second), touches nothing else and returns. *)
Theorem set_typing_speed_stores (self : CharacterTyper) (min_delay max_delay : Q) :
  _typing_delay (set_typing_speed self min_delay max_delay) = (min_delay, max_delay)
  /\ _error_rate (set_typing_speed self min_delay max_delay) = _error_rate self
  /\ _mode (set_typing_speed self min_delay max_delay) = _mode self
  /\ _send_input (set_typing_speed self min_delay max_delay) = _send_input self.
Proof. repeat split. Qed.

(** ** The backends *)




(** On a display that has the three attributes, the X11 backend returns:
    the newline goes out under the keysym 0xFF0D, any other character
    under the keysym the display gives for it, or its code point when it
    gives none. *)
Lemma _x11_send_input_complete display lookup c :
  keysym display = Some lookup ->
  _key_press_event display = true ->
  _key_release_event display = true ->
  _x11_send_input display c =
  let k := if c =? NEWLINE then 65293
           else if lookup c =? 0 then c
           else lookup c in
  ([ XGetInputFocus; XSync;
     XKeyPress (keysym_to_keycode display k);
     OsSleep (1 # 100);
     XKeyRelease (keysym_to_keycode display k);
     XSync ], None).
Proof.
  intros Hk Hp Hr. unfold _x11_send_input. rewrite Hk, Hp, Hr.
  destruct (c =? NEWLINE); reflexivity.
Qed.

(** ** The typo detour *)

(** C1, as stated, fails when the window holds the backspace character
    itself.  On the text ["ab\x08"] with the cursor on ["b"] and a window
    of two, the detour sends ["c"] and the copied ["\x08"], two
    backspaces, then ["b"] and ["\x08"] again.  The parts of the claim
    about the injected sequence hold here, but an application that showed
    ["a"] ends up empty, where typing the window directly leaves ["a"]:
    the copied backspace has already removed the typo ["c"], so the two
    correcting backspaces remove the ["a"] typed before the detour. *)
Lemma typo_detour_backspace_in_window :
  result backspace_window_run = Returned 2
  /\ sends (emitted backspace_window_run) = [99; 8; 8; 8; 98; 8]
  /\ window [97; 98; 8] 1 2 = [98; 8]
  /\ type_into [97] (sends (emitted backspace_window_run)) = []
  /\ type_into [97] (window [97; 98; 8] 1 2) = [97]
  /\ type_into [97] (sends (emitted backspace_window_run))
     <> type_into [97] (window [97; 98; 8] 1 2)
  /\ type_into [97] (sends (emitted backspace_window_run))
     <> [97] ++ window [97; 98; 8] 1 2
  /\ received fresh_typer (sends (emitted backspace_window_run))
     = sends (emitted backspace_window_run).
Proof. repeat split; try reflexivity; discriminate. Qed.

(** C1, amended.  With a typing delay in range and a backend
    that returns, a detour at cursor [i] returns its window length [n],
    between 1 and [min(3, len(text) - i)], and hands to the backend, in
    this order and without polling the stop event: [n] typo characters
    (a letter of the window moved by one of -2, -1, +1, +2, any other
    character as it is), [n] backspaces, the [n] characters of the window.
    When the backend is the Windows one, the characters of the window and
    their typos fit its 16-bit scan field, and no character of the window
    is the backspace, the key events of the detour leave in the focused
    application what it had, followed by the window.  In the loop the
    detour is followed by the iteration for cursor [i + n], with
    [last_char] unchanged: the window is not dispatched again. *)
Theorem typo_detour_structure
        (isalpha : Z -> bool) (self : CharacterTyper)
        (tape : nat -> Z) (stop : nat -> bool)
        (text : str) (i pos now : nat) :
  delays_in_range self ->
  backend_returns self ->
  letters_in_range isalpha text ->
  (i < length text)%nat ->
  exists (n : nat) (typo : str),
    result (run tape stop (_simulate_typo isalpha self text i) pos now)
    = Returned (Z.of_nat n)
    /\ (1 <= n <= Nat.min 3 (length text - i))%nat
    /\ Forall2 (slip isalpha) (window text i n) typo
    /\ sends (emitted (run tape stop (_simulate_typo isalpha self text i) pos now))
       = typo ++ repeat BACKSPACE n ++ window text i n
    /\ (forall b,
           ~ In (Poll b)
             (emitted (run tape stop (_simulate_typo isalpha self text i) pos now)))
    /\ (_send_input self = WindowsBackend ->
        fits_scan_code isalpha (window text i n) ->
        ~ In BACKSPACE (window text i n) ->
        forall buffer,
          type_into buffer
            (received self
               (sends (emitted (run tape stop (_simulate_typo isalpha self text i)
                                    pos now))))
          = buffer ++ window text i n)
    /\ (forall fuel last_char pos0 now0,
           pos = S pos0 -> now = S now0 ->
           stop now0 = false ->
           takes_detour isalpha self tape (nth i text 0) pos0 = true ->
           run tape stop (typing_loop isalpha self (S fuel) text last_char i) pos0 now0
           = after
               (Poll false
                  :: emitted (run tape stop (_simulate_typo isalpha self text i) pos now))
               (1 + drawn (run tape stop (_simulate_typo isalpha self text i) pos now))
               (run tape stop
                    (typing_loop isalpha self fuel text last_char (i + n))
                    (pos0 + (1 + drawn (run tape stop
                                            (_simulate_typo isalpha self text i) pos now)))
                    (now0 + (1 + length (emitted (run tape stop
                                            (_simulate_typo isalpha self text i) pos now)))))).
Proof.
  intros Hdelay Hsend Hok Hi.
  pose proof (simulate_typo_returns isalpha self tape stop Hdelay Hsend
                                    text i pos now Hok Hi) as Hrun.
  unfold returns in Hrun. rewrite Hrun. cbn [result emitted drawn].
  destruct (typo_length_range tape text i pos Hi) as [Hn1 Hn2].
  exists (Z.to_nat (typo_length_at tape text i pos)),
         (garble isalpha tape
                 (window text i (Z.to_nat (typo_length_at tape text i pos))) (S pos)).
  split; [f_equal; lia |].
  split; [lia |].
  split; [apply garble_slip |].
  split; [now apply sends_detour_events |].
  split; [intros b; apply detour_events_no_poll |].
  split.
  - intros Hwin Hfit Hno buffer.
    rewrite (received_windows self _ Hwin).
    + now apply detour_net_effect.
    + apply detour_sends_fit; [exact Hi | | exact Hfit].
      now apply letters_in_range_window.
  - intros fuel last_char pos0 now0 -> -> Hstop Hd.
    now apply typing_loop_detour.
Qed.

(** A detour over the first two letters of ["ab"]. *)
Lemma typo_detour_structure_witness :
  exists (n : nat) (typo : str),
    result (run (tape_of [1; 2; 3]) never_set
                (_simulate_typo ascii_isalpha fresh_typer [97; 98] 0) 0 0)
    = Returned (Z.of_nat n)
    /\ sends (emitted (run (tape_of [1; 2; 3]) never_set
                           (_simulate_typo ascii_isalpha fresh_typer [97; 98] 0) 0 0))
       = typo ++ repeat BACKSPACE n ++ window [97; 98] 0 n.
Proof.
  destruct (typo_detour_structure ascii_isalpha fresh_typer (tape_of [1; 2; 3])
              never_set [97; 98] 0 0 0)
    as (n & typo & H1 & _ & _ & H4 & _).
  - repeat split; discriminate.
  - intros char. reflexivity.
  - apply ascii_letters_in_range.
  - simpl. lia.
  - exists n, typo. split; assumption.
Defined.



(** ** When the detour is taken *)



(** ** Delays by mode *)

(** C5, as stated, fails for a task that takes a detour.  With error
    rate 1 the letter ["a"] is typed through a detour also in INSTANT
    mode, and the detour sleeps for draws from the typing delay: the
    delays of the same task differ between the delay ranges (0.05, 0.2)
    and (1, 2). *)
Lemma instant_detour_delays_depend_on_range :
  _mode instant_typer = INSTANT
  /\ _mode (set_typing_speed instant_typer 1 2) = INSTANT
  /\ sleeps (emitted (run (tape_of []) never_set
                          (_simulate_typing ascii_isalpha instant_typer [97]) 0 0))
     = [Uniform (5 # 100) (2 # 10) (unit_draw 0); Uniform (1 # 10) (3 # 10) (unit_draw 0);
        Uniform (5 # 100) (15 # 100) (unit_draw 0); Uniform (5 # 100) (2 # 10) (unit_draw 0)]
  /\ sleeps (emitted (run (tape_of []) never_set
                          (_simulate_typing ascii_isalpha
                                            (set_typing_speed instant_typer 1 2) [97]) 0 0))
     = [Uniform 1 2 (unit_draw 0); Uniform (1 # 10) (3 # 10) (unit_draw 0);
        Uniform (5 # 100) (15 # 100) (unit_draw 0); Uniform 1 2 (unit_draw 0)]
  /\ sleeps (emitted (run (tape_of []) never_set
                          (_simulate_typing ascii_isalpha instant_typer [97]) 0 0))
     <> sleeps (emitted (run (tape_of []) never_set
                             (_simulate_typing ascii_isalpha
                                               (set_typing_speed instant_typer 1 2) [97]) 0 0)).
Proof. repeat split; try reflexivity; discriminate. Qed.

(** C5, amended.  With a typing delay in range and a backend
    that returns, a character sent directly is followed by no sleep at
    all in INSTANT mode, and by a sleep of the lower bound of the typing
    delay in MACHINE_GUN mode.  An INSTANT run in which no detour is
    taken (so with an error rate of 0 or below, or a text without
    letters) never sleeps, and is the same run for every other typing
    delay, negative numbers included. *)
Theorem delay_by_mode
        (isalpha : Z -> bool) (self : CharacterTyper)
        (tape : nat -> Z) (stop : nat -> bool)
        (text : str) (pos now : nat) :
  delays_in_range self ->
  backend_returns self ->
  letters_in_range isalpha text ->
  exists its k,
    run tape stop (_simulate_typing isalpha self text) pos now
    = {| result := Returned tt; drawn := k; emitted := itinerary_events its |}
    /\ loop_steps isalpha self tape stop text None 0 pos now its k
    /\ (_mode self = INSTANT -> Forall (pauses_with []) its)
    /\ (_mode self = MACHINE_GUN ->
        Forall (pauses_with [Sleep (Fixed (fst (_typing_delay self)))]) its)
    /\ (_mode self = INSTANT ->
        Forall (fun it => is_detour it = false) its ->
        sleeps (itinerary_events its) = []
        /\ forall min_delay max_delay,
            run tape stop
                (_simulate_typing isalpha (set_typing_speed self min_delay max_delay) text)
                pos now
            = run tape stop (_simulate_typing isalpha self text) pos now)
    /\ ((_error_rate self <= 0)%Q -> Forall (fun it => is_detour it = false) its)
    /\ ((forall c, In c text -> isalpha c = false) ->
        Forall (fun it => is_detour it = false) its).
Proof.
  intros Hdelay Hsend Hok.
  destruct (simulate_typing_steps isalpha self tape stop Hdelay Hsend text pos now Hok)
    as (its & k & Hrun & Hsteps).
  exists its, k. split; [exact Hrun |]. split; [exact Hsteps |].
  split; [| split; [| split; [| split]]].
  - intros Hmode. eapply loop_steps_pauses; [| exact Hsteps].
    intros char last pos'. unfold pause_events. now rewrite Hmode.
  - intros Hmode. eapply loop_steps_pauses; [| exact Hsteps].
    intros char last pos'. unfold pause_events. now rewrite Hmode.
  - intros Hmode Hplain. split.
    + assert (Hp : Forall (pauses_with []) its).
      { eapply loop_steps_pauses; [| exact Hsteps].
        intros char last pos'. unfold pause_events. now rewrite Hmode. }
      clear - Hp Hplain. induction its as [| it its IH]; [reflexivity |].
      inversion Hp as [| ? ? Hit Hp']; inversion Hplain as [| ? ? Hd Hplain']; subst.
      unfold itinerary_events. simpl flat_map. rewrite sleeps_app.
      fold (itinerary_events its). rewrite (IH Hplain' Hp'), app_nil_r.
      destruct it as [i c l pause | i n evs | i]; simpl in *;
        [now subst pause | discriminate | reflexivity].
    + intros min_delay max_delay. rewrite Hrun. unfold _simulate_typing.
      eapply instant_ignores_delay; try eassumption. lia.
  - intros Hrate. eapply loop_steps_rate_zero; eassumption.
  - intros Hno. eapply loop_steps_no_letters; eassumption.
Qed.

(** ["ab"] in INSTANT mode with error rate 0. *)
Lemma delay_by_mode_witness :
  sleeps (emitted (run (tape_of []) never_set
                       (_simulate_typing ascii_isalpha
                          (set_typing_mode (set_error_rate fresh_typer 0) INSTANT)
                          [97; 98]) 0 0)) = [].
Proof.
  destruct (delay_by_mode ascii_isalpha
              (set_typing_mode (set_error_rate fresh_typer 0) INSTANT)
              (tape_of []) never_set [97; 98] 0 0
              ltac:(repeat split; discriminate) ltac:(intros char; reflexivity)
              (ascii_letters_in_range _))
    as (its & k & Hrun & _ & _ & _ & Hinstant & Hrate & _).
  rewrite Hrun. cbn [emitted].
  apply Hinstant; [reflexivity |]. apply Hrate. discriminate.
Defined.

(** ** Sleeps and injections that raise *)

(** A lower bound below zero, in MACHINE_GUN mode: the first character is
    handed to the backend, the sleep that follows raises [ValueError], and
    the worker ends there. *)
Example negative_delay_raises :
  run (tape_of []) never_set
      (_simulate_typing ascii_isalpha
         (set_typing_speed
            (set_typing_mode (set_error_rate fresh_typer 0) MACHINE_GUN) (-1) 2)
         (codes "ok")) 0 0
  = {| result := Raised ValueError; drawn := 1; emitted := [Poll false; Send 111] |}.
Proof. reflexivity. Qed.

(** The same range in HUMAN_LIKE mode: whether the draw between -1 and 2
    is negative is not settled by its operands. *)
Example mixed_delay_unsettled :
  run (tape_of []) never_set
      (_simulate_typing ascii_isalpha
         (set_typing_speed (set_error_rate fresh_typer 0) (-1) 2) (codes "ok")) 0 0
  = {| result := Unsettled; drawn := 2; emitted := [Poll false; Send 111] |}.
Proof. reflexivity. Qed.

(** With the display of python-xlib the first injection raises
    [AttributeError]. *)
Example xlib_worker_raises :
  run (tape_of []) never_set
      (_simulate_typing ascii_isalpha (set_error_rate x11_typer 0) (codes "ok")) 0 0
  = {| result := Raised AttributeError; drawn := 1; emitted := [Poll false; Send 111] |}.
Proof. reflexivity. Qed.

(** U+20008 goes out on Windows as the 16-bit unit 8: the application
    receives a backspace. *)
Example astral_character_is_truncated :
  received fresh_typer [131080] = [BACKSPACE]
  /\ type_into [97] (received fresh_typer [131080]) = [].
Proof. split; reflexivity. Qed.

(** ** The HUMAN_LIKE delay *)

(** The delay after a directly sent character starts from one draw from
    the typing delay; 1.5 is multiplied in for [,;:], 2.0 for [.!?], and
    then 0.8 when the character is [last_char]. *)
Lemma human_delay_factors self char last_char u :
  base_draw (human_delay self char last_char u)
  = Uniform (fst (_typing_delay self)) (snd (_typing_delay self)) u
  /\ factors (human_delay self char last_char u)
     = (if char_in char (codes ",;:") then [15 # 10]
        else if char_in char (codes ".!?") then [2 # 1] else [])
       ++ (if eq_last char last_char then [8 # 10] else []).
Proof.
  unfold human_delay.
  destruct (char_in char (codes ",;:")), (char_in char (codes ".!?")),
    (eq_last char last_char); split; reflexivity.
Qed.

(** ["hi."] with error rate 0: three characters, each followed by its
    delay, the last delay being 2.0 times its draw. *)
Example hi_dot_trace :
  emitted (run (tape_of [1; 2; 3; 4; 5; 6]) never_set
               (_simulate_typing ascii_isalpha (set_error_rate fresh_typer 0)
                                 (codes "hi.")) 0 0)
  = [ Poll false; Send 104; Sleep (Uniform (5 # 100) (2 # 10) (unit_draw 2));
      Poll false; Send 105; Sleep (Uniform (5 # 100) (2 # 10) (unit_draw 4));
      Poll false; Send 46;
      Sleep (Scale (Uniform (5 # 100) (2 # 10) (unit_draw 6)) 2) ].
Proof. reflexivity. Qed.

(** C4, at the failing inputs.  [last_char] is only assigned after a
    directly sent character; the detour leaves it as it was.  In ["aba"]
    with a detour on ["b"], the last ["a"] follows the injection of
    ["b"], yet its delay carries the factor 0.8, because [last_char] is
    still the first ["a"].  In ["abb"] with a detour on the first ["b"],
    the last ["b"] follows the injection of ["b"], yet its delay carries
    no factor, because [last_char] is still ["a"]. *)
Theorem speedup_compares_with_stale_last_char :
  emitted (run detour_in_the_middle never_set
               (_simulate_typing ascii_isalpha half_typer (codes "aba")) 0 0)
  = [ Poll false; Send 97; Sleep (Uniform (5 # 100) (2 # 10) (unit_draw 0));
      Poll false;
      Send 99; Sleep (Uniform (5 # 100) (2 # 10) (unit_draw 0));
      Sleep (Uniform (1 # 10) (3 # 10) (unit_draw 0));
      Send 8; Sleep (Uniform (5 # 100) (15 # 100) (unit_draw 0));
      Send 98; Sleep (Uniform (5 # 100) (2 # 10) (unit_draw 0));
      Poll false; Send 97;
      Sleep (Scale (Uniform (5 # 100) (2 # 10) (unit_draw 0)) (8 # 10)) ]
  /\ emitted (run detour_in_the_middle never_set
                  (_simulate_typing ascii_isalpha half_typer (codes "abb")) 0 0)
     = [ Poll false; Send 97; Sleep (Uniform (5 # 100) (2 # 10) (unit_draw 0));
         Poll false;
         Send 99; Sleep (Uniform (5 # 100) (2 # 10) (unit_draw 0));
         Sleep (Uniform (1 # 10) (3 # 10) (unit_draw 0));
         Send 8; Sleep (Uniform (5 # 100) (15 # 100) (unit_draw 0));
         Send 98; Sleep (Uniform (5 # 100) (2 # 10) (unit_draw 0));
         Poll false; Send 98;
         Sleep (Uniform (5 # 100) (2 # 10) (unit_draw 0)) ].
Proof. split; reflexivity. Qed.

(** ** Cancellation *)

(** C2, as stated, fails inside a detour.  The stop event is polled once,
    where the iteration starts; the detour then sends the typo, the
    backspace and the letter without another poll.  Here the event is
    set right after the typo was sent, one source character remaining,
    and two more characters are injected. *)
Lemma detour_injects_after_stop :
  emitted stopped_in_detour_run
  = [ Poll false;
      Send 95; Sleep (Uniform (5 # 100) (2 # 10) (unit_draw 0));
      Sleep (Uniform (1 # 10) (3 # 10) (unit_draw 0));
      Send 8; Sleep (Uniform (5 # 100) (15 # 100) (unit_draw 0));
      Send 97; Sleep (Uniform (5 # 100) (2 # 10) (unit_draw 0)) ]
  /\ checked_before_each_send false (emitted stopped_in_detour_run) = false
  /\ set_from 2 2 = true
  /\ sends (skipn 2 (emitted stopped_in_detour_run)) = [8; 97]
  /\ ~ (length (sends (skipn 2 (emitted stopped_in_detour_run))) < length [97])%nat.
Proof. repeat split; try reflexivity. simpl. lia. Qed.

Lemma checked_through_pause checked pause rest :
  (forall b, ~ In (Poll b) pause) -> sends pause = [] ->
  checked_before_each_send checked (pause ++ rest)
  = checked_before_each_send checked rest.
Proof.
  induction pause as [| [b | c | d] pause IH]; intros Hpoll Hsends; simpl in *.
  - reflexivity.
  - exfalso. apply (Hpoll b). now left.
  - discriminate.
  - apply IH; [| exact Hsends]. intros b H. apply (Hpoll b). now right.
Qed.

(** Without a detour, every injection comes right after its poll. *)
Lemma direct_iterations_checked its :
  Forall polls_once its ->
  Forall (fun it => is_detour it = false) its ->
  forall checked, checked_before_each_send checked (itinerary_events its) = true.
Proof.
  induction its as [| it its IH]; intros Hp Hplain checked; [reflexivity |].
  inversion Hp as [| ? ? Hit Hp']; inversion Hplain as [| ? ? Hd Hplain']; subst.
  unfold itinerary_events. simpl flat_map. fold (itinerary_events its).
  destruct it as [i c l pause | i n evs | i]; simpl in *.
  - destruct Hit as [Hpoll Hsends].
    rewrite checked_through_pause by assumption. now apply IH.
  - discriminate.
  - now apply IH.
Qed.

(** When [stop_typing] returns, no thread is alive, and none can make
    a step. *)
Lemma stop_typing_returns_quiet isalpha tape e e' :
  well_formed e ->
  perform isalpha tape ReturnStopTyping e = Some e' ->
  alive_threads e' = [] /\ forall tid, worker_step tape tid e' = None.
Proof.
  intros Hwf Hp. unfold perform in Hp.
  destruct (caller e); try discriminate.
  destruct (typing_thread_alive e) eqn:Hdead; [discriminate |].
  injection Hp as <-.
  pose proof (well_formed_no_thread_alive e Hwf Hdead) as Hnone.
  split.
  - unfold alive_threads. simpl. apply filter_none.
    intros t Ht. destruct (In_nth_error _ _ Ht) as [tid Htid]. eauto.
  - intros tid. unfold worker_step. simpl.
    destruct (nth_error (threads e) tid) as [[a | x | c k] |] eqn:Ht; try reflexivity.
    specialize (Hnone tid _ Ht). discriminate.
Qed.

(** C2, amended.  With a typing delay in range and a backend
    that returns, the worker polls the stop event once per iteration of
    its loop, before the character under the cursor is sent or a detour
    is started, and returns without another event as soon as a poll
    finds the event set.  Inside a detour it does not poll: the 3 to 9
    injections of a detour all follow the one poll that preceded it.  So
    once the event is set, at most the injections of the iteration under
    way still happen: 9 at most, 1 at most in a run without detours, none
    when the event is set at a poll.  And when [stop_typing] returns, no
    thread is alive, so nothing is injected until [type_text] is called
    again. *)
Theorem stop_polled_once_per_iteration
        (isalpha : Z -> bool) (self : CharacterTyper)
        (tape : nat -> Z) (stop : nat -> bool)
        (text : str) (pos now : nat) :
  delays_in_range self ->
  backend_returns self ->
  letters_in_range isalpha text ->
  exists its k,
    run tape stop (_simulate_typing isalpha self text) pos now
    = {| result := Returned tt; drawn := k; emitted := itinerary_events its |}
    /\ loop_steps isalpha self tape stop text None 0 pos now its k
    /\ Forall polls_once its
    /\ (forall its1 j its2, its = its1 ++ Halt j :: its2 -> its2 = [])
    /\ (Forall (fun it => is_detour it = false) its ->
        checked_before_each_send false (itinerary_events its) = true)
    /\ (stop now = true -> sends (itinerary_events its) = [])
    /\ (forall t0,
           (forall t, (t0 <= t)%nat -> stop t = true) ->
           (length (sends (skipn (t0 - now) (itinerary_events its))) <= 9)%nat
           /\ (Forall (fun it => is_detour it = false) its ->
               (length (sends (skipn (t0 - now) (itinerary_events its))) <= 1)%nat))
    /\ (forall e e',
           reachable isalpha tape self e ->
           perform isalpha tape ReturnStopTyping e = Some e' ->
           alive_threads e' = [] /\ forall tid, worker_step tape tid e' = None).
Proof.
  intros Hdelay Hsend Hok.
  destruct (simulate_typing_steps isalpha self tape stop Hdelay Hsend text pos now Hok)
    as (its & k & Hrun & Hsteps).
  pose proof (loop_steps_polls_once _ _ _ _ _ _ _ _ _ _ _ Hsteps) as Hpolls.
  exists its, k. split; [exact Hrun |]. split; [exact Hsteps |].
  split; [exact Hpolls |].
  split; [eapply loop_steps_halt_last; eassumption |].
  split; [intros Hplain; now apply direct_iterations_checked |].
  split; [intros Hstop; eapply loop_steps_stopped; eassumption |].
  split.
  - intros t0 Hset. split.
    + eapply loop_steps_after_stop; try eassumption.
      eapply Forall_impl; [| exact Hpolls]. apply polls_once_bound.
    + intros Hplain. eapply loop_steps_after_stop; try eassumption.
      clear - Hpolls Hplain. induction its as [| it its IH]; constructor;
        inversion Hpolls; inversion Hplain; subst; auto using direct_bound.
  - intros e e' Hreach Hp.
    eapply stop_typing_returns_quiet; [| exact Hp].
    eapply well_formed_reachable; exact Hreach.
Qed.

(** ["ab"] typed directly while the stop event gets set after the first
    letter was sent: nothing is injected from then on. *)
Lemma stop_polled_once_per_iteration_witness :
  exists its,
    emitted (run (tape_of []) (set_from 2)
                 (_simulate_typing ascii_isalpha (set_error_rate fresh_typer 0)
                                   [97; 98]) 0 0)
    = itinerary_events its
    /\ (length (sends (skipn (2 - 0) (itinerary_events its))) <= 1)%nat.
Proof.
  destruct (stop_polled_once_per_iteration ascii_isalpha
              (set_error_rate fresh_typer 0) (tape_of []) (set_from 2)
              [97; 98] 0 0
              ltac:(repeat split; discriminate) ltac:(intros char; reflexivity)
              (ascii_letters_in_range _))
    as (its & k & Hrun & Hsteps & _ & _ & _ & _ & Hafter & _).
  exists its. rewrite Hrun. split; [reflexivity |].
  apply (Hafter 2%nat).
  - intros t Ht. unfold set_from. apply Nat.leb_le. lia.
  - eapply loop_steps_rate_zero; [| exact Hsteps]. discriminate.
Defined.

(** ** One task at a time *)

(** C3. In every state the engine can reach, at most one thread is
    alive, and the log lists the events of the threads in the order the
    threads were started: whatever a later [type_text] injects comes
    after everything an earlier one injected.  [type_text] does not get
    past its join while the thread is alive; when it does, no thread is
    alive, and only then is the stop event cleared and the new thread
    started at the end of the list.  Only the thread started last can
    make a step. *)
Theorem one_task_at_a_time
        (isalpha : Z -> bool) (tape : nat -> Z)
        (self : CharacterTyper) (e : Engine) :
  reachable isalpha tape self e ->
  (length (alive_threads e) <= 1)%nat
  /\ in_call_order (log_owners e)
  /\ (typing_thread_alive e = true -> perform isalpha tape ReturnTypeText e = None)
  /\ (forall e',
         perform isalpha tape ReturnTypeText e = Some e' ->
         exists text,
           caller e = InTypeText text
           /\ alive_threads e = []
           /\ _stop_event e' = false
           /\ threads e' = threads e ++ [_simulate_typing isalpha (typer e) text]
           /\ _typing_thread e' = Some (length (threads e))
           /\ log e' = log e)
  /\ (forall tid e',
         worker_step tape tid e = Some e' ->
         S tid = length (threads e) /\ _typing_thread e = Some tid).
Proof.
  intros Hreach. pose proof (well_formed_reachable _ _ _ _ Hreach) as Hwf.
  split; [now apply well_formed_one_alive |].
  split; [exact (wf_order e Hwf) |].
  split; [| split].
  - intros Halive. unfold perform. destruct (caller e); try reflexivity.
    now rewrite Halive.
  - intros e' Hp. unfold perform in Hp.
    destruct (caller e) as [| text | |]; try discriminate.
    destruct (typing_thread_alive e) eqn:Hdead; [discriminate |].
    injection Hp as <-. exists text. split; [reflexivity |].
    split; [| repeat split].
    unfold alive_threads. apply filter_none.
    intros t Ht. destruct (In_nth_error _ _ Ht) as [tid Htid].
    exact (well_formed_no_thread_alive e Hwf Hdead tid t Htid).
  - intros tid e' Hstep. unfold worker_step in Hstep.
    destruct (nth_error (threads e) tid) as [[a | x | c k] |] eqn:Ht; try discriminate.
    destruct (wf_alive e Hwf tid (Vis c k) Ht eq_refl) as [Hcur Hlast].
    split; assumption.
Qed.

Lemma one_task_at_a_time_witness :
  exists e,
    perform_all ascii_isalpha (tape_of []) back_to_back
                (engine_of (set_error_rate fresh_typer 0)) = Some e
    /\ (length (alive_threads e) <= 1)%nat
    /\ in_call_order (log_owners e).
Proof.
  destruct (perform_all ascii_isalpha (tape_of []) back_to_back
                        (engine_of (set_error_rate fresh_typer 0)))
    as [e |] eqn:Hrun.
  - exists e. split; [reflexivity |].
    destruct (one_task_at_a_time ascii_isalpha (tape_of [])
                (set_error_rate fresh_typer 0) e (ex_intro _ back_to_back Hrun))
      as (Hone & Horder & _).
    split; assumption.
  - exfalso.
    assert (Hsome : option_map (fun _ => tt)
                      (perform_all ascii_isalpha (tape_of []) back_to_back
                                   (engine_of (set_error_rate fresh_typer 0)))
                    = Some tt) by (lazy; reflexivity).
    rewrite Hrun in Hsome. discriminate Hsome.
Defined.

(** The injections of that schedule, with the thread that made them. *)
Example back_to_back_log :
  option_map (fun e => (injections_of 0 e, injections_of 1 e, log_owners e))
             (perform_all ascii_isalpha (tape_of []) back_to_back
                          (engine_of (set_error_rate fresh_typer 0)))
  = Some ([104; 105], [121], [0; 0; 0; 0; 0; 0; 1; 1]%nat).
Proof. lazy. reflexivity. Qed.

(** * Further properties of the worker *)

Lemma firstn_add_skipn {X : Type} n m (s : list X) :
  firstn n s ++ firstn m (skipn n s) = firstn (n + m) s.
Proof.
  revert s. induction n as [| n IH]; intros s; simpl; [reflexivity |].
  destruct s as [| x s]; simpl.
  - now rewrite firstn_nil.
  - now rewrite IH.
Qed.

Lemma window_app text i n m :
  window text i n ++ window text (i + n) m = window text i (n + m).
Proof.
  unfold window. rewrite (Nat.add_comm i n), <- skipn_skipn.
  apply firstn_add_skipn.
Qed.

Lemma window_all text : window text 0 (length text) = text.
Proof. unfold window. simpl. apply firstn_all. Qed.

Lemma type_into_snoc buffer c keys :
  c <> BACKSPACE ->
  type_into buffer (c :: keys) = type_into (buffer ++ [c]) keys.
Proof.
  intros Hc. simpl. destruct (Z.eqb_spec c BACKSPACE); [contradiction | reflexivity].
Qed.

Section WholeRuns.

Variable isalpha : Z -> bool.
Variable self : CharacterTyper.
Variable tape : nat -> Z.
Variable stop : nat -> bool.

(** What a run leaves in the application is the part of the text between
    the cursor it started from and the cursor it stopped at. *)
Lemma loop_steps_types_a_window text last_char i pos now its k :
  letters_in_range isalpha text ->
  ~ In BACKSPACE text ->
  (i <= length text)%nat ->
  loop_steps isalpha self tape stop text last_char i pos now its k ->
  exists j,
    (i <= j <= length text)%nat
    /\ (Forall (fun it => match it with Halt _ => False | _ => True end) its ->
        j = length text)
    /\ forall buffer,
        type_into buffer (sends (itinerary_events its))
        = buffer ++ window text i (j - i).
Proof.
  intros Hok Hno Hle Hsteps.
  induction Hsteps as [| | ? ? ? ? ? ? char pause Hi Hs Hd Hrest IH
                       | ? ? ? ? ? ? n evs draws Hi Hs Hd Hrest IH].
  - exists i. split; [lia |]. split; [intros _; lia |].
    intros buffer. rewrite Nat.sub_diag. simpl. now rewrite app_nil_r.
  - exists i. split; [lia |]. split.
    + intros Hall. inversion Hall as [| ? ? Habs]. destruct Habs.
    + intros buffer. rewrite Nat.sub_diag. simpl. now rewrite app_nil_r.
  - destruct IH as (j & Hj & Hend & Htyped); [lia |].
    exists j. split; [lia |]. split.
    + intros Hall. apply Hend. now inversion Hall.
    + intros buffer.
      change (itinerary_events (Direct i char last_char pause :: its))
        with ((Poll false :: Send char :: pause) ++ itinerary_events its).
      rewrite sends_app. simpl sends at 1. subst pause.
      rewrite pause_events_sends. simpl app.
      assert (Hc : char <> BACKSPACE).
      { intros Heq. apply Hno. rewrite <- Heq. subst char. now apply nth_In. }
      rewrite type_into_snoc by exact Hc. rewrite Htyped.
      replace (j - i)%nat with (S (j - (i + 1)))%nat by lia.
      rewrite (window_cons text i _ Hi). fold char.
      replace (S i) with (i + 1)%nat by lia.
      now rewrite <- app_assoc.
  - destruct (typo_length_range tape text i (S pos) Hi) as [Hn1 Hn2].
    destruct IH as (j & Hj & Hend & Htyped); [subst n; lia |].
    exists j. split; [lia |]. split.
    + intros Hall. apply Hend. now inversion Hall.
    + intros buffer.
      change (itinerary_events (Detour i n evs :: its))
        with ((Poll false :: evs) ++ itinerary_events its).
      rewrite sends_app. simpl sends at 1. rewrite type_into_app.
      subst evs.
      rewrite (detour_net_effect isalpha self tape text i (S pos) buffer Hok Hi).
      * rewrite Htyped, <- app_assoc. f_equal. fold n.
        rewrite window_app. f_equal. lia.
      * intros Hin. apply Hno. eapply window_incl. exact Hin.
Qed.

(** A run makes at most three injections per character it covers, and a
    run that is not stopped at least one per character. *)
Lemma loop_steps_send_count text last_char i pos now its k :
  (i <= length text)%nat ->
  loop_steps isalpha self tape stop text last_char i pos now its k ->
  (length (sends (itinerary_events its)) <= 3 * (length text - i))%nat
  /\ (Forall (fun it => match it with Halt _ => False | _ => True end) its ->
      (length text - i <= length (sends (itinerary_events its)))%nat).
Proof.
  intros Hle Hsteps.
  induction Hsteps as [| | ? ? ? ? ? ? char pause Hi Hs Hd Hrest IH
                       | ? ? ? ? ? ? n evs draws Hi Hs Hd Hrest IH].
  - simpl. split; [lia | intros _; lia].
  - simpl. split; [lia |]. intros Hall. inversion Hall as [| ? ? Habs]. destruct Habs.
  - destruct IH as [IH1 IH2]; [lia |].
    change (itinerary_events (Direct i char last_char pause :: its))
      with ((Poll false :: Send char :: pause) ++ itinerary_events its).
    assert (Hone : sends (Poll false :: Send char :: pause) = [char])
      by (simpl; subst pause; now rewrite pause_events_sends).
    rewrite sends_app, length_app, Hone. simpl length. split; [lia |].
    intros Hall. inversion Hall; subst. specialize (IH2 ltac:(assumption)). lia.
  - destruct (typo_length_range tape text i (S pos) Hi) as [Hn1 Hn2].
    destruct IH as [IH1 IH2]; [subst n; lia |].
    change (itinerary_events (Detour i n evs :: its))
      with ((Poll false :: evs) ++ itinerary_events its).
    assert (Hmany : length (sends (Poll false :: evs)) = (3 * n)%nat)
      by (simpl; subst evs n; now apply detour_sends_length).
    rewrite sends_app, length_app, Hmany.
    split; [subst n; lia |].
    intros Hall. inversion Hall; subst. specialize (IH2 ltac:(assumption)). subst n. lia.
Qed.

(** The characters a run hands to the backend fit the scan field when
    those of the text and the typos of its letters do. *)
Lemma loop_steps_sends_fit text last_char i pos now its k :
  letters_in_range isalpha text ->
  fits_scan_code isalpha text ->
  loop_steps isalpha self tape stop text last_char i pos now its k ->
  Forall (fun c => 0 <= c < 65536) (sends (itinerary_events its)).
Proof.
  intros Hok Hfit Hsteps.
  induction Hsteps as [| | ? ? ? ? ? ? char pause Hi Hs Hd Hrest IH
                       | ? ? ? ? ? ? n evs draws Hi Hs Hd Hrest IH].
  - constructor.
  - constructor.
  - change (itinerary_events (Direct i char last_char pause :: its))
      with ((Poll false :: Send char :: pause) ++ itinerary_events its).
    rewrite sends_app. simpl sends at 1. subst pause.
    rewrite pause_events_sends. simpl app.
    constructor; [| exact IH]. apply Hfit. subst char. now apply nth_In.
  - change (itinerary_events (Detour i n evs :: its))
      with ((Poll false :: evs) ++ itinerary_events its).
    rewrite sends_app. simpl sends at 1.
    apply Forall_app. split; [| exact IH]. subst evs.
    apply detour_sends_fit;
      [exact Hi | now apply letters_in_range_window | now apply fits_scan_code_window].
Qed.

Lemma loop_steps_never_halts text last_char i pos now its k :
  (forall t, stop t = false) ->
  loop_steps isalpha self tape stop text last_char i pos now its k ->
  Forall (fun it => match it with Halt _ => False | _ => True end) its.
Proof.
  intros Hnever.
  induction 1 as [| | ? ? ? ? ? ? char pause Hi Hs Hd Hrest IH
                  | ? ? ? ? ? ? n evs draws Hi Hs Hd Hrest IH].
  - constructor.
  - rewrite Hnever in *. discriminate.
  - constructor; [exact I | exact IH].
  - constructor; [exact I | exact IH].
Qed.

End WholeRuns.

(** A run that is never stopped types the whole text. *)
Lemma whole_text_received isalpha self tape stop text pos now :
  delays_in_range self ->
  _send_input self = WindowsBackend ->
  letters_in_range isalpha text ->
  fits_scan_code isalpha text ->
  ~ In BACKSPACE text ->
  (forall t, stop t = false) ->
  result (run tape stop (_simulate_typing isalpha self text) pos now) = Returned tt
  /\ forall buffer,
      type_into buffer
                (received self
                   (sends (emitted (run tape stop (_simulate_typing isalpha self text)
                                        pos now))))
      = buffer ++ text.
Proof.
  intros Hdelay Hwin Hok Hfit Hno Hnever.
  destruct (simulate_typing_steps isalpha self tape stop Hdelay
              (windows_backend_returns self Hwin) text pos now Hok)
    as (its & k & Hrun & Hsteps).
  rewrite Hrun. cbn [result emitted]. split; [reflexivity |].
  destruct (loop_steps_types_a_window isalpha self tape stop text None 0 pos now its k
              Hok Hno ltac:(lia) Hsteps) as (j & Hj & Hend & Htyped).
  intros buffer.
  rewrite (received_windows self _ Hwin)
    by (eapply loop_steps_sends_fit; eassumption).
  rewrite Htyped.
  rewrite (Hend (loop_steps_never_halts isalpha self tape stop _ _ _ _ _ _ _
                                        Hnever Hsteps)).
  now rewrite Nat.sub_0_r, window_all.
Qed.

(** X1. With the Windows backend and a typing delay in range, a run
    that is never stopped returns, and its key events
    leave the whole text, in order, in the focused application, however
    many typo detours it takes, provided the text holds no backspace
    character and its characters, with the typos of its letters, fit the
    16-bit scan field. *)
Theorem uninterrupted_run_types_the_text
        (isalpha : Z -> bool) (self : CharacterTyper)
        (tape : nat -> Z) (stop : nat -> bool)
        (text : str) (pos now : nat) :
  delays_in_range self ->
  _send_input self = WindowsBackend ->
  letters_in_range isalpha text ->
  fits_scan_code isalpha text ->
  ~ In BACKSPACE text ->
  (forall t, stop t = false) ->
  result (run tape stop (_simulate_typing isalpha self text) pos now) = Returned tt
  /\ forall buffer,
      type_into buffer
                (received self
                   (sends (emitted (run tape stop (_simulate_typing isalpha self text)
                                        pos now))))
      = buffer ++ text.
Proof. apply whole_text_received. Qed.

Lemma uninterrupted_run_types_the_text_witness :
  type_into (codes "> ")
            (received half_typer
               (sends (emitted (run detour_in_the_middle never_set
                                    (_simulate_typing ascii_isalpha half_typer
                                                      (codes "aba")) 0 0))))
  = codes "> aba".
Proof.
  apply (uninterrupted_run_types_the_text ascii_isalpha half_typer
           detour_in_the_middle never_set (codes "aba") 0 0).
  - repeat split; discriminate.
  - reflexivity.
  - apply ascii_letters_in_range.
  - apply ascii_fits_scan_code. repeat constructor; discriminate.
  - simpl. unfold BACKSPACE. intros [H | [H | [H | []]]]; discriminate H.
  - reflexivity.
Defined.

(** X2. With the Windows backend and a typing delay in range,
    whenever and however a run is stopped, what its key events
    leave in the focused application is a prefix of the text: a typo is
    never left uncorrected and no character is typed twice or out of
    order.  The text holds no backspace character, and its characters,
    with the typos of its letters, fit the 16-bit scan field. *)
Theorem stopped_run_types_a_prefix
        (isalpha : Z -> bool) (self : CharacterTyper)
        (tape : nat -> Z) (stop : nat -> bool)
        (text : str) (pos now : nat) :
  delays_in_range self ->
  _send_input self = WindowsBackend ->
  letters_in_range isalpha text ->
  fits_scan_code isalpha text ->
  ~ In BACKSPACE text ->
  exists j,
    (j <= length text)%nat
    /\ forall buffer,
        type_into buffer
                  (received self
                     (sends (emitted (run tape stop (_simulate_typing isalpha self text)
                                          pos now))))
        = buffer ++ firstn j text.
Proof.
  intros Hdelay Hwin Hok Hfit Hno.
  destruct (simulate_typing_steps isalpha self tape stop Hdelay
              (windows_backend_returns self Hwin) text pos now Hok)
    as (its & k & Hrun & Hsteps).
  rewrite Hrun. cbn [emitted].
  destruct (loop_steps_types_a_window isalpha self tape stop text None 0 pos now its k
              Hok Hno ltac:(lia) Hsteps) as (j & Hj & _ & Htyped).
  exists j. split; [lia |]. intros buffer.
  rewrite (received_windows self _ Hwin)
    by (eapply loop_steps_sends_fit; eassumption).
  rewrite Htyped.
  now rewrite Nat.sub_0_r.
Qed.

Lemma stopped_run_types_a_prefix_witness :
  exists j,
    (j <= 3)%nat
    /\ type_into []
                 (received half_typer
                    (sends (emitted (run detour_in_the_middle (set_from 4)
                                         (_simulate_typing ascii_isalpha half_typer
                                                           (codes "aba")) 0 0))))
       = firstn j (codes "aba").
Proof.
  destruct (stopped_run_types_a_prefix ascii_isalpha half_typer
              detour_in_the_middle (set_from 4) (codes "aba") 0 0)
    as (j & Hj & Htyped).
  - repeat split; discriminate.
  - reflexivity.
  - apply ascii_letters_in_range.
  - apply ascii_fits_scan_code. repeat constructor; discriminate.
  - simpl. unfold BACKSPACE. intros [H | [H | [H | []]]]; discriminate H.
  - exists j. split; [exact Hj | apply (Htyped [])].
Defined.

(** X3. With a typing delay in range and a backend that
    returns, a run makes at most three injections per character of the
    text (typo, backspace, the character), and a run that is never
    stopped at least one per character. *)
Theorem injection_count_bounds
        (isalpha : Z -> bool) (self : CharacterTyper)
        (tape : nat -> Z) (stop : nat -> bool)
        (text : str) (pos now : nat) :
  delays_in_range self ->
  backend_returns self ->
  letters_in_range isalpha text ->
  (length (sends (emitted (run tape stop (_simulate_typing isalpha self text) pos now)))
   <= 3 * length text)%nat
  /\ ((forall t, stop t = false) ->
      (length text
       <= length (sends (emitted (run tape stop (_simulate_typing isalpha self text)
                                      pos now))))%nat).
Proof.
  intros Hdelay Hsend Hok.
  destruct (simulate_typing_steps isalpha self tape stop Hdelay Hsend text pos now Hok)
    as (its & k & Hrun & Hsteps).
  rewrite Hrun. cbn [emitted].
  destruct (loop_steps_send_count isalpha self tape stop text None 0 pos now its k
              ltac:(lia) Hsteps) as [Hmax Hmin].
  rewrite Nat.sub_0_r in *. split; [exact Hmax |].
  intros Hnever. apply Hmin. eapply loop_steps_never_halts; eassumption.
Qed.

Lemma injection_count_bounds_witness :
  (length (sends (emitted (run detour_in_the_middle never_set
                               (_simulate_typing ascii_isalpha half_typer
                                                 (codes "aba")) 0 0)))
   <= 3 * length (codes "aba"))%nat.
Proof.
  apply (injection_count_bounds ascii_isalpha half_typer detour_in_the_middle
           never_set (codes "aba") 0 0).
  - repeat split; discriminate.
  - intros char. reflexivity.
  - apply ascii_letters_in_range.
Defined.

(** ** Runs with error rate 0 *)

Lemma skipn_cons_nth (text : str) i :
  (i < length text)%nat -> skipn i text = nth i text 0 :: skipn (S i) text.
Proof.
  revert i. induction text as [| c text IH]; intros [| i] H; simpl in *; try lia.
  - reflexivity.
  - apply IH. lia.
Qed.

Lemma sends_direct_events self tape chars last_char pos :
  sends (direct_events self tape chars last_char pos) = chars.
Proof.
  revert last_char pos. induction chars as [| c chars IH]; intros last_char pos; simpl.
  - reflexivity.
  - now rewrite sends_app, pause_events_sends, IH.
Qed.

Lemma direct_events_instant self tape chars last_char pos :
  _mode self = INSTANT ->
  direct_events self tape chars last_char pos
  = flat_map (fun c => [Poll false; Send c]) chars.
Proof.
  intros Hmode. revert last_char pos.
  induction chars as [| c chars IH]; intros last_char pos; simpl; [reflexivity |].
  unfold pause_events at 1. rewrite Hmode. simpl. now rewrite IH.
Qed.

Lemma direct_events_machine_gun self tape chars last_char pos :
  _mode self = MACHINE_GUN ->
  direct_events self tape chars last_char pos
  = flat_map (fun c => [Poll false; Send c;
                        Sleep (Fixed (fst (_typing_delay self)))]) chars.
Proof.
  intros Hmode. revert last_char pos.
  induction chars as [| c chars IH]; intros last_char pos; simpl; [reflexivity |].
  unfold pause_events at 1. rewrite Hmode. simpl. now rewrite IH.
Qed.

Lemma takes_detour_rate_zero isalpha self tape char pos :
  (_error_rate self <= 0)%Q -> takes_detour isalpha self tape char pos = false.
Proof.
  intros Hrate. destruct (takes_detour isalpha self tape char pos) eqn:Hd; [| reflexivity].
  apply takes_detour_iff in Hd. destruct Hd as [Hd _].
  destruct (unit_draw_range (tape pos)) as [H0 _].
  exfalso. apply (Qlt_irrefl 0).
  eapply Qle_lt_trans; [exact H0 |]. eapply Qlt_le_trans; eassumption.
Qed.

Lemma typing_loop_direct_run isalpha self tape stop text :
  backend_returns self ->
  _mode self = INSTANT \/ delays_in_range self ->
  (_error_rate self <= 0)%Q ->
  (forall t, stop t = false) ->
  forall fuel last_char i pos now,
    (i <= length text)%nat ->
    (length text - i <= fuel)%nat ->
    run tape stop (typing_loop isalpha self fuel text last_char i) pos now
    = {| result := Returned tt;
         drawn := (length text - i) * (1 + pause_draws self);
         emitted := direct_events self tape (skipn i text) last_char pos |}.
Proof.
  intros Hsend Hpause Hrate Hnever.
  induction fuel as [| fuel IH]; intros last_char i pos now Hle Hfuel.
  - rewrite typing_loop_exit by lia.
    replace (length text - i)%nat with 0%nat by lia.
    now rewrite skipn_all2 by lia.
  - destruct (Nat.eq_dec i (length text)) as [-> | Hne].
    + rewrite typing_loop_exit by lia.
      rewrite Nat.sub_diag. now rewrite skipn_all.
    + assert (Hi : (i < length text)%nat) by lia.
      rewrite (typing_loop_direct isalpha self tape stop Hsend fuel text last_char
                 i pos now Hpause Hi (Hnever now)
                 (takes_detour_rate_zero _ _ _ _ _ Hrate)).
      rewrite IH by lia. rewrite (skipn_cons_nth text i Hi).
      replace (length text - i)%nat with (S (length text - (i + 1)))%nat by lia.
      replace (i + 1)%nat with (S i) by lia.
      unfold after. simpl. f_equal; lia.
Qed.

(** X4. With an error rate of 0 or below and a backend that returns, in
    INSTANT mode or with a typing delay in range, a run that
    is never stopped polls, hands to the backend and pauses once per
    character and nothing else: it hands over exactly the characters of
    the text, in order (also when the text holds control characters).  In
    INSTANT mode it consists of the polls and the characters alone; in
    MACHINE_GUN mode every character is followed by a sleep of the lower
    bound of the typing delay. *)
Theorem zero_rate_run
        (isalpha : Z -> bool) (self : CharacterTyper)
        (tape : nat -> Z) (stop : nat -> bool)
        (text : str) (pos now : nat) :
  backend_returns self ->
  _mode self = INSTANT \/ delays_in_range self ->
  (_error_rate self <= 0)%Q ->
  (forall t, stop t = false) ->
  run tape stop (_simulate_typing isalpha self text) pos now
  = {| result := Returned tt;
       drawn := length text * (1 + pause_draws self);
       emitted := direct_events self tape text None pos |}
  /\ sends (emitted (run tape stop (_simulate_typing isalpha self text) pos now)) = text
  /\ (_mode self = INSTANT ->
      emitted (run tape stop (_simulate_typing isalpha self text) pos now)
      = flat_map (fun c => [Poll false; Send c]) text)
  /\ (_mode self = MACHINE_GUN ->
      emitted (run tape stop (_simulate_typing isalpha self text) pos now)
      = flat_map (fun c => [Poll false; Send c;
                            Sleep (Fixed (fst (_typing_delay self)))]) text).
Proof.
  intros Hsend Hpause Hrate Hnever.
  assert (Hrun : run tape stop (_simulate_typing isalpha self text) pos now
                 = {| result := Returned tt;
                      drawn := length text * (1 + pause_draws self);
                      emitted := direct_events self tape text None pos |}).
  { unfold _simulate_typing.
    rewrite (typing_loop_direct_run isalpha self tape stop text Hsend Hpause Hrate
               Hnever (length text) None 0 pos now) by lia.
    now rewrite Nat.sub_0_r. }
  rewrite Hrun. cbn [emitted]. split; [reflexivity |].
  split; [apply sends_direct_events |].
  split; intros Hmode.
  - now apply direct_events_instant.
  - now apply direct_events_machine_gun.
Qed.

Lemma zero_rate_run_witness :
  emitted (run (tape_of []) never_set
               (_simulate_typing ascii_isalpha
                                 (set_typing_mode (set_error_rate fresh_typer 0) MACHINE_GUN)
                                 (codes "ok")) 0 0)
  = [ Poll false; Send 111; Sleep (Fixed (5 # 100));
      Poll false; Send 107; Sleep (Fixed (5 # 100)) ].
Proof.
  destruct (zero_rate_run ascii_isalpha
              (set_typing_mode (set_error_rate fresh_typer 0) MACHINE_GUN)
              (tape_of []) never_set (codes "ok") 0 0) as (_ & _ & _ & Hgun).
  - intros char. reflexivity.
  - right. repeat split; discriminate.
  - discriminate.
  - reflexivity.
  - now rewrite Hgun.
Defined.

(** X6. [_simulate_typo] called with the cursor at or past the end of
    the text raises [ValueError] (the range of [randint] is empty) before
    anything is drawn or injected. *)
Theorem simulate_typo_past_the_end
        (isalpha : Z -> bool) (self : CharacterTyper)
        (tape : nat -> Z) (stop : nat -> bool)
        (text : str) (i pos now : nat) :
  (length text <= i)%nat ->
  run tape stop (_simulate_typo isalpha self text i) pos now
  = {| result := Raised ValueError; drawn := 0; emitted := [] |}.
Proof.
  intros Hi. unfold _simulate_typo, randint.
  destruct (Z.ltb_spec (Z.min 3 (Z.of_nat (length text) - Z.of_nat i)) 1) as [_ | H];
    [reflexivity | lia].
Qed.

Lemma simulate_typo_past_the_end_witness :
  run (tape_of []) never_set (_simulate_typo ascii_isalpha fresh_typer (codes "ab") 2) 0 0
  = {| result := Raised ValueError; drawn := 0; emitted := [] |}.
Proof.
  apply (simulate_typo_past_the_end ascii_isalpha fresh_typer (tape_of []) never_set
           (codes "ab") 2 0 0).
  simpl. lia.
Defined.

(** * Further properties of the backends *)

(** X7. With the Windows backend an injection is one press followed by
    one release of the same key, whatever the character; so over any
    sequence of injections presses and releases alternate, and no key
    stays down. *)
Theorem every_press_is_released :
  (forall c,
      exists key,
        map key_of (filter (fun e => is_key_down e || is_key_up e)
                           (_windows_send_input c))
        = [Some key; Some key]
        /\ key_moves (_windows_send_input c) = [true; false])
  /\ forall cs,
      key_moves (flat_map _windows_send_input cs) = flat_map (fun _ => [true; false]) cs.
Proof.
  assert (Hone : forall c, exists key,
               map key_of (filter (fun e => is_key_down e || is_key_up e)
                                  (_windows_send_input c))
               = [Some key; Some key]
               /\ key_moves (_windows_send_input c) = [true; false]).
  { intros c. unfold _windows_send_input.
    destruct (c =? NEWLINE); eexists; split; reflexivity. }
  split; [exact Hone |].
  induction cs as [| c cs IH]; [reflexivity |].
  cbn [flat_map]. unfold key_moves in *.
  rewrite filter_app, map_app, IH.
  destruct (Hone c) as (key & _ & Hc). unfold key_moves in Hc. now rewrite Hc.
Qed.

(** X8. The Windows backend puts a code point into a 16-bit field: a
    character up to 0xFFFF is sent as it is, and two characters whose
    code points agree in their low 16 bits are sent as the same events. *)
Theorem windows_sends_low_16_bits (c d : Z) :
  c <> NEWLINE -> d <> NEWLINE ->
  (0 <= c < 65536 ->
   map key_of (filter is_key_down (_windows_send_input c)) = [Some (0, c)])
  /\ (c mod 65536 = d mod 65536 -> _windows_send_input c = _windows_send_input d).
Proof.
  intros Hc Hd. unfold _windows_send_input.
  destruct (Z.eqb_spec c NEWLINE) as [? | _]; [contradiction |].
  destruct (Z.eqb_spec d NEWLINE) as [? | _]; [contradiction |].
  split.
  - intros Hrange. simpl. unfold WORD. rewrite (Z.mod_small c) by (simpl; lia).
    reflexivity.
  - intros Hlow. unfold WORD. change (2 ^ 16) with 65536. now rewrite Hlow.
Qed.

Lemma windows_sends_low_16_bits_witness :
  _windows_send_input 128512 = _windows_send_input 62976.
Proof.
  apply (windows_sends_low_16_bits 128512 62976); try discriminate. reflexivity.
Defined.

(** * Further properties of the engine *)

Lemma run_any_time {A : Type} tape (flag : bool) (m : Prog A) :
  forall pos now now',
    run tape (fun _ => flag) m pos now = run tape (fun _ => flag) m pos now'.
Proof.
  induction m as [a | e | c k IH]; intros pos now now'; simpl; try reflexivity.
  destruct c; simpl; erewrite IH; reflexivity.
Qed.

Section Draining.

Variable isalpha : Z -> bool.
Variable tape : nat -> Z.

Lemma perform_all_app acts1 acts2 e e1 :
  perform_all isalpha tape acts1 e = Some e1 ->
  perform_all isalpha tape (acts1 ++ acts2) e = perform_all isalpha tape acts2 e1.
Proof.
  revert e. induction acts1 as [| a acts1 IH]; intros e H; simpl in *.
  - now injection H as ->.
  - destruct (perform isalpha tape a e) as [e0 |]; [now apply IH | discriminate].
Qed.

Lemma set_nth_same {X : Type} tid (x : X) l :
  nth_error l tid = Some x -> set_nth tid x l = l.
Proof.
  revert tid. induction l as [| y l IHl]; intros [| tid] Ht;
    simpl in *; try discriminate; try reflexivity.
  - now injection Ht as ->.
  - f_equal. now apply IHl.
Qed.

Lemma set_nth_twice {X : Type} tid (x y : X) l :
  set_nth tid y (set_nth tid x l) = set_nth tid y l.
Proof.
  revert tid. induction l as [| z l IHl]; intros [| tid]; simpl; try reflexivity.
  f_equal. apply IHl.
Qed.

(** A thread left to itself runs to its end in finitely many steps, when
    [run] says how it ends for a stop event that stays as it is; what it
    logs and draws is what [run] says, and it touches nothing else. *)
Lemma worker_drains (t : Prog unit) :
  forall e tid t',
    nth_error (threads e) tid = Some t ->
    ended (result (run tape (fun _ => _stop_event e) t (rng e) 0)) = Some t' ->
    exists n e',
      perform_all isalpha tape (repeat (WorkerStep tid) n) e = Some e'
      /\ threads e' = set_nth tid t' (threads e)
      /\ log e' = log e ++ map (pair tid)
                               (emitted (run tape (fun _ => _stop_event e) t (rng e) 0))
      /\ rng e' = (rng e + drawn (run tape (fun _ => _stop_event e) t (rng e) 0))%nat
      /\ typer e' = typer e
      /\ _stop_event e' = _stop_event e
      /\ _typing_thread e' = _typing_thread e
      /\ caller e' = caller e.
Proof.
  induction t as [a | x | c k IH]; intros e tid t' Ht Hend.
  - simpl in Hend. injection Hend as <-.
    exists 0%nat, e. simpl. rewrite app_nil_r, Nat.add_0_r.
    repeat split; try reflexivity. symmetry. now apply set_nth_same.
  - simpl in Hend. injection Hend as <-.
    exists 0%nat, e. simpl. rewrite app_nil_r, Nat.add_0_r.
    repeat split; try reflexivity. symmetry. now apply set_nth_same.
  - assert (Htid : (tid < length (threads e))%nat)
      by (apply nth_error_Some; congruence).
    assert (Hstep :
              (exists r draws evs,
                  worker_step tape tid e = Some (continue tid e (k r) draws evs)
                  /\ forall now,
                      run tape (fun _ => _stop_event e) (Vis c k) (rng e) now
                      = after evs draws
                              (run tape (fun _ => _stop_event e) (k r)
                                   (rng e + draws) now))
              \/ (worker_step tape tid e
                  = Some (continue tid e (Raise ValueError) 0 [])
                  /\ run tape (fun _ => _stop_event e) (Vis c k) (rng e) 0
                     = {| result := Raised ValueError; drawn := 0; emitted := [] |})).
    { unfold worker_step. rewrite Ht. destruct c as [ch | d | |].
      - left. exists tt, 0%nat, [Send ch]. split; [reflexivity |].
        intros now. simpl. rewrite Nat.add_0_r. f_equal. apply run_any_time.
      - simpl in Hend |- *. destruct (sleep_raises d) as [[|] |].
        + right. split; reflexivity.
        + left. exists tt, 0%nat, [Sleep d]. split; [reflexivity |].
          intros now. rewrite Nat.add_0_r. f_equal. apply run_any_time.
        + discriminate Hend.
      - left. exists (_stop_event e), 0%nat, [Poll (_stop_event e)].
        split; [reflexivity |].
        intros now. simpl. rewrite Nat.add_0_r. f_equal. apply run_any_time.
      - left. exists (tape (rng e)), 1%nat, []. split; [reflexivity |].
        intros now. simpl. rewrite Nat.add_1_r. reflexivity. }
    destruct Hstep as [(r & draws & evs & Hstep & Hrun) | [Hstep Hrun]].
    + rewrite (Hrun 0%nat) in Hend. cbn [after result] in Hend.
      destruct (IH r (continue tid e (k r) draws evs) tid t')
        as (n & e' & Hall & Hthreads & Hlog & Hrng & Hty & Hst & Hth & Hca).
      { cbn [continue threads]. now apply nth_error_set_nth_eq. }
      { exact Hend. }
      exists (S n), e'. simpl repeat. simpl perform_all.
      change (perform isalpha tape (WorkerStep tid) e) with (worker_step tape tid e).
      rewrite Hstep. split; [exact Hall |].
      rewrite (Hrun 0%nat). unfold after. cbn [result emitted drawn].
      cbn [continue threads log rng typer _stop_event _typing_thread caller]
        in Hthreads, Hlog, Hrng, Hty, Hst, Hth, Hca.
      repeat split; try assumption.
      * rewrite Hthreads. apply set_nth_twice.
      * rewrite Hlog, map_app, app_assoc. reflexivity.
      * rewrite Hrng. lia.
    + rewrite Hrun in Hend |- *. simpl in Hend. injection Hend as <-.
      exists 1%nat, (continue tid e (Raise ValueError) 0 []).
      simpl repeat. simpl perform_all.
      change (perform isalpha tape (WorkerStep tid) e) with (worker_step tape tid e).
      rewrite Hstep. repeat split; reflexivity.
Qed.

End Draining.

Lemma sends_of_owner tid evs :
  sends (map snd (filter (fun entry => Nat.eqb (fst entry) tid) (map (pair tid) evs)))
  = sends evs.
Proof.
  induction evs as [| ev evs IH]; simpl; [reflexivity |].
  rewrite Nat.eqb_refl. simpl. destruct ev; simpl; now rewrite IH.
Qed.

Lemma stopped_from_the_start isalpha self tape text pos now :
  result (run tape (fun _ => true) (_simulate_typing isalpha self text) pos now)
  = Returned tt
  /\ sends (emitted (run tape (fun _ => true) (_simulate_typing isalpha self text)
                         pos now))
     = [].
Proof.
  unfold _simulate_typing. destruct text as [| c text].
  - split; reflexivity.
  - change (length (c :: text)) with (S (length text)).
    rewrite typing_loop_stopped; [split; reflexivity | simpl; lia | reflexivity].
Qed.

(** X10. [type_text(text)] followed by [wait_until_done()] on a fresh
    engine, with the Windows backend and a typing delay in range: the
    thread runs to its end, its events are those of a run
    that is never stopped, and when the wait returns no thread is alive
    and the application has received the whole text.  The text holds no
    backspace character, and its characters, with the typos of its
    letters, fit the 16-bit scan field. *)
Theorem type_text_then_wait
        (isalpha : Z -> bool) (tape : nat -> Z)
        (self : CharacterTyper) (text : str) :
  delays_in_range self ->
  _send_input self = WindowsBackend ->
  letters_in_range isalpha text ->
  fits_scan_code isalpha text ->
  ~ In BACKSPACE text ->
  exists n e',
    perform_all isalpha tape
                ([CallTypeText text; ReturnTypeText; CallWaitUntilDone]
                   ++ repeat (WorkerStep 0) n ++ [ReturnWaitUntilDone])
                (engine_of self)
    = Some e'
    /\ caller e' = Idle
    /\ alive_threads e' = []
    /\ log e' = map (pair 0%nat)
                    (emitted (run tape never_set (_simulate_typing isalpha self text) 0 0))
    /\ forall buffer,
        type_into buffer (received self (injections_of 0 e')) = buffer ++ text.
Proof.
  intros Hdelay Hwin Hok Hfit Hno.
  destruct (whole_text_received isalpha self tape never_set text 0 0
              Hdelay Hwin Hok Hfit Hno (fun _ => eq_refl)) as [Hres Htyped].
  set (e3 := with_caller InWaitUntilDone
                         (start_typing isalpha text
                                       (with_caller (InTypeText text) (engine_of self)))).
  destruct (worker_drains isalpha tape (_simulate_typing isalpha self text) e3 0
                          (Ret tt) eq_refl)
    as (n & e4 & Hall & Hthreads & Hlog & _ & _ & _ & Hth & Hca).
  { change (ended (result (run tape never_set (_simulate_typing isalpha self text) 0 0))
            = Some (Ret tt)).
    now rewrite Hres. }
  exists n, (with_caller Idle e4).
  assert (Hrun : perform_all isalpha tape
                   ([CallTypeText text; ReturnTypeText; CallWaitUntilDone]
                      ++ repeat (WorkerStep 0) n ++ [ReturnWaitUntilDone])
                   (engine_of self)
                 = Some (with_caller Idle e4)).
  { change (perform_all isalpha tape
              ([CallTypeText text; ReturnTypeText; CallWaitUntilDone]
                 ++ repeat (WorkerStep 0) n ++ [ReturnWaitUntilDone])
              (engine_of self))
      with (perform_all isalpha tape
              (repeat (WorkerStep 0) n ++ [ReturnWaitUntilDone]) e3).
    rewrite (perform_all_app isalpha tape _ _ _ _ Hall). simpl.
    unfold perform. rewrite Hca. simpl caller.
    unfold typing_thread_alive. rewrite Hth, Hthreads. reflexivity. }
  split; [exact Hrun |]. split; [reflexivity |].
  simpl in Hlog, Hthreads.
  split; [| split].
  - unfold alive_threads. simpl. rewrite Hthreads. reflexivity.
  - simpl. exact Hlog.
  - intros buffer. unfold injections_of. simpl. rewrite Hlog, sends_of_owner.
    apply Htyped.
Qed.

Lemma type_text_then_wait_witness :
  exists n e',
    perform_all ascii_isalpha (tape_of [])
                ([CallTypeText (codes "hi"); ReturnTypeText; CallWaitUntilDone]
                   ++ repeat (WorkerStep 0) n ++ [ReturnWaitUntilDone])
                (engine_of fresh_typer)
    = Some e'
    /\ type_into [] (received fresh_typer (injections_of 0 e')) = codes "hi".
Proof.
  destruct (type_text_then_wait ascii_isalpha (tape_of []) fresh_typer (codes "hi"))
    as (n & e' & Hrun & _ & _ & _ & Htyped).
  - repeat split; discriminate.
  - reflexivity.
  - apply ascii_letters_in_range.
  - apply ascii_fits_scan_code. repeat constructor; discriminate.
  - simpl. unfold BACKSPACE. intros [H | [H | []]]; discriminate H.
  - exists n, e'. split; [exact Hrun | apply (Htyped [])].
Defined.

(** X11. [stop_typing()] called right after [type_text(text)], before the
    thread has made a step: the thread finds the event set at its first
    poll and ends, nothing is injected, and the event is still set when
    [stop_typing] returns. *)
Theorem stop_before_the_first_poll
        (isalpha : Z -> bool) (tape : nat -> Z)
        (self : CharacterTyper) (text : str) :
  exists n e',
    perform_all isalpha tape
                ([CallTypeText text; ReturnTypeText; CallStopTyping]
                   ++ repeat (WorkerStep 0) n ++ [ReturnStopTyping])
                (engine_of self)
    = Some e'
    /\ caller e' = Idle
    /\ alive_threads e' = []
    /\ injections_of 0 e' = []
    /\ _stop_event e' = true.
Proof.
  set (e2 := start_typing isalpha text (with_caller (InTypeText text) (engine_of self))).
  set (e3 := {| typer := typer e2; _stop_event := true;
                _typing_thread := _typing_thread e2; threads := threads e2;
                caller := InStopTyping; rng := rng e2; log := log e2 |}).
  destruct (stopped_from_the_start isalpha self tape text 0 0) as [Hres Hsends].
  destruct (worker_drains isalpha tape (_simulate_typing isalpha self text) e3 0
                          (Ret tt) eq_refl)
    as (n & e4 & Hall & Hthreads & Hlog & _ & _ & Hst & Hth & Hca).
  { change (ended (result (run tape (fun _ => true)
                               (_simulate_typing isalpha self text) 0 0))
            = Some (Ret tt)).
    now rewrite Hres. }
  exists n, (with_caller Idle e4).
  assert (Hrun : perform_all isalpha tape
                   ([CallTypeText text; ReturnTypeText; CallStopTyping]
                      ++ repeat (WorkerStep 0) n ++ [ReturnStopTyping])
                   (engine_of self)
                 = Some (with_caller Idle e4)).
  { change (perform_all isalpha tape
              ([CallTypeText text; ReturnTypeText; CallStopTyping]
                 ++ repeat (WorkerStep 0) n ++ [ReturnStopTyping])
              (engine_of self))
      with (perform_all isalpha tape
              (repeat (WorkerStep 0) n ++ [ReturnStopTyping]) e3).
    rewrite (perform_all_app isalpha tape _ _ _ _ Hall). simpl.
    unfold perform. rewrite Hca. simpl caller.
    unfold typing_thread_alive. rewrite Hth, Hthreads. reflexivity. }
  split; [exact Hrun |]. split; [reflexivity |].
  simpl in Hlog, Hthreads, Hst.
  split; [| split].
  - unfold alive_threads. simpl. rewrite Hthreads. reflexivity.
  - unfold injections_of. simpl. rewrite Hlog, sends_of_owner.
    exact Hsends.
  - simpl. exact Hst.
Qed.

(** * Properties of the front end *)

(** ** Strings and sets *)

Lemma str_eqb_eq (a b : str) : Main.str_eqb a b = true <-> a = b.
Proof.
  revert b; induction a as [|x a IH]; intros [|y b]; simpl; split; intro H;
    try reflexivity; try discriminate.
  - apply andb_true_iff in H as [Hx Hab]. apply Z.eqb_eq in Hx.
    apply IH in Hab. congruence.
  - injection H as -> ->. rewrite Z.eqb_refl. simpl. apply IH. reflexivity.
Qed.

Lemma str_eqb_refl (a : str) : Main.str_eqb a a = true.
Proof. apply str_eqb_eq. reflexivity. Qed.

Lemma str_eqb_neq (a b : str) : Main.str_eqb a b = false <-> a <> b.
Proof.
  split.
  - intros H Heq. apply str_eqb_eq in Heq. congruence.
  - intro H. destruct (Main.str_eqb a b) eqn:E; [|reflexivity].
    apply str_eqb_eq in E. contradiction.
Qed.

Lemma str_eqb_sym (a b : str) : Main.str_eqb a b = Main.str_eqb b a.
Proof.
  destruct (Main.str_eqb b a) eqn:E.
  - apply str_eqb_eq in E. subst. apply str_eqb_refl.
  - apply str_eqb_neq in E. apply str_eqb_neq. congruence.
Qed.

(** ** What the methods leave alone *)

Lemma quiet_refl (s : Main.State) : quiet s s.
Proof.
  repeat split. exists []. rewrite app_nil_r. split; reflexivity.
Qed.

Lemma calls_app (a b : list Main.UiEvent) : calls (a ++ b) = calls a ++ calls b.
Proof. apply filter_app. Qed.

Lemma quiet_trans (a b c : Main.State) : quiet a b -> quiet b c -> quiet a c.
Proof.
  intros (H1 & H2 & e1 & H3 & H4) (H5 & H6 & e2 & H7 & H8).
  split; [congruence|]. split; [congruence|].
  exists (e1 ++ e2). rewrite H7, H3, app_assoc, calls_app, H4, H8.
  split; reflexivity.
Qed.

Lemma quiet_types_once (a b : Main.State) : quiet a b -> types_once a b.
Proof.
  intros (H1 & H2 & e1 & H3 & H4). repeat split; try assumption.
  exists e1. split; [assumption|]. left; assumption.
Qed.

Lemma quiet_then_types_once (a b c : Main.State) :
  quiet a b -> types_once b c -> types_once a c.
Proof.
  intros (H1 & H2 & e1 & H3 & H4) (H5 & H6 & e2 & H7 & H8).
  split; [congruence|]. split; [congruence|].
  exists (e1 ++ e2). rewrite H7, H3, app_assoc, calls_app, H4.
  split; [reflexivity|]. exact H8.
Qed.

Section Stable.

Context {A B : Type}.
Variables R1 R2 R3 : Main.State -> Main.State -> Prop.
Hypothesis compose : forall a b c, R1 a b -> R2 b c -> R3 a c.
Hypothesis weaken : forall a b, R1 a b -> R3 a b.

Lemma stable_bind (m : Main.M A) (f : A -> Main.M B) :
  stable R1 m -> (forall a, stable R2 (f a)) -> stable R3 (Main.bind m f).
Proof.
  intros Hm Hf s. unfold Main.bind. specialize (Hm s).
  destruct (m s) as [[a|e|] s']; simpl in *.
  - eapply compose; [exact Hm|]. apply Hf.
  - apply weaken, Hm.
  - apply weaken, Hm.
Qed.

End Stable.

Lemma quiet_bind {A B : Type} (m : Main.M A) (f : A -> Main.M B) :
  stable quiet m -> (forall a, stable quiet (f a)) -> stable quiet (Main.bind m f).
Proof. apply stable_bind; [apply quiet_trans | auto]. Qed.

Lemma quiet_bind_types_once {A B : Type} (m : Main.M A) (f : A -> Main.M B) :
  stable quiet m -> (forall a, stable types_once (f a)) ->
  stable types_once (Main.bind m f).
Proof. apply stable_bind; [apply quiet_then_types_once | apply quiet_types_once]. Qed.

Lemma quiet_ret {A : Type} (a : A) : stable quiet (Main.ret a).
Proof. intro s. apply quiet_refl. Qed.

Lemma quiet_raise {A : Type} (e : Main.Exn) : stable quiet (@Main.raise A e).
Proof. intro s. apply quiet_refl. Qed.

Lemma quiet_hang {A : Type} : stable quiet (@Main.hang A).
Proof. intro s. apply quiet_refl. Qed.

Lemma quiet_get_self : stable quiet Main.get_self.
Proof. intro s. apply quiet_refl. Qed.

Lemma quiet_now : stable quiet Main.now.
Proof. intro s. apply quiet_refl. Qed.

Lemma quiet_emit (e : Main.UiEvent) : is_call e = false -> stable quiet (Main.emit e).
Proof.
  intros He s. repeat split. exists [e]. split; [reflexivity|].
  unfold calls. simpl. rewrite He. reflexivity.
Qed.

Lemma quiet_used_lines (g : Main.AutoTyper -> str -> bool) :
  stable quiet (Main.assign (fun a => Main.with_used_lines (g a) a)).
Proof.
  intro s. repeat split. exists []. simpl. rewrite app_nil_r. split; reflexivity.
Qed.

Lemma quiet_draw (w : Main.World) : stable quiet (Main.draw w).
Proof.
  intro s. repeat split. exists []. simpl. rewrite app_nil_r. split; reflexivity.
Qed.

Lemma quiet_index {X : Type} (l : list X) (i : Z) : stable quiet (Main.index l i).
Proof.
  unfold Main.index. destruct (Main.lookup l i); [apply quiet_ret | apply quiet_raise].
Qed.

Lemma quiet_random_choice {X : Type} (w : Main.World) (l : list X) :
  stable quiet (Main.random_choice w l).
Proof.
  destruct l as [|x l]; simpl; [apply quiet_raise|].
  apply quiet_bind; [apply quiet_draw | intro; apply quiet_ret].
Qed.

Lemma quiet_random_randint (w : Main.World) (a b : Z) :
  stable quiet (Main.random_randint w a b).
Proof.
  unfold Main.random_randint. destruct (b <? a); [apply quiet_raise|].
  apply quiet_bind; [apply quiet_draw | intro; apply quiet_ret].
Qed.

Lemma quiet_iterate (w : Main.World) (l : list str) : stable quiet (Main.iterate w l).
Proof.
  apply quiet_bind; [apply quiet_now | intro; apply quiet_ret].
Qed.

Lemma quiet_for_each {X : Type} (xs : list X) (body : X -> Main.M unit) :
  (forall x, stable quiet (body x)) -> stable quiet (Main.for_each xs body).
Proof.
  intro H. induction xs as [|x xs IH]; simpl; [apply quiet_ret|].
  apply quiet_bind; [apply H | intro; apply IH].
Qed.

Create HintDb quiet_db.

#[local] Hint Resolve quiet_ret quiet_raise quiet_hang quiet_get_self quiet_now
  quiet_used_lines quiet_draw quiet_index quiet_random_choice quiet_random_randint
  quiet_iterate : quiet_db.

Ltac quiet_step :=
  first
    [ apply quiet_bind; [|intro]
    | apply quiet_emit; reflexivity
    | apply quiet_for_each; intro
    | solve [auto with quiet_db]
    | match goal with
      | |- stable quiet (match ?x with _ => _ end) => destruct x
      | |- stable quiet (if ?x then _ else _) => destruct x
      | |- stable quiet (let (_, _) := ?x in _) => destruct x
      end ].

Ltac quiet_steps := repeat quiet_step.

Section QuietMethods.

Variable w : Main.World.

Lemma quiet__get_random_line (path : str) : stable quiet (Main._get_random_line w path).
Proof. unfold Main._get_random_line, Main.print. quiet_steps. Qed.

Lemma quiet__get_allowed_demon_types : stable quiet (Main._get_allowed_demon_types w).
Proof. unfold Main._get_allowed_demon_types. quiet_steps. Qed.

Lemma quiet_paragraph_lines (n : nat) (lines : list str) :
  stable quiet (Main.paragraph_lines w n lines).
Proof.
  revert lines. induction n as [|n IH]; intro lines; simpl; [apply quiet_ret|].
  apply quiet_bind; [apply quiet_get_self | intro self].
  apply quiet_bind; [apply quiet__get_random_line | intros [l|]]; [|apply IH].
  destruct (Main.nonempty l); apply IH.
Qed.

Lemma quiet_beef_lines (fuel : nat) (line1 line2 : option str) :
  stable quiet (Main.beef_lines w fuel line1 line2).
Proof.
  revert line1 line2. induction fuel as [|fuel IH]; intros line1 line2.
  - simpl. destruct line1 as [l1|], line2 as [l2|]; try apply quiet_hang.
    destruct (_ || _); [apply quiet_hang | apply quiet_ret].
  - assert (Hagain : stable quiet
      (Main.bind Main.get_self (fun self =>
       Main.bind (Main._get_random_line w (Main._wordlist_path self)) (fun line1 =>
       Main.bind Main.get_self (fun self =>
       Main.bind (Main._get_random_line w (Main._wordlist_path self)) (fun line2 =>
       Main.beef_lines w fuel line1 line2)))))).
    { apply quiet_bind; [apply quiet_get_self | intro].
      apply quiet_bind; [apply quiet__get_random_line | intro].
      apply quiet_bind; [apply quiet_get_self | intro].
      apply quiet_bind; [apply quiet__get_random_line | intro].
      apply IH. }
    simpl. destruct line1 as [l1|], line2 as [l2|]; try exact Hagain.
    destruct (_ || _); [exact Hagain | apply quiet_ret].
Qed.

Lemma quiet_first_unused (n : nat) (path : Main.AutoTyper -> str) :
  stable quiet (Main.first_unused w n path).
Proof.
  induction n as [|n IH]; simpl; [apply quiet_ret|].
  apply quiet_bind; [apply quiet_get_self | intro self].
  apply quiet_bind; [apply quiet__get_random_line | intro line].
  apply quiet_bind; [apply quiet_get_self | intro self'].
  destruct line as [l|]; [|apply IH].
  destruct (_ && _); [|apply IH]. quiet_steps.
Qed.

Lemma quiet_long_lines (left : nat) (lines : list str) :
  stable quiet (Main.long_lines w left lines).
Proof.
  revert lines. induction left as [|left IH]; intro lines; simpl; [apply quiet_ret|].
  destruct (_ <? _)%nat; [|apply quiet_ret].
  apply quiet_bind; [apply quiet_get_self | intro self].
  apply quiet_bind; [apply quiet__get_random_line | intro line].
  apply quiet_bind; [apply quiet_get_self | intro self'].
  destruct line as [l|]; [|apply IH].
  destruct (_ && _); apply IH.
Qed.

End QuietMethods.

(** ** One text for each press of Tab *)

Section Packs.

Variable w : Main.World.

Lemma types_once__handle_typing (text : str) (transform : option (str -> str))
      (hold_shift : bool) :
  stable types_once (Main._handle_typing w text transform hold_shift).
Proof.
  intro s. unfold Main._handle_typing, Main.bind, Main.emit, Main.get_self, Main.ret.
  destruct hold_shift; simpl; repeat split.
  - eexists. split.
    + repeat rewrite <- app_assoc. reflexivity.
    + right. exists true. eexists. reflexivity.
  - eexists. split.
    + repeat rewrite <- app_assoc. reflexivity.
    + right. exists false. eexists. reflexivity.
Qed.

Lemma quiet_bind_guarded {A B : Type} (m : Main.M A) (f : A -> Main.M B) :
  stable quiet m -> (forall a, stable (guarded types_once) (f a)) ->
  stable (guarded types_once) (Main.bind m f).
Proof.
  apply stable_bind.
  - intros a b c Hab Hbc Ha. eapply quiet_then_types_once; [exact Hab|].
    apply Hbc. destruct Hab as (_ & Hflag & _). congruence.
  - intros a b Hab _. apply quiet_types_once, Hab.
Qed.

Lemma guarded_types_once {A : Type} (m : Main.M A) :
  stable types_once m -> stable (guarded types_once) m.
Proof. intros H s _. apply H. Qed.

Lemma types_once__handle_normal_mode (write_pack : Main.M unit) :
  stable (guarded types_once) write_pack ->
  stable (guarded types_once) (Main._handle_normal_mode w write_pack).
Proof.
  intro Hrec. unfold Main._handle_normal_mode.
  apply quiet_bind_guarded; [apply quiet_get_self | intro self].
  apply quiet_bind_guarded; [apply quiet_random_randint | intro choice].
  apply quiet_bind_guarded; [apply quiet__get_random_line | intro line].
  apply quiet_bind_guarded; [apply quiet_get_self | intro self'].
  destruct line as [l|]; [|exact Hrec].
  destruct (_ || _); [exact Hrec|].
  apply quiet_bind_guarded; [quiet_steps | intro l'].
  apply quiet_bind_guarded; [quiet_steps | intro].
  apply guarded_types_once, types_once__handle_typing.
Qed.

Lemma types_once__handle_ladder_mode (write_pack : Main.M unit) :
  stable (guarded types_once) write_pack ->
  stable (guarded types_once) (Main._handle_ladder_mode w write_pack).
Proof.
  intro Hrec. unfold Main._handle_ladder_mode.
  apply quiet_bind_guarded; [apply quiet_get_self | intro self].
  apply quiet_bind_guarded; [apply quiet__get_random_line | intro line].
  apply quiet_bind_guarded; [apply quiet_get_self | intro self'].
  destruct line as [l|]; [|exact Hrec].
  destruct (_ || _); [exact Hrec|].
  apply quiet_bind_guarded; [quiet_steps | intro].
  apply guarded_types_once, types_once__handle_typing.
Qed.

Lemma types_once__handle_paragraph_mode :
  stable types_once (Main._handle_paragraph_mode w).
Proof.
  unfold Main._handle_paragraph_mode.
  apply quiet_bind_types_once; [apply quiet_paragraph_lines | intro lines].
  apply quiet_bind_types_once; [quiet_steps | intro].
  apply types_once__handle_typing.
Qed.

Lemma types_once__handle_beef_mode (fuel : nat) :
  stable types_once (Main._handle_beef_mode w fuel).
Proof.
  unfold Main._handle_beef_mode.
  apply quiet_bind_types_once; [apply quiet_get_self | intro self].
  apply quiet_bind_types_once; [apply quiet__get_random_line | intro line1].
  apply quiet_bind_types_once; [apply quiet_get_self | intro self'].
  apply quiet_bind_types_once; [apply quiet__get_random_line | intro line2].
  apply quiet_bind_types_once; [apply quiet_beef_lines | intros [l1 l2]].
  apply quiet_bind_types_once; [quiet_steps | intro].
  apply quiet_bind_types_once; [quiet_steps | intro].
  apply types_once__handle_typing.
Qed.

Lemma types_once__handle_demon_mode : stable types_once (Main._handle_demon_mode w).
Proof.
  unfold Main._handle_demon_mode.
  apply quiet_bind_types_once; [apply quiet__get_allowed_demon_types | intro allowed].
  apply quiet_bind_types_once; [apply quiet_random_choice | intro selected].
  apply quiet_bind_types_once; [quiet_steps | intro].
  apply quiet_bind_types_once.
  - destruct (Main.str_eqb selected (codes "short")).
    { apply quiet_bind; [apply quiet_first_unused | intro; apply quiet_ret]. }
    destruct (Main.str_eqb selected (codes "middle")).
    { apply quiet_bind; [apply quiet_first_unused | intro; apply quiet_ret]. }
    destruct (Main.str_eqb selected (codes "long")); [|apply quiet_ret].
    apply quiet_bind; [apply quiet_long_lines | intro lines].
    destruct (_ =? _)%nat; quiet_steps.
  - intro parts.
    destruct (flat_map _ parts).
    + intro s. apply quiet_types_once, quiet_refl.
    + apply types_once__handle_typing.
Qed.

(** A call of [write_pack] from within [write_pack] comes back at once. *)
Lemma write_pack_nested (fuel : nat) (s : Main.State) :
  Main._is_typing (Main.this s) = true ->
  Main.write_pack w (S fuel) s = (Main.Done tt, s).
Proof.
  intro H. simpl. unfold Main.bind, Main.get_self. rewrite H. reflexivity.
Qed.

Lemma write_pack_guarded (fuel : nat) :
  stable (guarded types_once) (Main.write_pack w fuel).
Proof.
  intros s H. destruct fuel as [|fuel].
  - apply quiet_types_once, quiet_refl.
  - rewrite write_pack_nested by exact H. apply quiet_types_once, quiet_refl.
Qed.

Lemma write_pack_unfold (fuel : nat) (s : Main.State) :
  Main.write_pack w (S fuel) s =
  if Main._is_typing (Main.this s) then (Main.Done tt, s)
  else Main.finally (pack_body w fuel) (Main.assign (Main.with_is_typing false))
         {| Main.this := Main.with_is_typing true (Main.this s);
            Main.draws := Main.draws s;
            Main.trace := Main.trace s |}.
Proof.
  simpl. unfold Main.bind at 1. unfold Main.get_self.
  destruct (Main._is_typing (Main.this s)); reflexivity.
Qed.

Lemma pack_body_types_once (fuel : nat) (s : Main.State) :
  Main._is_typing (Main.this s) = true ->
  settings (Main.this (snd (pack_body w fuel s))) = settings (Main.this s) /\
  Main._is_typing (Main.this (snd (pack_body w fuel s))) = true /\
  exists evs,
    Main.trace (snd (pack_body w fuel s)) = Main.trace s ++ evs /\
    (calls evs = [Main.KeyboardRelease (codes "tab")] \/
     exists hold_shift text,
       calls evs = Main.KeyboardRelease (codes "tab") :: typing_calls hold_shift text).
Proof.
  intro Hflag.
  set (s2 := {| Main.this := Main.this s; Main.draws := Main.draws s;
                Main.trace := (Main.trace s ++ [Main.KeyboardRelease (codes "tab")])
                              ++ [Main.Sleep (5 # 100)] |}).
  set (handler :=
    if Main.str_eqb (Main._mode (Main.this s)) (codes "normal") then
      Main._handle_normal_mode w (Main.write_pack w fuel)
    else if Main.str_eqb (Main._mode (Main.this s)) (codes "ladder") then
      Main._handle_ladder_mode w (Main.write_pack w fuel)
    else if Main.str_eqb (Main._mode (Main.this s)) (codes "paragraph") then
      Main._handle_paragraph_mode w
    else if Main.str_eqb (Main._mode (Main.this s)) (codes "beef") then
      Main._handle_beef_mode w fuel
    else if Main.str_eqb (Main._mode (Main.this s)) (codes "demon") then
      Main._handle_demon_mode w
    else Main.ret tt).
  assert (Hbody : pack_body w fuel s = handler s2) by reflexivity.
  assert (Hh : stable (guarded types_once) handler).
  { unfold handler.
    destruct (Main.str_eqb _ (codes "normal")).
    { apply types_once__handle_normal_mode, write_pack_guarded. }
    destruct (Main.str_eqb _ (codes "ladder")).
    { apply types_once__handle_ladder_mode, write_pack_guarded. }
    destruct (Main.str_eqb _ (codes "paragraph")).
    { apply guarded_types_once, types_once__handle_paragraph_mode. }
    destruct (Main.str_eqb _ (codes "beef")).
    { apply guarded_types_once, types_once__handle_beef_mode. }
    destruct (Main.str_eqb _ (codes "demon")).
    { apply guarded_types_once, types_once__handle_demon_mode. }
    intros x _. apply quiet_types_once, quiet_refl. }
  rewrite Hbody. destruct (Hh s2 Hflag) as (H1 & H2 & evs & H3 & H4).
  split; [exact H1|]. split; [rewrite H2; exact Hflag|].
  exists ([Main.KeyboardRelease (codes "tab"); Main.Sleep (5 # 100)] ++ evs).
  split.
  - rewrite H3. unfold s2. simpl. rewrite <- !app_assoc. reflexivity.
  - rewrite calls_app. change (calls [Main.KeyboardRelease (codes "tab"); Main.Sleep (5 # 100)])
      with [Main.KeyboardRelease (codes "tab")].
    destruct H4 as [-> | (h & t & ->)]; [left; reflexivity|].
    right. exists h, t. reflexivity.
Qed.

Lemma write_pack_one_pack (fuel : nat) : stable one_pack (Main.write_pack w fuel).
Proof.
  intro s. destruct fuel as [|fuel].
  { split; [reflexivity|]. exists []. split; [simpl; rewrite app_nil_r; reflexivity|].
    left; reflexivity. }
  rewrite write_pack_unfold.
  destruct (Main._is_typing (Main.this s)) eqn:Hflag.
  { split; [reflexivity|]. exists []. split; [simpl; rewrite app_nil_r; reflexivity|].
    left; reflexivity. }
  set (s1 := {| Main.this := Main.with_is_typing true (Main.this s);
                Main.draws := Main.draws s; Main.trace := Main.trace s |}).
  destruct (pack_body_types_once fuel s1 eq_refl) as (H1 & H2 & evs & H3 & H4).
  unfold Main.finally.
  destruct (pack_body w fuel s1) as [[[]|e|] s'] eqn:Hbody; simpl in *.
  - split; [exact H1|]. exists evs. split; [exact H3|]. right. exact H4.
  - split; [exact H1|]. exists evs. split; [exact H3|]. right. exact H4.
  - split; [exact H1|]. exists evs. split; [exact H3|]. right. exact H4.
Qed.

(** [finally]: unless it hangs, [write_pack] leaves [_is_typing] as it
    found it. *)
Lemma write_pack_is_typing (fuel : nat) (s : Main.State) :
  fst (Main.write_pack w fuel s) <> Main.Hangs ->
  Main._is_typing (Main.this (snd (Main.write_pack w fuel s)))
  = Main._is_typing (Main.this s).
Proof.
  destruct fuel as [|fuel]; [intro H; exfalso; apply H; reflexivity|].
  rewrite write_pack_unfold.
  destruct (Main._is_typing (Main.this s)) eqn:Hflag; [intros _; exact Hflag|].
  unfold Main.finally.
  destruct (pack_body w fuel _) as [[[]|e|] s']; simpl; intro H;
    try reflexivity.
  exfalso; apply H; reflexivity.
Qed.

End Packs.

(** ** The cyclers *)

Lemma settings_field {X : Type} (p : Main.AutoTyper -> X) (a b : Main.AutoTyper) :
  (forall c, p (settings c) = p c) -> settings a = settings b -> p a = p b.
Proof. intros Hp H. rewrite <- (Hp a), <- (Hp b), H. reflexivity. Qed.

Lemma consistent_settings (a b : Main.AutoTyper) :
  settings b = settings a -> Main._is_typing b = false -> consistent a -> consistent b.
Proof.
  intros H Hflag (H1 & H2 & H3 & H4 & H5 & H6 & H7 & H8 & H9 & H10 & H11 & H12 & _).
  unfold consistent.
  rewrite (settings_field Main._symbols b a), (settings_field Main._modes b a),
    (settings_field Main._speed_presets b a), (settings_field Main._typing_modes b a),
    (settings_field Main._mode_index b a), (settings_field Main._speed_index b a),
    (settings_field Main._typing_mode_index b a), (settings_field Main._mode b a),
    (settings_field Main._typer b a), (settings_field Main._case_mode b a)
    by (try exact H; reflexivity).
  repeat split; try assumption; try tauto.
Qed.

Lemma range_cases_5 (i : Z) : 0 <= i < 5 -> i = 0 \/ i = 1 \/ i = 2 \/ i = 3 \/ i = 4.
Proof. lia. Qed.

Lemma range_cases_4 (i : Z) : 0 <= i < 4 -> i = 0 \/ i = 1 \/ i = 2 \/ i = 3.
Proof. lia. Qed.

Lemma range_cases_3 (i : Z) : 0 <= i < 3 -> i = 0 \/ i = 1 \/ i = 2.
Proof. lia. Qed.

Section Cyclers.

Variable w : Main.World.

Lemma toggle_case_mode_run (s : Main.State) :
  let m := if Main.str_eqb (Main._case_mode (Main.this s)) (codes "lower")
           then codes "upper" else codes "lower" in
  Main.toggle_case_mode s =
  (Main.Done tt,
   {| Main.this := Main.with_case_mode m (Main.this s);
      Main.draws := Main.draws s;
      Main.trace := Main.trace s ++ [Main.Print (codes "Case mode set to: " ++ m)] |}).
Proof.
  unfold Main.toggle_case_mode, Main.bind, Main.get_self, Main.mem, Main.index_of.
  cbn [existsb Main.position].
  rewrite (str_eqb_sym (codes "upper")), (str_eqb_sym (codes "lower")).
  destruct (Main.str_eqb (Main._case_mode (Main.this s)) (codes "upper")) eqn:Hu;
    destruct (Main.str_eqb (Main._case_mode (Main.this s)) (codes "lower")) eqn:Hl.
  - apply str_eqb_eq in Hu, Hl. rewrite Hu in Hl. discriminate.
  - reflexivity.
  - reflexivity.
  - reflexivity.
Qed.

Lemma cycle_mode_run (s : Main.State) :
  consistent (Main.this s) ->
  exists m,
    Main.lookup Main.MODES ((Main._mode_index (Main.this s) + 1) mod 5) = Some m /\
    Main.cycle_mode s =
    (Main.Done tt,
     {| Main.this :=
          Main.with_mode m
            (Main.with_mode_index ((Main._mode_index (Main.this s) + 1) mod 5)
                                  (Main.this s));
        Main.draws := Main.draws s;
        Main.trace := Main.trace s ++ [Main.Print (codes "Content mode set to: " ++ m)] |}).
Proof.
  intros (_ & Hm & _ & _ & Hi & _).
  destruct s as [a d t]; destruct a; simpl in *; subst.
  destruct (range_cases_5 _ Hi) as [E|[E|[E|[E|E]]]]; subst;
    eexists; split; reflexivity.
Qed.

Lemma cycle_typing_mode_run (s : Main.State) :
  consistent (Main.this s) ->
  exists m,
    Main.lookup [INSTANT; HUMAN_LIKE; MACHINE_GUN]
                ((Main._typing_mode_index (Main.this s) + 1) mod 3) = Some m /\
    Main.cycle_typing_mode s =
    (Main.Done tt,
     {| Main.this :=
          Main.with_typer (set_typing_mode (Main._typer (Main.this s)) m)
            (Main.with_typing_mode_index
               ((Main._typing_mode_index (Main.this s) + 1) mod 3) (Main.this s));
        Main.draws := Main.draws s;
        Main.trace := Main.trace s
                      ++ [Main.Print (codes "Typing style set to: " ++ Main.name m)] |}).
Proof.
  intros (_ & _ & _ & Hm & _ & _ & Hi & _).
  destruct s as [a d t]; destruct a; simpl in *; subst.
  destruct (range_cases_3 _ Hi) as [E|[E|E]]; subst;
    eexists; split; reflexivity.
Qed.

Lemma cycle_typing_speed_run (s : Main.State) :
  consistent (Main.this s) ->
  exists min_delay max_delay speed_name,
    Main.lookup Main.SPEED_PRESETS ((Main._speed_index (Main.this s) + 1) mod 4)
      = Some (min_delay, max_delay) /\
    Main.lookup [codes "Fast"; codes "Medium"; codes "Slow"; codes "Very slow"]
                ((Main._speed_index (Main.this s) + 1) mod 4) = Some speed_name /\
    Main.cycle_typing_speed s =
    (Main.Done tt,
     {| Main.this :=
          Main.with_typer
            (set_typing_speed (Main._typer (Main.this s)) min_delay max_delay)
            (Main.with_speed_index ((Main._speed_index (Main.this s) + 1) mod 4)
                                   (Main.this s));
        Main.draws := Main.draws s;
        Main.trace := Main.trace s
                      ++ [Main.Print (codes "Typing speed set to: " ++ speed_name)] |}).
Proof.
  intros (_ & _ & Hm & _ & _ & Hi & _).
  destruct s as [a d t]; destruct a; simpl in *; subst.
  destruct (range_cases_4 _ Hi) as [E|[E|[E|E]]]; subst;
    (do 3 eexists; split; [reflexivity|split; reflexivity]).
Qed.

End Cyclers.

(** ** The object between two key presses *)

Section Invariant.

Variable w : Main.World.

Lemma consistent_new (wordlist filler short : str) (s : Main.State) :
  Main.new w wordlist filler short = inr s -> consistent (Main.this s).
Proof.
  unfold Main.new, Main._initialize_typer, __init__. simpl.
  destruct (Main.host_is_windows w); [|destruct (Main.host_Xlib w)]; simpl;
    intro H; try discriminate; injection H as <-;
    unfold consistent; simpl; repeat split; try lia; right; reflexivity.
Qed.

Lemma consistent_toggle_case_mode (s : Main.State) :
  consistent (Main.this s) -> consistent (Main.this (snd (Main.toggle_case_mode s))).
Proof.
  intros (H1 & H2 & H3 & H4 & H5 & H6 & H7 & H8 & H9 & H10 & H11 & H12 & H13).
  rewrite toggle_case_mode_run. simpl.
  unfold consistent. simpl. repeat split; try assumption; try lia.
  destruct (Main.str_eqb _ _); [left|right]; reflexivity.
Qed.

Lemma consistent_cycle_mode (s : Main.State) :
  consistent (Main.this s) -> consistent (Main.this (snd (Main.cycle_mode s))).
Proof.
  intro H. destruct (cycle_mode_run s H) as (m & Hm & ->).
  destruct H as (H1 & H2 & H3 & H4 & H5 & H6 & H7 & H8 & H9 & H10 & H11 & H12 & H13).
  unfold consistent. simpl. repeat split; try assumption; try lia;
    apply Z.mod_pos_bound; lia.
Qed.

Lemma consistent_cycle_typing_mode (s : Main.State) :
  consistent (Main.this s) -> consistent (Main.this (snd (Main.cycle_typing_mode s))).
Proof.
  intro H. destruct (cycle_typing_mode_run s H) as (m & Hm & ->).
  destruct H as (H1 & H2 & H3 & H4 & H5 & H6 & H7 & H8 & H9 & H10 & H11 & H12 & H13).
  unfold consistent. simpl. repeat split; try assumption; try lia;
    apply Z.mod_pos_bound; lia.
Qed.

Lemma consistent_cycle_typing_speed (s : Main.State) :
  consistent (Main.this s) -> consistent (Main.this (snd (Main.cycle_typing_speed s))).
Proof.
  intro H. destruct (cycle_typing_speed_run s H) as (lo & hi & n & Hm & Hn & ->).
  destruct H as (H1 & H2 & H3 & H4 & H5 & H6 & H7 & H8 & H9 & H10 & H11 & H12 & H13).
  unfold consistent. simpl. repeat split; try assumption; try lia;
    apply Z.mod_pos_bound; lia.
Qed.

Lemma consistent_write_pack (fuel : nat) (s : Main.State) :
  consistent (Main.this s) ->
  fst (Main.write_pack w fuel s) <> Main.Hangs ->
  consistent (Main.this (snd (Main.write_pack w fuel s))).
Proof.
  intros H Hr. destruct (write_pack_one_pack w fuel s) as [Hs _].
  apply consistent_settings with (a := Main.this s); [exact Hs| |exact H].
  rewrite write_pack_is_typing by exact Hr. apply H.
Qed.

Lemma consistent_on_press_key (fuel : nat) (key : Main.Hotkey) (s : Main.State) :
  consistent (Main.this s) ->
  fst (Main.on_press_key w fuel key s) <> Main.Hangs ->
  consistent (Main.this (snd (Main.on_press_key w fuel key s))).
Proof.
  intros H Hr. destruct key; simpl in *.
  - apply consistent_write_pack; assumption.
  - apply consistent_toggle_case_mode; assumption.
  - apply consistent_cycle_mode; assumption.
  - apply consistent_cycle_typing_speed; assumption.
  - apply consistent_cycle_typing_mode; assumption.
Qed.

Lemma ui_reachable_consistent (s : Main.State) :
  ui_reachable w s -> consistent (Main.this s).
Proof.
  induction 1 as [wordlist filler short s Hnew | s fuel key _ IH Hr | s b evs _ IH].
  - eapply consistent_new; exact Hnew.
  - apply consistent_on_press_key; assumption.
  - exact IH.
Qed.

End Invariant.

(** ** Drawing a line *)

Section Draws.

Variable w : Main.World.

Lemma _get_random_line_run (path : str) (s : Main.State) :
  Main._get_random_line w path s = (Main.Done (drawn_line w path s), after_draw w path s).
Proof.
  unfold Main._get_random_line, drawn_line, after_draw, candidates,
    Main.bind, Main.now, Main.emit, Main.print, Main.ret. simpl.
  destruct (Main.files w (length (Main.trace s)) path) as [f|].
  - destruct (map _ _) as [|x rest]; simpl.
    + reflexivity.
    + reflexivity.
  - simpl. rewrite <- app_assoc. reflexivity.
Qed.

Lemma lstrip_nonempty (isspace : Z -> bool) (s : str) :
  Main.nonempty (Main.lstrip isspace s) = true ->
  exists c rest, Main.lstrip isspace s = c :: rest /\ isspace c = false.
Proof.
  induction s as [|c s IH]; simpl; [discriminate|].
  destruct (isspace c) eqn:E; [exact IH|].
  intros _. exists c, s. split; [reflexivity | exact E].
Qed.

Lemma lstrip_fixed (isspace : Z -> bool) (c : Z) (s : str) :
  isspace c = false -> Main.lstrip isspace (c :: s) = c :: s.
Proof. intro H. simpl. rewrite H. reflexivity. Qed.

Lemma In_candidates (n : nat) (path : str) (l : str) :
  In l (candidates w n path) ->
  l <> [] /\
  exists f line, Main.files w n path = Some f /\ In line f /\
                 l = Main.strip (Main.isspace w) line.
Proof.
  unfold candidates. destruct (Main.files w n path) as [f|]; [|intros []].
  intro H. apply in_map_iff in H as (line & <- & Hin).
  apply filter_In in Hin as [Hin Hne]. split.
  - intro E. rewrite E in Hne. discriminate.
  - exists f, line. repeat split. exact Hin.
Qed.

Lemma drawn_line_In (path : str) (s : Main.State) (l : str) :
  drawn_line w path s = Some l ->
  In l (candidates w (length (Main.trace s)) path).
Proof.
  unfold drawn_line. destruct (candidates w _ path) as [|x rest] eqn:E; [discriminate|].
  assert (Hlt : (Z.to_nat (Main.tape w (Main.draws s) mod Z.of_nat (length (x :: rest)))
                 < length (x :: rest))%nat).
  { assert (0 <= Main.tape w (Main.draws s) mod Z.of_nat (length (x :: rest))
            < Z.of_nat (length (x :: rest))).
    { apply Z.mod_pos_bound. simpl length. lia. }
    lia. }
  set (k := Z.to_nat _) in *. intro H.
  replace l with (nth k (x :: rest) x) by congruence.
  apply nth_In. exact Hlt.
Qed.

Lemma drawn_line_None (path : str) (s : Main.State) :
  drawn_line w path s = None <-> candidates w (length (Main.trace s)) path = [].
Proof.
  unfold drawn_line. destruct (candidates w _ path); split; congruence.
Qed.

Lemma _handle_typing_run (text : str) (hold_shift : bool) (s : Main.State) :
  Main._handle_typing w text None hold_shift s =
  (Main.Done tt,
   {| Main.this := Main.this s;
      Main.draws := Main.draws s;
      Main.trace := Main.trace s ++
        Main.Sleep (5 # 100) :: typing_calls hold_shift (cased w (Main.this s) text) |}).
Proof.
  unfold Main._handle_typing, Main.bind, Main.emit, Main.get_self, Main.ret, cased.
  destruct hold_shift; simpl; repeat rewrite <- app_assoc; reflexivity.
Qed.

End Draws.

(** ** One press of Tab, mode by mode *)

Section Presses.

Variable w : Main.World.

Lemma bind_run {A B : Type} (m : Main.M A) (f : A -> Main.M B) (s s' : Main.State) (a : A) :
  m s = (Main.Done a, s') -> Main.bind m f s = f a s'.
Proof. intro H. unfold Main.bind. rewrite H. reflexivity. Qed.

Lemma finally_done {A : Type} (body : Main.M A) (f : Main.AutoTyper -> Main.AutoTyper)
      (s s' : Main.State) (a : A) :
  body s = (Main.Done a, s') ->
  Main.finally body (Main.assign f) s =
  (Main.Done a, {| Main.this := f (Main.this s'); Main.draws := Main.draws s';
                   Main.trace := Main.trace s' |}).
Proof. intro H. unfold Main.finally. rewrite H. reflexivity. Qed.

Lemma since_app (s s' : Main.State) (evs : list Main.UiEvent) :
  Main.trace s' = Main.trace s ++ evs -> since s s' = evs.
Proof.
  intro H. unfold since. rewrite H. rewrite skipn_app, skipn_all, Nat.sub_diag. reflexivity.
Qed.

Lemma pack_body_started (fuel : nat) (s : Main.State) (handler : Main.M unit) :
  (if Main.str_eqb (Main._mode (Main.this s)) (codes "normal") then
     Main._handle_normal_mode w (Main.write_pack w fuel)
   else if Main.str_eqb (Main._mode (Main.this s)) (codes "ladder") then
     Main._handle_ladder_mode w (Main.write_pack w fuel)
   else if Main.str_eqb (Main._mode (Main.this s)) (codes "paragraph") then
     Main._handle_paragraph_mode w
   else if Main.str_eqb (Main._mode (Main.this s)) (codes "beef") then
     Main._handle_beef_mode w fuel
   else if Main.str_eqb (Main._mode (Main.this s)) (codes "demon") then
     Main._handle_demon_mode w
   else Main.ret tt) = handler ->
  Main._is_typing (Main.this s) = false ->
  Main.write_pack w (S fuel) s =
  Main.finally handler (Main.assign (Main.with_is_typing false)) (started s).
Proof.
  intros <- Hflag. rewrite write_pack_unfold, Hflag.
  unfold Main.finally, pack_body, started, Main.bind, Main.emit, Main.get_self.
  simpl. rewrite <- app_assoc. reflexivity.
Qed.

Lemma ladder_run (fuel : nat) (s : Main.State) :
  Main._is_typing (Main.this s) = true ->
  let path := Main._wordlist_path (Main.this s) in
  let s' := after_draw w path s in
  Main._handle_ladder_mode w (Main.write_pack w (S fuel)) s =
  match drawn_line w path s with
  | Some l =>
      if Main._used_lines (Main.this s) l then (Main.Done tt, s')
      else (Main.Done tt,
            {| Main.this := Main.with_used_lines (Main.add l (Main._used_lines (Main.this s)))
                                                 (Main.this s);
               Main.draws := Main.draws s';
               Main.trace := Main.trace s' ++
                 Main.Sleep (5 # 100) ::
                 typing_calls true (cased w (Main.this s) (Main.replace 32 10 l)) |})
  | None => (Main.Done tt, s')
  end.
Proof.
  intros Hflag path s'. unfold Main._handle_ladder_mode.
  rewrite (bind_run _ _ s s (Main.this s)) by reflexivity.
  rewrite (bind_run _ _ _ _ _ (_get_random_line_run w path s)).
  rewrite (bind_run _ _ s' s' (Main.this s')) by reflexivity.
  destruct (drawn_line w path s) as [l|] eqn:Hline.
  - assert (Hne : Main.nonempty l = true).
    { apply drawn_line_In, In_candidates in Hline as [Hne _].
      destruct l; [contradiction | reflexivity]. }
    rewrite Hne.
    change (Main._used_lines (Main.this s')) with (Main._used_lines (Main.this s)).
    destruct (Main._used_lines (Main.this s) l); cbn [negb orb].
    + apply write_pack_nested. exact Hflag.
    + erewrite bind_run by reflexivity. rewrite _handle_typing_run. reflexivity.
  - apply write_pack_nested. exact Hflag.
Qed.

Lemma random_randint_run (a b : Z) (s : Main.State) :
  a <= b ->
  Main.random_randint w a b s =
  (Main.Done (a + Main.tape w (Main.draws s) mod (b - a + 1)),
   {| Main.this := Main.this s; Main.draws := S (Main.draws s);
      Main.trace := Main.trace s |}).
Proof.
  intro H. unfold Main.random_randint.
  destruct (b <? a) eqn:E; [apply Z.ltb_lt in E; lia|]. reflexivity.
Qed.

Lemma normal_run (fuel : nat) (s : Main.State) :
  Main._is_typing (Main.this s) = true ->
  Main._symbols (Main.this s) = [codes "- "; codes "# "] ->
  let choice := 1 + Main.tape w (Main.draws s) mod 13 in
  let source := if choice =? 1 then Main._filler_path (Main.this s)
                else Main._wordlist_path (Main.this s) in
  let s1 := {| Main.this := Main.this s; Main.draws := S (Main.draws s);
               Main.trace := Main.trace s |} in
  let s' := after_draw w source s1 in
  Main._handle_normal_mode w (Main.write_pack w (S fuel)) s =
  match drawn_line w source s1 with
  | Some l =>
      if Main._used_lines (Main.this s) l then (Main.Done tt, s')
      else
        let text :=
          if choice =? 2
          then nth (Z.to_nat (Main.tape w (Main.draws s') mod 2))
                   [codes "- "; codes "# "] (codes "- ") ++ l
          else l in
        (Main.Done tt,
         {| Main.this := Main.with_used_lines
                           (Main.add text (Main._used_lines (Main.this s))) (Main.this s);
            Main.draws := if choice =? 2 then S (Main.draws s') else Main.draws s';
            Main.trace := Main.trace s' ++
              Main.Sleep (5 # 100) :: typing_calls false (cased w (Main.this s) text) |})
  | None => (Main.Done tt, s')
  end.
Proof.
  intros Hflag Hsym choice source s1 s'. unfold Main._handle_normal_mode.
  rewrite (bind_run _ _ s s (Main.this s)) by reflexivity.
  rewrite (bind_run _ _ _ _ _ (random_randint_run 1 13 s ltac:(lia))).
  change (1 + Main.tape w (Main.draws s) mod (13 - 1 + 1)) with choice.
  fold s1. fold source.
  rewrite (bind_run _ _ _ _ _ (_get_random_line_run w source s1)).
  rewrite (bind_run _ _ s' s' (Main.this s')) by reflexivity.
  destruct (drawn_line w source s1) as [l|] eqn:Hline.
  - assert (Hne : Main.nonempty l = true).
    { apply drawn_line_In, In_candidates in Hline as [Hne _].
      destruct l; [contradiction | reflexivity]. }
    rewrite Hne.
    change (Main._used_lines (Main.this s')) with (Main._used_lines (Main.this s)).
    destruct (Main._used_lines (Main.this s) l); cbn [negb orb].
    + apply write_pack_nested. exact Hflag.
    + change (Main._symbols (Main.this s')) with (Main._symbols (Main.this s)).
      rewrite Hsym.
      destruct (choice =? 2).
      * unfold Main.random_choice.
        erewrite bind_run by reflexivity.
        erewrite bind_run by reflexivity.
        rewrite _handle_typing_run. reflexivity.
      * erewrite bind_run by reflexivity.
        erewrite bind_run by reflexivity.
        rewrite _handle_typing_run. reflexivity.
  - apply write_pack_nested. exact Hflag.
Qed.

Lemma with_is_typing_restore (a : Main.AutoTyper) :
  Main._is_typing a = false ->
  Main.with_is_typing false (Main.with_is_typing true a) = a.
Proof. destruct a; simpl; intros ->; reflexivity. Qed.

Lemma with_is_typing_used_lines (u : str -> bool) (a : Main.AutoTyper) :
  Main._is_typing a = false ->
  Main.with_is_typing false (Main.with_used_lines u (Main.with_is_typing true a))
  = Main.with_used_lines u a.
Proof. destruct a; simpl; intros ->; reflexivity. Qed.

End Presses.

(** ** The loop of the beef mode *)

Section Beef.

Variable w : Main.World.
Variable path : str.

(** The word list never offers two different lines. *)
Hypothesis only_one_line :
  forall n1 n2 l1 l2,
    In l1 (candidates w n1 path) -> In l2 (candidates w n2 path) -> l1 = l2.

Lemma beef_lines_hang (fuel : nat) :
  forall (line1 line2 : option str) (s : Main.State),
    Main._wordlist_path (Main.this s) = path ->
    (forall l, line1 = Some l -> exists n, In l (candidates w n path)) ->
    (forall l, line2 = Some l -> exists n, In l (candidates w n path)) ->
    fst (Main.beef_lines w fuel line1 line2 s) = Main.Hangs.
Proof.
  induction fuel as [|fuel IH]; intros line1 line2 s Hpath H1 H2.
  - simpl. destruct line1 as [l1|], line2 as [l2|]; try reflexivity.
    destruct (H1 l1 eq_refl) as [n1 Hn1]. destruct (H2 l2 eq_refl) as [n2 Hn2].
    rewrite (only_one_line _ _ _ _ Hn1 Hn2), str_eqb_refl, orb_true_r. reflexivity.
  - assert (Hagain :
      fst (Main.bind Main.get_self (fun self =>
           Main.bind (Main._get_random_line w (Main._wordlist_path self)) (fun line1 =>
           Main.bind Main.get_self (fun self =>
           Main.bind (Main._get_random_line w (Main._wordlist_path self)) (fun line2 =>
           Main.beef_lines w fuel line1 line2)))) s) = Main.Hangs).
    { rewrite (bind_run _ _ s s (Main.this s)) by reflexivity.
      rewrite Hpath.
      rewrite (bind_run _ _ _ _ _ (_get_random_line_run w path s)).
      erewrite bind_run by reflexivity.
      change (Main._wordlist_path (Main.this (after_draw w path s)))
        with (Main._wordlist_path (Main.this s)).
      rewrite Hpath.
      rewrite (bind_run _ _ _ _ _ (_get_random_line_run w path (after_draw w path s))).
      apply IH.
      - exact Hpath.
      - intros l Hl. eexists. eapply drawn_line_In. exact Hl.
      - intros l Hl. eexists. eapply drawn_line_In. exact Hl. }
    simpl. destruct line1 as [l1|], line2 as [l2|]; try exact Hagain.
    destruct (H1 l1 eq_refl) as [n1 Hn1]. destruct (H2 l2 eq_refl) as [n2 Hn2].
    rewrite (only_one_line _ _ _ _ Hn1 Hn2), str_eqb_refl, orb_true_r. exact Hagain.
Qed.

Lemma _handle_beef_mode_hangs (fuel : nat) (s : Main.State) :
  Main._wordlist_path (Main.this s) = path ->
  fst (Main._handle_beef_mode w fuel s) = Main.Hangs.
Proof.
  intro Hpath. unfold Main._handle_beef_mode.
  rewrite (bind_run _ _ s s (Main.this s)) by reflexivity.
  rewrite Hpath.
  rewrite (bind_run _ _ _ _ _ (_get_random_line_run w path s)).
  erewrite bind_run by reflexivity.
  change (Main._wordlist_path (Main.this (after_draw w path s)))
    with (Main._wordlist_path (Main.this s)).
  rewrite Hpath.
  rewrite (bind_run _ _ _ _ _ (_get_random_line_run w path (after_draw w path s))).
  unfold Main.bind.
  pose proof (beef_lines_hang fuel
                (drawn_line w path s)
                (drawn_line w path (after_draw w path s))
                (after_draw w path (after_draw w path s)) Hpath) as H.
  destruct (Main.beef_lines w fuel _ _ _) as [[[l1 l2]|e|] s'']; simpl in H.
  - exfalso. assert (Main.Done (l1, l2) = Main.Hangs); [|discriminate].
    apply H; intros l Hl; eexists; eapply drawn_line_In; exact Hl.
  - exfalso. assert (Main.Thrown (A := str * str) e = Main.Hangs); [|discriminate].
    apply H; intros l Hl; eexists; eapply drawn_line_In; exact Hl.
  - reflexivity.
Qed.

Lemma write_pack_beef_hangs (fuel : nat) (s : Main.State) :
  Main._wordlist_path (Main.this s) = path ->
  Main._is_typing (Main.this s) = false ->
  Main._mode (Main.this s) = codes "beef" ->
  fst (Main.write_pack w fuel s) = Main.Hangs.
Proof.
  intros Hpath Hflag Hmode. destruct fuel as [|fuel]; [reflexivity|].
  rewrite (pack_body_started w fuel s (Main._handle_beef_mode w fuel))
    by (try exact Hflag; rewrite Hmode; reflexivity).
  unfold Main.finally.
  pose proof (_handle_beef_mode_hangs fuel (started s) Hpath) as H.
  destruct (Main._handle_beef_mode w fuel (started s)) as [[[]|e|] s']; simpl in H;
    try discriminate.
  reflexivity.
Qed.

End Beef.

(** ** Going round *)

Section Rounds.

Variable w : Main.World.

Lemma presses_period (fuel : nat) (key : Main.Hotkey) (s : Main.State) :
  consistent (Main.this s) ->
  key <> Main.Tab ->
  fst (presses w fuel key (period key) s) = Main.Done tt /\
  Main.this (snd (presses w fuel key (period key) s)) = Main.this s.
Proof.
  intros (H1 & H2 & H3 & H4 & H5 & H6 & H7 & H8 & H9 & H10 & H11 & H12 & H13) Hkey.
  destruct s as [a d t]. destruct a. destruct _typer. simpl in *. subst.
  destruct key; [contradiction| | | |].
  - destruct H12 as [-> | ->]; split; reflexivity.
  - destruct (range_cases_5 _ H5) as [E|[E|[E|[E|E]]]]; subst;
      injection H8 as <-; split; reflexivity.
  - destruct (range_cases_4 _ H6) as [E|[E|[E|E]]]; subst;
      injection H9 as <-; split; reflexivity.
  - destruct (range_cases_3 _ H7) as [E|[E|E]]; subst;
      injection H10 as <-; split; reflexivity.
Qed.

Lemma press_position (fuel : nat) (key : Main.Hotkey) (s : Main.State) :
  consistent (Main.this s) ->
  key <> Main.Tab ->
  fst (Main.on_press_key w fuel key s) = Main.Done tt /\
  position_of key (Main.this (snd (Main.on_press_key w fuel key s)))
  = (position_of key (Main.this s) + 1) mod Z.of_nat (period key).
Proof.
  intros H Hkey. destruct key; [contradiction| | | |]; simpl Main.on_press_key.
  - rewrite toggle_case_mode_run. split; [reflexivity|]. simpl.
    destruct H as (_ & _ & _ & _ & _ & _ & _ & _ & _ & _ & _ & [-> | ->] & _); reflexivity.
  - destruct (cycle_mode_run s H) as (m & _ & ->). split; reflexivity.
  - destruct (cycle_typing_speed_run s H) as (lo & hi & n & _ & _ & ->). split; reflexivity.
  - destruct (cycle_typing_mode_run s H) as (m & _ & ->). split; reflexivity.
Qed.

Lemma position_range (key : Main.Hotkey) (a : Main.AutoTyper) :
  consistent a -> 0 <= position_of key a < Z.of_nat (period key).
Proof.
  intros (_ & _ & _ & _ & H5 & H6 & H7 & _). destruct key; simpl; try lia.
  destruct (Main.str_eqb _ _); lia.
Qed.

Lemma presses_position (fuel : nat) (key : Main.Hotkey) (n : nat) :
  key <> Main.Tab ->
  forall s,
    consistent (Main.this s) ->
    fst (presses w fuel key n s) = Main.Done tt /\
    position_of key (Main.this (snd (presses w fuel key n s)))
    = (position_of key (Main.this s) + Z.of_nat n) mod Z.of_nat (period key).
Proof.
  intro Hkey. induction n as [|n IH]; intros s H.
  - simpl. split; [reflexivity|]. rewrite Z.add_0_r, Z.mod_small; [reflexivity|].
    apply position_range, H.
  - destruct (press_position fuel key s H Hkey) as [Hr Hp].
    assert (Hc : consistent (Main.this (snd (Main.on_press_key w fuel key s)))).
    { apply consistent_on_press_key; [exact H|]. rewrite Hr. discriminate. }
    destruct (IH _ Hc) as [Hr' Hp'].
    simpl presses. unfold Main.bind.
    destruct (Main.on_press_key w fuel key s) as [[[]|e|] s1]; simpl in Hr; try discriminate.
    simpl in *. split; [exact Hr'|]. rewrite Hp', Hp.
    rewrite Zplus_mod_idemp_l. f_equal. lia.
Qed.

End Rounds.

(** ** The types of the demon mode *)

Section Demon.

Variable w : Main.World.
Hypothesis order_ok : same_elements w.

Lemma order_iff (n : nat) (l : list str) (x : str) :
  In x (Main.set_order w n l) <-> In x l.
Proof. apply order_ok. Qed.

Lemma set_order_nil (n : nat) : Main.set_order w n [] = [].
Proof.
  destruct (Main.set_order w n []) as [|x l] eqn:E; [reflexivity|].
  exfalso. apply (order_ok n [] x). rewrite E. left; reflexivity.
Qed.

Lemma set_order_cons (n : nat) (x : str) (l : list str) :
  Main.set_order w n (x :: l) <> [].
Proof.
  intro E. assert (H : In x (Main.set_order w n (x :: l))).
  { apply order_ok. left; reflexivity. }
  rewrite E in H. exact H.
Qed.

Lemma discard_all_run (ts : list str) (s : Main.State) :
  Main.for_each ts (fun t =>
    Main.assign (fun a =>
      Main.with_used_lines (Main.discard (Main.marker t) (Main._used_lines a)) a)) s =
  (Main.Done tt,
   {| Main.this :=
        Main.with_used_lines
          (fold_left (fun u t => Main.discard (Main.marker t) u) ts
                     (Main._used_lines (Main.this s)))
          (Main.this s);
      Main.draws := Main.draws s;
      Main.trace := Main.trace s |}).
Proof.
  revert s. induction ts as [|t ts IH]; intro s.
  - simpl. unfold Main.ret. destruct s as [a d tr]. destruct a. reflexivity.
  - simpl Main.for_each. erewrite bind_run by reflexivity. rewrite IH. reflexivity.
Qed.

Lemma discard_all_spec (ts : list str) (u : str -> bool) (x : str) :
  fold_left (fun u t => Main.discard (Main.marker t) u) ts u x
  = u x && forallb (fun t => negb (Main.str_eqb x (Main.marker t))) ts.
Proof.
  revert u. induction ts as [|t ts IH]; intro u; simpl.
  - rewrite andb_true_r. reflexivity.
  - rewrite IH. unfold Main.discard.
    destruct (Main.str_eqb x (Main.marker t)), (u x); reflexivity.
Qed.

Lemma In_ALL_TYPES (t : str) :
  In t Main.ALL_TYPES <-> t = codes "short" \/ t = codes "middle" \/ t = codes "long".
Proof.
  unfold Main.ALL_TYPES. simpl. split.
  - intros [H|[H|[H|[]]]]; auto.
  - intros [H|[H|H]]; auto.
Qed.

Lemma _get_allowed_demon_types_spec (s : Main.State) :
  exists allowed s',
    Main._get_allowed_demon_types w s = (Main.Done allowed, s') /\
    allowed <> [] /\
    (forall t, In t allowed <->
               In t Main.ALL_TYPES /\
               Main._used_lines (Main.this s') (Main.marker t) = false) /\
    (forall x, (forall t, In t Main.ALL_TYPES -> x <> Main.marker t) ->
               Main._used_lines (Main.this s') x = Main._used_lines (Main.this s) x) /\
    ((exists t, In t Main.ALL_TYPES /\ Main._used_lines (Main.this s) (Main.marker t) = false) ->
     s' = s) /\
    settings (Main.this s') = settings (Main.this s) /\
    Main._is_typing (Main.this s') = Main._is_typing (Main.this s) /\
    Main.draws s' = Main.draws s /\
    Main.trace s' = Main.trace s.
Proof.
  destruct (Main._get_allowed_demon_types w s) as [r s'] eqn:Hrun.
  unfold Main._get_allowed_demon_types in Hrun. cbv zeta in Hrun.
  rewrite (bind_run _ _ s s (Main.this s)) in Hrun by reflexivity.
  rewrite (bind_run _ _ s s (Main.set_order w (length (Main.trace s)) _))
    in Hrun by reflexivity.
  set (used := Main._used_lines (Main.this s)) in *.
  set (remaining :=
    filter (fun t => negb (Main.mem t (filter (fun t0 => used (Main.marker t0)) Main.ALL_TYPES)))
           Main.ALL_TYPES) in *.
  assert (Hrem : forall t, In t remaining <-> In t Main.ALL_TYPES /\ used (Main.marker t) = false).
  { intro t. unfold remaining. rewrite filter_In. split.
    - intros [Hin Hmem]. split; [exact Hin|].
      destruct (used (Main.marker t)) eqn:E; [|reflexivity].
      exfalso. apply negb_true_iff in Hmem.
      assert (Main.mem t (filter (fun t0 => used (Main.marker t0)) Main.ALL_TYPES) = true);
        [|congruence].
      apply existsb_exists. exists t. split; [|apply str_eqb_refl].
      apply filter_In. split; assumption.
    - intros [Hin Hu]. split; [exact Hin|]. apply negb_true_iff.
      destruct (Main.mem t _) eqn:E; [|reflexivity].
      apply existsb_exists in E as (t' & Hin' & Heq). apply str_eqb_eq in Heq. subst t'.
      apply filter_In in Hin' as [_ Hu']. congruence. }
  destruct (Main.set_order w (length (Main.trace s)) remaining) as [|t0 rest] eqn:Hord.
  - (* every type is used *)
    assert (Hnone : remaining = []).
    { destruct remaining as [|x l]; [reflexivity|]. exfalso. eapply set_order_cons. exact Hord. }
    rewrite (bind_run _ _ s s (Main.set_order w (length (Main.trace s)) Main.ALL_TYPES))
      in Hrun by reflexivity.
    rewrite (bind_run _ _ _ _ _ (discard_all_run _ s)) in Hrun.
    unfold Main.iterate, Main.bind, Main.now, Main.ret in Hrun. simpl in Hrun.
    set (ts := Main.set_order w (length (Main.trace s)) Main.ALL_TYPES) in *.
    injection Hrun as <- <-.
    exists ts. eexists. split; [reflexivity|]. split.
    { apply set_order_cons. }
    cbn [Main.this Main.draws Main.trace].
    split; [|split; [|split; [|repeat split]]].
    + intro t. unfold ts at 1. rewrite order_iff. split.
      * intro Hin. split; [exact Hin|]. simpl. rewrite discard_all_spec.
        apply andb_false_iff. right. apply not_true_is_false. intro Hall.
        rewrite forallb_forall in Hall.
        assert (Hts : In t ts) by (apply order_ok; exact Hin).
        specialize (Hall t Hts). rewrite str_eqb_refl in Hall. discriminate.
      * intros [Hin _]. exact Hin.
    + intros x Hx. simpl. rewrite discard_all_spec.
      replace (forallb _ ts) with true; [apply andb_true_r|].
      symmetry. apply forallb_forall. intros t Hin. apply negb_true_iff, str_eqb_neq.
      apply Hx. apply (order_iff (length (Main.trace s)) Main.ALL_TYPES t). exact Hin.
    + intros (t & Hin & Hu). exfalso.
      assert (Hin' : In t remaining) by (apply Hrem; split; assumption).
      rewrite Hnone in Hin'. exact Hin'.
  - (* some type is not used yet *)
    injection Hrun as <- <-.
    exists (t0 :: rest), s. split; [reflexivity|]. split; [discriminate|].
    split; [|repeat split].
    intro t. rewrite <- Hord, order_iff. apply Hrem.
Qed.

End Demon.

(** ** A press of Tab in the demon mode *)

Lemma adds_lines_bind {A B : Type} (m : Main.M A) (f : A -> Main.M B) :
  adds_lines m -> (forall a, adds_lines (f a)) -> adds_lines (Main.bind m f).
Proof.
  intros Hm Hf s. destruct (Hm s) as (a & s1 & Hrun & Hgrow).
  destruct (Hf a s1) as (b & s2 & Hrun' & Hgrow').
  exists b, s2. split.
  - rewrite (bind_run _ _ _ _ _ Hrun). exact Hrun'.
  - intros x Hx. apply Hgrow', Hgrow, Hx.
Qed.

Lemma adds_lines_ret {A : Type} (a : A) : adds_lines (Main.ret a).
Proof. intro s. exists a, s. split; [reflexivity | auto]. Qed.

Lemma adds_lines_get_self : adds_lines Main.get_self.
Proof. intro s. exists (Main.this s), s. split; [reflexivity | auto]. Qed.

Lemma adds_lines_iterate (w : Main.World) (l : list str) : adds_lines (Main.iterate w l).
Proof. intro s. eexists. exists s. split; [reflexivity | auto]. Qed.

Lemma adds_lines__get_random_line (w : Main.World) (path : str) :
  adds_lines (Main._get_random_line w path).
Proof.
  intro s. eexists. eexists. split; [apply _get_random_line_run | auto].
Qed.

Lemma adds_lines_add (line : str) :
  adds_lines (Main.assign (fun a => Main.with_used_lines (Main.add line (Main._used_lines a)) a)).
Proof.
  intro s. eexists. eexists. split; [reflexivity|]. simpl. intros x Hx.
  unfold Main.add. rewrite Hx. apply orb_true_r.
Qed.

Lemma update_grows (lines : list str) (u : str -> bool) (x : str) :
  u x = true -> Main.update lines u x = true.
Proof.
  unfold Main.update. revert u. induction lines as [|l lines IH]; intros u Hx; simpl.
  - exact Hx.
  - apply IH. unfold Main.add. rewrite Hx. apply orb_true_r.
Qed.

Lemma adds_lines_update (lines : list str) :
  adds_lines (Main.assign (fun a => Main.with_used_lines (Main.update lines (Main._used_lines a)) a)).
Proof.
  intro s. eexists. eexists. split; [reflexivity|]. simpl. intros x Hx.
  apply update_grows, Hx.
Qed.

Lemma adds_lines__handle_typing (w : Main.World) (text : str) (hold_shift : bool) :
  adds_lines (Main._handle_typing w text None hold_shift).
Proof.
  intro s. eexists. eexists. split; [apply _handle_typing_run | auto].
Qed.

Lemma adds_lines_first_unused (w : Main.World) (n : nat) (path : Main.AutoTyper -> str) :
  adds_lines (Main.first_unused w n path).
Proof.
  induction n as [|n IH]; simpl; [apply adds_lines_ret|].
  apply adds_lines_bind; [apply adds_lines_get_self | intro self].
  apply adds_lines_bind; [apply adds_lines__get_random_line | intro line].
  apply adds_lines_bind; [apply adds_lines_get_self | intro self'].
  destruct line as [l|]; [|apply IH].
  destruct (_ && _); [|apply IH].
  apply adds_lines_bind; [apply adds_lines_add | intro; apply adds_lines_ret].
Qed.

Lemma adds_lines_long_lines (w : Main.World) (left : nat) (lines : list str) :
  adds_lines (Main.long_lines w left lines).
Proof.
  revert lines. induction left as [|left IH]; intro lines; simpl; [apply adds_lines_ret|].
  destruct (_ <? _)%nat; [|apply adds_lines_ret].
  apply adds_lines_bind; [apply adds_lines_get_self | intro self].
  apply adds_lines_bind; [apply adds_lines__get_random_line | intro line].
  apply adds_lines_bind; [apply adds_lines_get_self | intro self'].
  destruct line as [l|]; [|apply IH].
  destruct (_ && _); apply IH.
Qed.

Section DemonPress.

Variable w : Main.World.
Hypothesis order_ok : same_elements w.

Lemma random_choice_In {X : Type} (l : list X) (s : Main.State) :
  l <> [] ->
  exists x, In x l /\
    Main.random_choice w l s =
    (Main.Done x, {| Main.this := Main.this s; Main.draws := S (Main.draws s);
                     Main.trace := Main.trace s |}).
Proof.
  destruct l as [|y l]; [contradiction|]. intros _.
  eexists. split; [|reflexivity].
  apply nth_In.
  assert (0 <= Main.tape w (Main.draws s) mod Z.of_nat (length (y :: l))
          < Z.of_nat (length (y :: l))).
  { apply Z.mod_pos_bound. simpl length. lia. }
  lia.
Qed.

Lemma _handle_demon_mode_run (s : Main.State) :
  exists selected s',
    Main._handle_demon_mode w s = (Main.Done tt, s') /\
    In selected Main.ALL_TYPES /\
    Main._used_lines (Main.this s') (Main.marker selected) = true /\
    ((exists t, In t Main.ALL_TYPES /\ Main._used_lines (Main.this s) (Main.marker t) = false) ->
     Main._used_lines (Main.this s) (Main.marker selected) = false /\
     forall x, Main._used_lines (Main.this s) x = true ->
               Main._used_lines (Main.this s') x = true).
Proof.
  destruct (_get_allowed_demon_types_spec w order_ok s)
    as (allowed & s1 & Hrun & Hne & Hallowed & Hother & Hsame & _).
  destruct (random_choice_In allowed s1 Hne) as (selected & Hin & Hchoice).
  set (rest := fun selected : str =>
    Main.bind
      (if Main.str_eqb selected (codes "short") then
         Main.bind (Main.first_unused w 30 Main._short_path)
                   (fun short => Main.ret [short; None; None])
       else if Main.str_eqb selected (codes "middle") then
         Main.bind (Main.first_unused w 30 Main._wordlist_path)
                   (fun middle => Main.ret [None; middle; None])
       else if Main.str_eqb selected (codes "long") then
         Main.bind (Main.long_lines w 100 []) (fun lines =>
           if (length lines =? 4)%nat then
             Main.bind (Main.iterate w lines) (fun ordered =>
             Main.bind (Main.assign (fun a =>
                          Main.with_used_lines (Main.update lines (Main._used_lines a)) a))
                       (fun _ => Main.ret [None; None;
                                           Some (Main.join (codes " and ") ordered)]))
           else Main.ret [None; None; None])
       else Main.ret [None; None; None])
      (fun parts =>
         let parts := flat_map (fun p => match p with
                                         | Some s => if Main.nonempty s then [s] else []
                                         | None => []
                                         end) parts in
         match parts with
         | [] => Main.ret tt
         | _ :: _ => Main._handle_typing w (Main.join (codes " ") parts) None false
         end)).
  assert (Hrest : adds_lines (rest selected)).
  { unfold rest. apply adds_lines_bind.
    - destruct (Main.str_eqb selected (codes "short")).
      { apply adds_lines_bind; [apply adds_lines_first_unused | intro; apply adds_lines_ret]. }
      destruct (Main.str_eqb selected (codes "middle")).
      { apply adds_lines_bind; [apply adds_lines_first_unused | intro; apply adds_lines_ret]. }
      destruct (Main.str_eqb selected (codes "long")); [|apply adds_lines_ret].
      apply adds_lines_bind; [apply adds_lines_long_lines | intro lines].
      destruct (_ =? _)%nat; [|apply adds_lines_ret].
      apply adds_lines_bind; [apply adds_lines_iterate | intro].
      apply adds_lines_bind; [apply adds_lines_update | intro; apply adds_lines_ret].
    - intro parts. cbv zeta. destruct (flat_map _ parts).
      + apply adds_lines_ret.
      + apply adds_lines__handle_typing. }
  set (s2 := {| Main.this := Main.with_used_lines
                               (Main.add (Main.marker selected) (Main._used_lines (Main.this s1)))
                               (Main.this s1);
                Main.draws := S (Main.draws s1); Main.trace := Main.trace s1 |}).
  destruct (Hrest s2) as ([] & s3 & Hrun3 & Hgrow).
  exists selected, s3. split; [|split; [|split]].
  - unfold Main._handle_demon_mode.
    rewrite (bind_run _ _ _ _ _ Hrun).
    rewrite (bind_run _ _ _ _ _ Hchoice).
    erewrite bind_run by reflexivity.
    exact Hrun3.
  - apply Hallowed, Hin.
  - apply Hgrow. simpl. unfold Main.add. rewrite str_eqb_refl. reflexivity.
  - intro Hsome. specialize (Hsame Hsome). subst s1. split.
    + apply Hallowed, Hin.
    + intros x Hx. apply Hgrow. simpl. unfold Main.add. rewrite Hx. apply orb_true_r.
Qed.

End DemonPress.

(** ** A press of Tab in the paragraph mode *)

Section Paragraph.

Variable w : Main.World.

Lemma paragraph_lines_run (n : nat) :
  forall (lines : list str) (s : Main.State),
  exists new s',
    Main.paragraph_lines w n lines s = (Main.Done (lines ++ new), s') /\
    Main.this s' = Main.this s /\
    (length new <= n)%nat /\
    (forall l, In l new ->
       exists k, In l (candidates w k (Main._wordlist_path (Main.this s)))) /\
    ((forall k, candidates w k (Main._wordlist_path (Main.this s)) = []) -> new = []).
Proof.
  induction n as [|n IH]; intros lines s.
  - exists [], s. simpl. rewrite app_nil_r. repeat split; auto. intros l [].
  - simpl Main.paragraph_lines.
    rewrite (bind_run _ _ s s (Main.this s)) by reflexivity.
    rewrite (bind_run _ _ _ _ _ (_get_random_line_run w _ s)).
    set (path := Main._wordlist_path (Main.this s)).
    destruct (drawn_line w path s) as [l|] eqn:Hline.
    + assert (Hin : In l (candidates w (length (Main.trace s)) path))
        by (apply drawn_line_In; exact Hline).
      assert (Hne : Main.nonempty l = true).
      { apply In_candidates in Hin as [Hne _]. destruct l; [contradiction | reflexivity]. }
      rewrite Hne.
      destruct (IH (lines ++ [l]) (after_draw w path s)) as (new & s' & Hrun & Hthis & Hlen & Hall & Hnone).
      exists (l :: new), s'. rewrite Hrun, <- app_assoc. simpl.
      split; [reflexivity|]. split; [exact Hthis|]. split; [lia|]. split.
      * intros l' [<- | Hl']; [eexists; exact Hin | apply Hall, Hl'].
      * intro Hno. rewrite Hno in Hin. destruct Hin.
    + destruct (IH lines (after_draw w path s)) as (new & s' & Hrun & Hthis & Hlen & Hall & Hnone).
      exists new, s'. rewrite Hrun.
      split; [reflexivity|]. split; [exact Hthis|]. split; [lia|]. split.
      * exact Hall.
      * exact Hnone.
Qed.

Lemma lookup_last (lines : list str) (l : str) :
  Main.lookup (lines ++ [l]) (-1) = Some l.
Proof.
  unfold Main.lookup. rewrite length_app. simpl length.
  replace (-1 <? 0) with true by reflexivity.
  replace (-1 + Z.of_nat (length lines + 1)) with (Z.of_nat (length lines)) by lia.
  destruct (Z.of_nat (length lines) <? 0) eqn:E; [apply Z.ltb_lt in E; lia|].
  rewrite Nat2Z.id, nth_error_app2, Nat.sub_diag by lia. reflexivity.
Qed.

Lemma _handle_paragraph_mode_run (s : Main.State) :
  exists lines s1,
    Main.paragraph_lines w 30 [] s = (Main.Done lines, s1) /\
    Main.this s1 = Main.this s /\
    (length lines <= 30)%nat /\
    (forall l, In l lines ->
       exists k, In l (candidates w k (Main._wordlist_path (Main.this s)))) /\
    ((forall k, candidates w k (Main._wordlist_path (Main.this s)) = []) -> lines = []) /\
    Main._handle_paragraph_mode w s =
    (Main.Done tt,
     {| Main.this :=
          match lines with
          | [] => Main.this s
          | _ :: _ =>
              Main.with_used_lines
                (Main.add (last lines []) (Main._used_lines (Main.this s))) (Main.this s)
          end;
        Main.draws := Main.draws s1;
        Main.trace := Main.trace s1 ++
          Main.Sleep (5 # 100)
          :: typing_calls false (cased w (Main.this s) (Main.join (codes " ") lines)) |}).
Proof.
  destruct (paragraph_lines_run 30 [] s) as (lines & s1 & Hrun & Hthis & Hlen & Hall & Hnone).
  simpl app in Hrun. exists lines, s1. repeat split; try assumption.
  unfold Main._handle_paragraph_mode.
  rewrite (bind_run _ _ _ _ _ Hrun). clear Hrun Hall Hnone Hlen.
  destruct lines as [|l0 rest] eqn:Hlines.
  - erewrite bind_run by reflexivity. rewrite _handle_typing_run, Hthis.
    destruct s1 as [a1 d1 t1]. cbn [Main.this] in Hthis. subst a1. reflexivity.
  - rewrite <- Hlines in *.
    assert (Hlast : lines = removelast lines ++ [last lines []]).
    { apply app_removelast_last. rewrite Hlines. discriminate. }
    unfold Main.index. rewrite Hlast at 1. rewrite lookup_last.
    unfold Main.bind, Main.ret, Main.assign. cbv beta iota.
    rewrite _handle_typing_run. cbn [Main.this Main.draws Main.trace].
    rewrite Hthis. reflexivity.
Qed.

End Paragraph.

(** ** The front end: what the keys do *)

(** X12. Between two key presses the typer runs with the speed preset and
    the typing style that the indices of the front end point at, the
    content mode is the one at its index, the error rate is still the
    default 0.005, and [_is_typing] is clear; the delay range in force
    is one of the four presets, so its bounds are positive and in
    order. *)
Theorem settings_follow_the_keys (w : Main.World) (s : Main.State) :
  ui_reachable w s ->
  consistent (Main.this s) /\
  In (_typing_delay (Main._typer (Main.this s))) Main.SPEED_PRESETS /\
  (0 < fst (_typing_delay (Main._typer (Main.this s)))
   <= snd (_typing_delay (Main._typer (Main.this s))))%Q.
Proof.
  intro H. apply ui_reachable_consistent in H.
  split; [exact H|].
  destruct H as (_ & _ & _ & _ & _ & H6 & _ & _ & H9 & _).
  destruct (range_cases_4 _ H6) as [E|[E|[E|E]]]; rewrite E in H9;
    injection H9 as <-; simpl; (split; [tauto | split; reflexivity || discriminate]).
Qed.

Lemma settings_follow_the_keys_witness :
  consistent (Main.this after_ctrl) /\
  In (_typing_delay (Main._typer (Main.this after_ctrl))) Main.SPEED_PRESETS /\
  (0 < fst (_typing_delay (Main._typer (Main.this after_ctrl)))
   <= snd (_typing_delay (Main._typer (Main.this after_ctrl))))%Q.
Proof.
  apply (settings_follow_the_keys (host two_lines zero_tape)).
  apply reach_key.
  - apply (reach_new _ (codes "assets/gid.txt") (codes "assets/filler.txt")
                     (codes "assets/shortwords.txt")).
    reflexivity.
  - simpl. discriminate.
Defined.

(** X13. In a state the program can reach, Caps Lock, Shift, Ctrl and Alt
    never raise: the handler returns, prints one line, draws nothing
    and leaves [_used_lines] alone. *)
Theorem cyclers_always_return (w : Main.World) (fuel : nat) (key : Main.Hotkey)
        (s : Main.State) :
  ui_reachable w s ->
  key <> Main.Tab ->
  fst (Main.on_press_key w fuel key s) = Main.Done tt /\
  (exists line,
     Main.trace (snd (Main.on_press_key w fuel key s)) = Main.trace s ++ [Main.Print line]) /\
  Main.draws (snd (Main.on_press_key w fuel key s)) = Main.draws s /\
  Main._used_lines (Main.this (snd (Main.on_press_key w fuel key s)))
  = Main._used_lines (Main.this s).
Proof.
  intros H Hkey. apply ui_reachable_consistent in H.
  destruct key; [contradiction| | | |]; simpl Main.on_press_key.
  - rewrite toggle_case_mode_run. simpl. repeat split. eexists; reflexivity.
  - destruct (cycle_mode_run s H) as (m & _ & ->). simpl. repeat split.
    eexists; reflexivity.
  - destruct (cycle_typing_speed_run s H) as (lo & hi & n & _ & _ & ->). simpl.
    repeat split. eexists; reflexivity.
  - destruct (cycle_typing_mode_run s H) as (m & _ & ->). simpl. repeat split.
    eexists; reflexivity.
Qed.

Lemma cyclers_always_return_witness :
  fst (Main.on_press_key (host two_lines zero_tape) 1 Main.Alt after_ctrl) = Main.Done tt /\
  (exists line,
     Main.trace (snd (Main.on_press_key (host two_lines zero_tape) 1 Main.Alt after_ctrl))
     = Main.trace after_ctrl ++ [Main.Print line]) /\
  Main.draws (snd (Main.on_press_key (host two_lines zero_tape) 1 Main.Alt after_ctrl))
  = Main.draws after_ctrl /\
  Main._used_lines
    (Main.this (snd (Main.on_press_key (host two_lines zero_tape) 1 Main.Alt after_ctrl)))
  = Main._used_lines (Main.this after_ctrl).
Proof.
  apply (cyclers_always_return (host two_lines zero_tape) 1 Main.Alt after_ctrl).
  - apply reach_key.
    + apply (reach_new _ (codes "assets/gid.txt") (codes "assets/filler.txt")
                       (codes "assets/shortwords.txt")).
      reflexivity.
    + simpl. discriminate.
  - discriminate.
Defined.

Lemma mod_moves (p n P : Z) : 0 <= p < P -> 0 < n < P -> (p + n) mod P <> p.
Proof.
  intros Hp Hn H. rewrite Z.mod_eq in H by lia.
  set (q := (p + n) / P) in *.
  assert (Hq : n = P * q) by lia.
  assert (Hq0 : 0 <= q) by (apply Z.div_pos; lia).
  destruct (Z.eq_dec q 0) as [E|E]; [rewrite E in Hq; lia|].
  assert (P * 1 <= P * q) by (apply Z.mul_le_mono_nonneg_l; lia).
  lia.
Qed.

(** X14. From a state the program can reach, two presses of Caps Lock,
    five of Shift, four of Ctrl and three of Alt bring the object back to
    what it was, typer included, and no smaller number of presses does. *)
Theorem keys_go_round (w : Main.World) (fuel : nat) (key : Main.Hotkey) (s : Main.State) :
  ui_reachable w s ->
  key <> Main.Tab ->
  fst (presses w fuel key (period key) s) = Main.Done tt /\
  Main.this (snd (presses w fuel key (period key) s)) = Main.this s /\
  forall n, (0 < n < period key)%nat ->
            Main.this (snd (presses w fuel key n s)) <> Main.this s.
Proof.
  intros H Hkey. apply ui_reachable_consistent in H.
  destruct (presses_period w fuel key s H Hkey) as [Hr Hthis].
  split; [exact Hr|]. split; [exact Hthis|].
  intros n Hn Heq.
  destruct (presses_position w fuel key n Hkey s H) as [_ Hp].
  rewrite Heq in Hp. symmetry in Hp. revert Hp.
  apply mod_moves; [apply position_range, H | lia].
Qed.

Lemma keys_go_round_witness :
  fst (presses (host two_lines zero_tape) 1 Main.Ctrl (period Main.Ctrl) after_ctrl)
  = Main.Done tt /\
  Main.this (snd (presses (host two_lines zero_tape) 1 Main.Ctrl (period Main.Ctrl) after_ctrl))
  = Main.this after_ctrl /\
  forall n, (0 < n < period Main.Ctrl)%nat ->
            Main.this (snd (presses (host two_lines zero_tape) 1 Main.Ctrl n after_ctrl))
            <> Main.this after_ctrl.
Proof.
  apply (keys_go_round (host two_lines zero_tape) 1 Main.Ctrl after_ctrl).
  - apply reach_key.
    + apply (reach_new _ (codes "assets/gid.txt") (codes "assets/filler.txt")
                       (codes "assets/shortwords.txt")).
      reflexivity.
    + simpl. discriminate.
  - discriminate.
Defined.

(** X15. [toggle_case_mode] never raises, whatever [_case_mode] holds:
    "lower" becomes "upper", and every other value, "upper" or not,
    becomes "lower".  The object it leaves is the one it found with
    [_case_mode] assigned, every other attribute as it was, and it draws
    no random number. *)
Theorem toggle_case_mode_total (s : Main.State) :
  fst (Main.toggle_case_mode s) = Main.Done tt /\
  Main._case_mode (Main.this (snd (Main.toggle_case_mode s)))
  = (if Main.str_eqb (Main._case_mode (Main.this s)) (codes "lower")
     then codes "upper" else codes "lower") /\
  Main.this (snd (Main.toggle_case_mode s))
  = Main.with_case_mode
      (if Main.str_eqb (Main._case_mode (Main.this s)) (codes "lower")
       then codes "upper" else codes "lower")
      (Main.this s) /\
  Main.draws (snd (Main.toggle_case_mode s)) = Main.draws s.
Proof.
  rewrite toggle_case_mode_run. cbn [fst snd Main.this Main.draws].
  split; [reflexivity|]. split; [|split; reflexivity].
  destruct (Main.this s); reflexivity.
Qed.

(** X16. One press of Tab, in any state, mode and world: the front end
    assigns nothing but [_used_lines] and [_is_typing]; it releases Tab
    and then hands at most one text to the typer, by [type_text],
    [wait_until_done] and [press_enter] in this order, with Shift pressed
    before and released after or not touched at all; and unless the call
    hangs, [_is_typing] is afterwards what it was before. *)
Theorem one_text_per_tab (w : Main.World) (fuel : nat) (s : Main.State) :
  let r := Main.write_pack w fuel s in
  settings (Main.this (snd r)) = settings (Main.this s) /\
  (exists evs,
     Main.trace (snd r) = Main.trace s ++ evs /\
     (calls evs = [] \/
      calls evs = [Main.KeyboardRelease (codes "tab")] \/
      exists hold_shift text,
        calls evs = Main.KeyboardRelease (codes "tab") :: typing_calls hold_shift text)) /\
  (fst r <> Main.Hangs ->
   Main._is_typing (Main.this (snd r)) = Main._is_typing (Main.this s)).
Proof.
  intro r. destruct (write_pack_one_pack w fuel s) as [H1 H2].
  split; [exact H1|]. split; [exact H2|]. apply write_pack_is_typing.
Qed.

Section PressTheorems.

Variable w : Main.World.

Lemma since_started (s s' : Main.State) (evs : list Main.UiEvent) :
  Main.trace s' = Main.trace (started s) ++ evs ->
  since s s' = [Main.KeyboardRelease (codes "tab"); Main.Sleep (5 # 100)] ++ evs.
Proof.
  intro H. apply since_app. rewrite H. unfold started. simpl.
  rewrite <- app_assoc. reflexivity.
Qed.

Lemma after_draw_trace (path : str) (s : Main.State) :
  exists tail,
    Main.trace (after_draw w path s) = Main.trace s ++ Main.OpenFile path :: tail /\
    calls tail = [] /\ filter is_open tail = [].
Proof.
  unfold after_draw. simpl.
  destruct (Main.files w _ path); eexists; repeat split.
Qed.

Lemma calls_typing_calls (hold_shift : bool) (text : str) :
  calls (typing_calls hold_shift text) = typing_calls hold_shift text.
Proof. destruct hold_shift; reflexivity. Qed.

Lemma opens_typing_calls (hold_shift : bool) (text : str) :
  filter is_open (typing_calls hold_shift text) = [].
Proof. destruct hold_shift; reflexivity. Qed.

End PressTheorems.

(** X17. One press of Tab in the ladder mode reads the word list once and
    draws one line.  When there is no line, or the line was used before,
    the call of [write_pack] from within [_handle_ladder_mode] returns at
    once: nothing is typed and the object is left as it was.  Otherwise
    the line is marked as used and typed with its spaces turned into
    newlines, after the change of case, with Shift held down. *)
Theorem ladder_press (w : Main.World) (fuel : nat) (s : Main.State) :
  Main._is_typing (Main.this s) = false ->
  Main._mode (Main.this s) = codes "ladder" ->
  let path := Main._wordlist_path (Main.this s) in
  let r := Main.write_pack w (S (S fuel)) s in
  fst r = Main.Done tt /\
  filter is_open (since s (snd r)) = [Main.OpenFile path] /\
  match drawn_line w path (started s) with
  | Some line =>
      if Main._used_lines (Main.this s) line then
        calls (since s (snd r)) = [Main.KeyboardRelease (codes "tab")] /\
        Main.this (snd r) = Main.this s
      else
        calls (since s (snd r))
        = Main.KeyboardRelease (codes "tab")
          :: typing_calls true (cased w (Main.this s) (Main.replace 32 10 line)) /\
        Main.this (snd r)
        = Main.with_used_lines (Main.add line (Main._used_lines (Main.this s))) (Main.this s)
  | None =>
      calls (since s (snd r)) = [Main.KeyboardRelease (codes "tab")] /\
      Main.this (snd r) = Main.this s
  end.
Proof.
  intros Hflag Hmode path r. subst r.
  rewrite (pack_body_started w (S fuel) s (Main._handle_ladder_mode w (Main.write_pack w (S fuel))))
    by (try exact Hflag; rewrite Hmode; reflexivity).
  pose proof (ladder_run w fuel (started s) eq_refl) as Hrun. cbv zeta in Hrun.
  change (Main._wordlist_path (Main.this (started s))) with path in Hrun.
  change (Main._used_lines (Main.this (started s))) with (Main._used_lines (Main.this s)) in Hrun.
  destruct (after_draw_trace w path (started s)) as (tail & Htrace & Hcalls & Hopens).
  destruct (drawn_line w path (started s)) as [line|].
  - destruct (Main._used_lines (Main.this s) line).
    + rewrite (finally_done _ _ _ _ _ Hrun). cbn [fst snd Main.this Main.trace].
      rewrite (since_started s _ (Main.OpenFile path :: tail)) by exact Htrace.
      split; [reflexivity|]. split; [|split].
      * simpl. rewrite Hopens. reflexivity.
      * unfold calls in *. simpl. rewrite Hcalls. reflexivity.
      * apply with_is_typing_restore, Hflag.
    + rewrite (finally_done _ _ _ _ _ Hrun). cbn [fst snd Main.this Main.trace].
      rewrite (since_started s _
                 ((Main.OpenFile path :: tail) ++
                  Main.Sleep (5 # 100)
                  :: typing_calls true (cased w (Main.this (started s))
                                              (Main.replace 32 10 line))))
        by (rewrite Htrace, <- app_assoc; reflexivity).
      split; [reflexivity|]. split; [|split].
      * rewrite !filter_app. simpl. rewrite Hopens. reflexivity.
      * unfold calls in *. rewrite !filter_app. simpl. rewrite Hcalls. reflexivity.
      * apply with_is_typing_used_lines, Hflag.
  - rewrite (finally_done _ _ _ _ _ Hrun). cbn [fst snd Main.this Main.trace].
    rewrite (since_started s _ (Main.OpenFile path :: tail)) by exact Htrace.
    split; [reflexivity|]. split; [|split].
    + simpl. rewrite Hopens. reflexivity.
    + unfold calls in *. simpl. rewrite Hcalls. reflexivity.
    + apply with_is_typing_restore, Hflag.
Qed.

Lemma ladder_press_witness :
  calls (since (state_in 1 (codes "ladder"))
               (snd (Main.write_pack (host two_lines zero_tape) 2
                                     (state_in 1 (codes "ladder")))))
  = [Main.KeyboardRelease (codes "tab");
     Main.KeyboardPress (codes "shift");
     Main.TypeText (codes "hello" ++ [NEWLINE] ++ codes "there");
     Main.WaitUntilDone;
     Main.PressEnter;
     Main.KeyboardRelease (codes "shift")].
Proof.
  exact (proj1 (proj2 (proj2
    (ladder_press (host two_lines zero_tape) 0 (state_in 1 (codes "ladder"))
                  eq_refl eq_refl)))).
Defined.

Lemma prefixed_differs (symbol line : str) : symbol <> [] -> line <> symbol ++ line.
Proof.
  intros Hs H. apply (f_equal (@length Z)) in H. rewrite length_app in H.
  destruct symbol; [contradiction|]. simpl in H. lia.
Qed.

(** X18. One press of Tab in the normal mode draws a number from 1 to 13,
    reads one file once (the filler list on 1, the word list otherwise)
    and draws one line.  When there is no line, or the line was used
    before, nothing is typed and the object is left as it was.  Otherwise
    the line is typed, on 2 with one of the two symbols put before it;
    what is marked as used is the text that was typed, so that after a
    press that put a symbol before it the line itself still counts as
    unused. *)
Theorem normal_press (w : Main.World) (fuel : nat) (s : Main.State) :
  Main._is_typing (Main.this s) = false ->
  Main._mode (Main.this s) = codes "normal" ->
  Main._symbols (Main.this s) = [codes "- "; codes "# "] ->
  let choice := 1 + Main.tape w (Main.draws s) mod 13 in
  let source := if choice =? 1 then Main._filler_path (Main.this s)
                else Main._wordlist_path (Main.this s) in
  let s1 := {| Main.this := Main.this (started s); Main.draws := S (Main.draws s);
               Main.trace := Main.trace (started s) |} in
  let r := Main.write_pack w (S (S fuel)) s in
  fst r = Main.Done tt /\
  filter is_open (since s (snd r)) = [Main.OpenFile source] /\
  match drawn_line w source s1 with
  | Some line =>
      if Main._used_lines (Main.this s) line then
        calls (since s (snd r)) = [Main.KeyboardRelease (codes "tab")] /\
        Main.this (snd r) = Main.this s
      else
        exists symbol,
          let text := if choice =? 2 then symbol ++ line else line in
          In symbol [codes "- "; codes "# "] /\
          calls (since s (snd r))
          = Main.KeyboardRelease (codes "tab")
            :: typing_calls false (cased w (Main.this s) text) /\
          Main.this (snd r)
          = Main.with_used_lines (Main.add text (Main._used_lines (Main.this s)))
                                 (Main.this s) /\
          (choice = 2 -> Main._used_lines (Main.this (snd r)) line = false)
  | None =>
      calls (since s (snd r)) = [Main.KeyboardRelease (codes "tab")] /\
      Main.this (snd r) = Main.this s
  end.
Proof.
  intros Hflag Hmode Hsym choice source s1 r. subst r.
  rewrite (pack_body_started w (S fuel) s (Main._handle_normal_mode w (Main.write_pack w (S fuel))))
    by (try exact Hflag; rewrite Hmode; reflexivity).
  pose proof (normal_run w fuel (started s) eq_refl Hsym) as Hrun. cbv zeta in Hrun.
  change (Main.draws (started s)) with (Main.draws s) in Hrun.
  change (Main._filler_path (Main.this (started s)))
    with (Main._filler_path (Main.this s)) in Hrun.
  change (Main._wordlist_path (Main.this (started s)))
    with (Main._wordlist_path (Main.this s)) in Hrun.
  change (Main._used_lines (Main.this (started s))) with (Main._used_lines (Main.this s)) in Hrun.
  fold choice in Hrun. fold source in Hrun. fold s1 in Hrun.
  destruct (after_draw_trace w source s1) as (tail & Htrace & Hcalls & Hopens).
  change (Main.trace s1) with (Main.trace (started s)) in Htrace.
  destruct (drawn_line w source s1) as [line|].
  - destruct (Main._used_lines (Main.this s) line) eqn:Hused.
    + rewrite (finally_done _ _ _ _ _ Hrun). cbn [fst snd Main.this Main.trace].
      rewrite (since_started s _ (Main.OpenFile source :: tail)) by exact Htrace.
      split; [reflexivity|]. split; [|split].
      * simpl. rewrite Hopens. reflexivity.
      * unfold calls in *. simpl. rewrite Hcalls. reflexivity.
      * apply with_is_typing_restore, Hflag.
    + rewrite (finally_done _ _ _ _ _ Hrun). cbn [fst snd Main.this Main.trace].
      set (symbol := nth (Z.to_nat (Main.tape w (Main.draws (after_draw w source s1)) mod 2))
                         [codes "- "; codes "# "] (codes "- ")) in *.
      set (text := if choice =? 2 then symbol ++ line else line) in *.
      rewrite (since_started s _
                 ((Main.OpenFile source :: tail) ++
                  Main.Sleep (5 # 100)
                  :: typing_calls false (cased w (Main.this (started s)) text)))
        by (rewrite Htrace, <- app_assoc; reflexivity).
      split; [reflexivity|]. split.
      { rewrite !filter_app. simpl. rewrite Hopens. reflexivity. }
      exists symbol. cbv zeta. fold text.
      assert (Hin : In symbol [codes "- "; codes "# "]).
      { unfold symbol. apply nth_In.
        assert (0 <= Main.tape w (Main.draws (after_draw w source s1)) mod 2 < 2)
          by (apply Z.mod_pos_bound; lia).
        simpl length. lia. }
      split; [exact Hin|]. split; [|split].
      * unfold calls in *. rewrite !filter_app. simpl. rewrite Hcalls. reflexivity.
      * apply with_is_typing_used_lines, Hflag.
      * intro Hc. simpl. unfold Main.add. rewrite Hused, orb_false_r.
        apply str_eqb_neq. unfold text. rewrite Hc. simpl.
        apply prefixed_differs.
        destruct Hin as [<- | [<- | []]]; discriminate.
  - rewrite (finally_done _ _ _ _ _ Hrun). cbn [fst snd Main.this Main.trace].
    rewrite (since_started s _ (Main.OpenFile source :: tail)) by exact Htrace.
    split; [reflexivity|]. split; [|split].
    + simpl. rewrite Hopens. reflexivity.
    + unfold calls in *. simpl. rewrite Hcalls. reflexivity.
    + apply with_is_typing_restore, Hflag.
Qed.

Lemma normal_press_witness :
  Main._used_lines
    (Main.this (snd (Main.write_pack (host two_lines one_tape) 2 (state_in 0 (codes "normal")))))
    (codes "General Kenobi") = false /\
  calls (since (state_in 0 (codes "normal"))
               (snd (Main.write_pack (host two_lines one_tape) 2
                                     (state_in 0 (codes "normal")))))
  = [Main.KeyboardRelease (codes "tab");
     Main.TypeText (codes "# general kenobi");
     Main.WaitUntilDone;
     Main.PressEnter].
Proof.
  pose proof (proj2 (proj2
    (normal_press (host two_lines one_tape) 0 (state_in 0 (codes "normal"))
                  eq_refl eq_refl eq_refl))) as H.
  lazy in H. destruct H as (symbol & Hin & Hcalls & Hthis & Hunused).
  split.
  - exact (Hunused eq_refl).
  - reflexivity.
Defined.

(** X19. The beef mode never comes back when the word list does not offer
    two different lines (the file is missing, or all its lines are blank
    or the same once stripped): the loop that waits for two different
    lines runs for ever, whatever the number of iterations allowed. *)
Theorem beef_never_returns (w : Main.World) (s : Main.State) :
  Main._is_typing (Main.this s) = false ->
  Main._mode (Main.this s) = codes "beef" ->
  (forall n1 n2 l1 l2,
     In l1 (candidates w n1 (Main._wordlist_path (Main.this s))) ->
     In l2 (candidates w n2 (Main._wordlist_path (Main.this s))) ->
     l1 = l2) ->
  forall fuel, fst (Main.write_pack w fuel s) = Main.Hangs.
Proof.
  intros Hflag Hmode Hone fuel.
  apply (write_pack_beef_hangs w (Main._wordlist_path (Main.this s)) Hone);
    [reflexivity | exact Hflag | exact Hmode].
Qed.

Lemma beef_never_returns_witness :
  fst (Main.write_pack (host one_line zero_tape) 50 (state_in 3 (codes "beef"))) = Main.Hangs.
Proof.
  apply (beef_never_returns (host one_line zero_tape) (state_in 3 (codes "beef")));
    try reflexivity.
  intros n1 n2 l1 l2 H1 H2.
  destruct H1 as [<- | []]. destruct H2 as [<- | []]. reflexivity.
Defined.

(** X20. When the two lines that the beef mode draws first are different,
    a press of Tab types the first, " and ", the second, and marks both
    as used; whether they were used before plays no part. *)
Theorem beef_press (w : Main.World) (fuel : nat) (s : Main.State) (line1 line2 : str) :
  Main._is_typing (Main.this s) = false ->
  Main._mode (Main.this s) = codes "beef" ->
  let path := Main._wordlist_path (Main.this s) in
  drawn_line w path (started s) = Some line1 ->
  drawn_line w path (after_draw w path (started s)) = Some line2 ->
  line1 <> line2 ->
  let r := Main.write_pack w (S fuel) s in
  fst r = Main.Done tt /\
  calls (since s (snd r))
  = Main.KeyboardRelease (codes "tab")
    :: typing_calls false (cased w (Main.this s) (line1 ++ codes " and " ++ line2)) /\
  Main.this (snd r)
  = Main.with_used_lines
      (Main.add line2 (Main.add line1 (Main._used_lines (Main.this s)))) (Main.this s).
Proof.
  intros Hflag Hmode path H1 H2 Hneq r. subst r.
  rewrite (pack_body_started w fuel s (Main._handle_beef_mode w fuel))
    by (try exact Hflag; rewrite Hmode; reflexivity).
  assert (Hne1 : Main.nonempty line1 = true).
  { apply drawn_line_In, In_candidates in H1 as [Hne _].
    destruct line1; [contradiction | reflexivity]. }
  assert (Hne2 : Main.nonempty line2 = true).
  { apply drawn_line_In, In_candidates in H2 as [Hne _].
    destruct line2; [contradiction | reflexivity]. }
  assert (Hloop : forall s', Main.beef_lines w fuel (Some line1) (Some line2) s'
                              = (Main.Done (line1, line2), s')).
  { intro s'. destruct fuel; simpl; rewrite Hne1, Hne2;
      rewrite (proj2 (str_eqb_neq line1 line2) Hneq); reflexivity. }
  destruct (after_draw_trace w path (started s)) as (tail1 & Ht1 & Hc1 & _).
  destruct (after_draw_trace w path (after_draw w path (started s)))
    as (tail2 & Ht2 & Hc2 & _).
  assert (Hrun : Main._handle_beef_mode w fuel (started s) =
    (Main.Done tt,
     {| Main.this := Main.with_used_lines
                       (Main.add line2 (Main.add line1 (Main._used_lines (Main.this s))))
                       (Main.this (started s));
        Main.draws := Main.draws (after_draw w path (after_draw w path (started s)));
        Main.trace := Main.trace (after_draw w path (after_draw w path (started s))) ++
          Main.Sleep (5 # 100)
          :: typing_calls false (cased w (Main.this s) (line1 ++ codes " and " ++ line2)) |})).
  { unfold Main._handle_beef_mode.
    rewrite (bind_run _ _ (started s) (started s) (Main.this (started s))) by reflexivity.
    change (Main._wordlist_path (Main.this (started s))) with path.
    rewrite (bind_run _ _ _ _ _ (_get_random_line_run w path (started s))).
    erewrite bind_run by reflexivity.
    change (Main._wordlist_path (Main.this (after_draw w path (started s)))) with path.
    rewrite (bind_run _ _ _ _ _ (_get_random_line_run w path (after_draw w path (started s)))).
    rewrite H1, H2.
    rewrite (bind_run _ _ _ _ _ (Hloop _)).
    erewrite bind_run by reflexivity.
    erewrite bind_run by reflexivity.
    rewrite _handle_typing_run. reflexivity. }
  rewrite (finally_done _ _ _ _ _ Hrun). cbn [fst snd Main.this Main.trace].
  rewrite (since_started s _
             ((Main.OpenFile path :: tail1) ++ (Main.OpenFile path :: tail2) ++
              Main.Sleep (5 # 100)
              :: typing_calls false (cased w (Main.this s) (line1 ++ codes " and " ++ line2))))
    by (rewrite Ht2, Ht1, <- !app_assoc; reflexivity).
  split; [reflexivity|]. split.
  - unfold calls in *. rewrite !filter_app. simpl. rewrite Hc1, Hc2. reflexivity.
  - apply with_is_typing_used_lines, Hflag.
Qed.

Lemma beef_press_witness :
  calls (since (state_in 3 (codes "beef"))
               (snd (Main.write_pack (host two_lines (fun n => Z.of_nat n)) 1
                                     (state_in 3 (codes "beef")))))
  = [Main.KeyboardRelease (codes "tab");
     Main.TypeText (codes "hello there and general kenobi");
     Main.WaitUntilDone;
     Main.PressEnter].
Proof.
  exact (proj1 (proj2
    (beef_press (host two_lines (fun n => Z.of_nat n)) 0 (state_in 3 (codes "beef"))
                (codes "Hello there") (codes "General Kenobi")
                eq_refl eq_refl eq_refl eq_refl
                ltac:(discriminate)))).
Defined.

(** X21. One press of Tab in the paragraph mode always types: up to
    thirty lines of the word list joined by spaces, after the change of
    case, without Shift.  When the word list is missing or holds no line
    that is not blank, the text is the empty paragraph, and Enter is
    pressed all the same.  Of the lines typed only the last is marked as
    used. *)
Theorem paragraph_press (w : Main.World) (fuel : nat) (s : Main.State) :
  Main._is_typing (Main.this s) = false ->
  Main._mode (Main.this s) = codes "paragraph" ->
  let path := Main._wordlist_path (Main.this s) in
  let r := Main.write_pack w (S fuel) s in
  exists lines,
    fst r = Main.Done tt /\
    (length lines <= 30)%nat /\
    (forall l, In l lines -> exists k, In l (candidates w k path)) /\
    ((forall k, candidates w k path = []) -> lines = []) /\
    calls (since s (snd r))
    = Main.KeyboardRelease (codes "tab")
      :: typing_calls false (cased w (Main.this s) (Main.join (codes " ") lines)) /\
    Main.this (snd r)
    = match lines with
      | [] => Main.this s
      | _ :: _ =>
          Main.with_used_lines
            (Main.add (last lines []) (Main._used_lines (Main.this s))) (Main.this s)
      end.
Proof.
  intros Hflag Hmode path r. subst r.
  rewrite (pack_body_started w fuel s (Main._handle_paragraph_mode w))
    by (try exact Hflag; rewrite Hmode; reflexivity).
  destruct (_handle_paragraph_mode_run w (started s))
    as (lines & s1 & Hlines & Hthis & Hlen & Hall & Hnone & Hrun).
  destruct (quiet_paragraph_lines w 30 [] (started s)) as (_ & _ & evs & Htrace & Hcalls).
  rewrite Hlines in Htrace. cbn [snd] in Htrace. clear Hlines.
  exists lines.
  rewrite (finally_done _ _ _ _ _ Hrun). cbn [fst snd Main.this Main.trace].
  rewrite (since_started s _
             (evs ++ Main.Sleep (5 # 100)
                  :: typing_calls false
                       (cased w (Main.this (started s)) (Main.join (codes " ") lines))))
    by (rewrite Htrace, <- app_assoc; reflexivity).
  split; [reflexivity|]. split; [exact Hlen|]. split; [exact Hall|]. split; [exact Hnone|].
  split.
  - unfold calls in *. rewrite !filter_app. simpl. rewrite Hcalls. reflexivity.
  - destruct lines.
    + apply with_is_typing_restore, Hflag.
    + apply with_is_typing_used_lines, Hflag.
Qed.

Lemma paragraph_press_witness :
  exists lines,
    fst (Main.write_pack (host [] zero_tape) 1 (state_in 2 (codes "paragraph")))
    = Main.Done tt /\
    lines = [] /\
    calls (since (state_in 2 (codes "paragraph"))
                 (snd (Main.write_pack (host [] zero_tape) 1
                                       (state_in 2 (codes "paragraph")))))
    = Main.KeyboardRelease (codes "tab")
      :: typing_calls false (cased (host [] zero_tape)
                                   (Main.this (state_in 2 (codes "paragraph")))
                                   (Main.join (codes " ") lines)).
Proof.
  destruct (paragraph_press (host [] zero_tape) 0 (state_in 2 (codes "paragraph"))
                            eq_refl eq_refl)
    as (lines & Hr & _ & _ & Hnone & Hcalls & _).
  exists lines. split; [exact Hr|]. split; [|exact Hcalls].
  apply Hnone. intro k. reflexivity.
Defined.

(** X22. With sets iterated in some order of their elements, one press of
    Tab in the demon mode always comes back: it marks one of the types
    short, middle and long as used; as long as one of them is not marked,
    the type it picks is one that was not marked and no used line is
    forgotten, so that three presses from a fresh start pick the three
    types once each. *)
Theorem demon_press (w : Main.World) (fuel : nat) (s : Main.State) :
  same_elements w ->
  Main._is_typing (Main.this s) = false ->
  Main._mode (Main.this s) = codes "demon" ->
  let r := Main.write_pack w (S fuel) s in
  fst r = Main.Done tt /\
  exists selected,
    In selected Main.ALL_TYPES /\
    Main._used_lines (Main.this (snd r)) (Main.marker selected) = true /\
    ((exists t, In t Main.ALL_TYPES /\
                Main._used_lines (Main.this s) (Main.marker t) = false) ->
     Main._used_lines (Main.this s) (Main.marker selected) = false /\
     forall x, Main._used_lines (Main.this s) x = true ->
               Main._used_lines (Main.this (snd r)) x = true).
Proof.
  intros Hord Hflag Hmode r. subst r.
  rewrite (pack_body_started w fuel s (Main._handle_demon_mode w))
    by (try exact Hflag; rewrite Hmode; reflexivity).
  destruct (_handle_demon_mode_run w Hord (started s))
    as (selected & s' & Hrun & Hin & Hmarked & Hfresh).
  rewrite (finally_done _ _ _ _ _ Hrun). cbn [fst snd Main.this].
  split; [reflexivity|]. exists selected.
  split; [exact Hin|]. split; [exact Hmarked|]. exact Hfresh.
Qed.

Lemma demon_press_witness :
  fst (Main.write_pack (host two_lines zero_tape) 1 (state_in 4 (codes "demon")))
  = Main.Done tt.
Proof.
  refine (proj1 (demon_press (host two_lines zero_tape) 0 (state_in 4 (codes "demon"))
                             _ eq_refl eq_refl)).
  intros n l x. simpl. tauto.
Defined.

(** X23. [_get_random_line] on the files the model has, those that are
    missing and those that can be opened and read as UTF-8 text (any
    other failure of [open] or of the decoding is not caught by the
    method).  For a missing file it returns [None]: the
    [FileNotFoundError] is caught.  For a readable file it returns [None]
    exactly when no line is left after stripping, and otherwise one of
    the stripped lines that are not blank, never the empty string.  In
    both cases it opens the file once, assigns nothing and calls neither
    the typer nor the keyboard. *)
Theorem random_line_is_a_candidate (w : Main.World) (path : str) (s : Main.State) :
  let r := Main._get_random_line w path s in
  (Main.files w (length (Main.trace s)) path = None -> fst r = Main.Done None) /\
  (forall f,
      Main.files w (length (Main.trace s)) path = Some f ->
      exists line,
        fst r = Main.Done line /\
        (line = None <-> candidates w (length (Main.trace s)) path = []) /\
        (forall l, line = Some l ->
                   l <> [] /\ In l (candidates w (length (Main.trace s)) path))) /\
  Main.this (snd r) = Main.this s /\
  calls (since s (snd r)) = [] /\
  filter is_open (since s (snd r)) = [Main.OpenFile path].
Proof.
  intro r. subst r. rewrite _get_random_line_run. cbn [fst snd].
  destruct (after_draw_trace w path s) as (tail & Htrace & Hcalls & Hopens).
  rewrite (since_app _ _ _ Htrace).
  split; [|split; [|split; [reflexivity|split]]].
  - intros Hmissing. f_equal. apply drawn_line_None.
    unfold candidates. now rewrite Hmissing.
  - intros f _. exists (drawn_line w path s).
    split; [reflexivity|]. split; [apply drawn_line_None|].
    intros l Hl. apply drawn_line_In in Hl. split; [|exact Hl].
    apply In_candidates in Hl. apply Hl.
  - unfold calls in *. simpl. exact Hcalls.
  - simpl. rewrite Hopens. reflexivity.
Qed.

(** The word list of the example host: a line is drawn, and it is not
    empty. *)
Lemma random_line_is_a_candidate_witness :
  exists line,
    fst (Main._get_random_line (host two_lines zero_tape) (codes "assets/gid.txt")
                               (state_in 0 (codes "normal")))
    = Main.Done (Some line)
    /\ line <> [].
Proof.
  destruct (random_line_is_a_candidate (host two_lines zero_tape)
              (codes "assets/gid.txt") (state_in 0 (codes "normal")))
    as (_ & Hread & _).
  destruct (Hread two_lines eq_refl) as ([l |] & Hrun & Hnone & Hsome).
  - exists l. split; [exact Hrun | apply (Hsome l eq_refl)].
  - exfalso. destruct Hnone as [Hnone _]. specialize (Hnone eq_refl).
    vm_compute in Hnone. discriminate Hnone.
Defined.

(** X24. With sets iterated in some order of their elements,
    [_get_allowed_demon_types] returns a list that is never empty (so
    [random.choice] of it cannot raise) and holds exactly the types whose
    marker is not in [_used_lines] when it returns; lines that are no
    markers are left as they are, and nothing at all is changed as long
    as some type is not marked. *)
Theorem allowed_demon_types (w : Main.World) (s : Main.State) :
  same_elements w ->
  let r := Main._get_allowed_demon_types w s in
  exists allowed,
    fst r = Main.Done allowed /\
    allowed <> [] /\
    (forall t, In t allowed <->
               In t Main.ALL_TYPES /\
               Main._used_lines (Main.this (snd r)) (Main.marker t) = false) /\
    (forall x, (forall t, In t Main.ALL_TYPES -> x <> Main.marker t) ->
               Main._used_lines (Main.this (snd r)) x = Main._used_lines (Main.this s) x) /\
    ((exists t, In t Main.ALL_TYPES /\
                Main._used_lines (Main.this s) (Main.marker t) = false) ->
     snd r = s).
Proof.
  intros Hord r. subst r.
  destruct (_get_allowed_demon_types_spec w Hord s)
    as (allowed & s' & -> & Hne & Hallowed & Hother & Hsame & _).
  exists allowed. cbn [fst snd]. repeat split; try assumption; apply Hallowed; assumption.
Qed.

Lemma allowed_demon_types_witness :
  exists allowed,
    fst (Main._get_allowed_demon_types (host two_lines zero_tape)
                                       (state_in 4 (codes "demon")))
    = Main.Done allowed /\
    allowed <> [].
Proof.
  destruct (allowed_demon_types (host two_lines zero_tape) (state_in 4 (codes "demon")))
    as (allowed & Hr & Hne & _).
  - intros n l x. simpl. tauto.
  - exists allowed. split; assumption.
Defined.
